(** * Parchi: QR payload codec and gate verification, embedded in Rocq

    The development follows the TypeScript sources:
    - [lib/qr/qrGenerator.ts]            the payload codec ([Qr]);
    - [app/api/gate/verify/route.ts]     the verify endpoint ([Verify]);
    - [app/api/gate/scan/route.ts]       the scan endpoint ([Scan]);
    - [app/api/tickets/by-qr/route.ts]   the directory lookup ([ByQr]);
    - [prisma/migrations/.../migration.sql] the two tables the endpoints
      touch ([Db]);
    - [app/api/tickets/[id]/update-status/route.ts] the status endpoint
      ([UpdateStatus]);
    - [lib/qr/qrService.ts]              the collection and ticket codes
      ([QrService]);
    - [app/gate/ScanPage.tsx]            the gate page ([ScanPage]);
    - [lib/services/verificationService.ts] the checks of time of the
      verifier ([Verifier]).

    Conventions of the embedding.
    - A JavaScript string is a [string]; its characters stand for the code
      units of ASCII text, so that [length], [slice] and [startsWith] count
      the same units as the source does.
    - A JavaScript number is a [number]: an integer [Z], as the numbers of a
      generated payload are (a version, a ticket number, unix seconds), or a
      decimal fraction, which a scanned text may hold. Numbers are exact:
      they are the doubles of the runtime wherever those do not round
      (integers below 2^53, decimals of up to 15 significant digits).
    - A value read from JSON is a [json]; [undefined] is [None] in
      [option json].
    - The clock ([Date.now()], [new Date()]) is an argument of the function
      that reads it.
    - A call of an endpoint is a function of the store. Calls of the verify
      endpoint that run at the same time are programs of statements whose
      steps interleave, against a store at READ COMMITTED with a lock on
      each row written ([Concurrent]); a call that runs on its own is the
      function ([alone_is_POST]).
    - Functions of the runtime and of the libraries the sources import
      ([crypto], [jose], [JSON], [Buffer]) are the methods of the class
      [Platform], together with the part of their contract the proofs use;
      the instance [reference] implements the class. *)

From Stdlib Require Import ZArith Ascii String DecimalString DecimalPos DecimalZ Lia.
From stdpp Require Import base tactics option list strings gmap fin_maps.

Set Warnings "-register-all".
Local Open Scope Z_scope.


(** ** Results of fallible code *)

Inductive result (E A : Type) : Type :=
| Ok (a : A)
| Err (e : E).
Arguments Ok {E A} a.
Arguments Err {E A} e.

(** ** JavaScript values and the built-ins the sources use *)

Module Js.

(** A number: an integer, or the decimal fraction [digits / 10 ^ places],
    which is what [JSON.parse] reads from a literal with a fraction or
    with a negative exponent. *)
Inductive number : Type :=
| Int (n : Z)
| Dec (digits : Z) (places : positive).

Coercion Int : Z >-> number.

Definition places_of (x : number) : Z :=
  match x with
  | Int _ => 0
  | Dec _ places => Z.pos places
  end.

(** [x * 10 ^ k], an integer when [x] has at most [k] places *)
Definition shifted (k : Z) (x : number) : Z :=
  match x with
  | Int n => n * 10 ^ k
  | Dec digits places => digits * 10 ^ (k - Z.pos places)
  end.

(** [digits / 10 ^ places], without the zeros that end the fraction *)
Fixpoint normal (places : nat) (digits : Z) : number :=
  match places with
  | O => Int digits
  | S places' =>
      if Z.eqb (digits mod 10) 0 then normal places' (digits / 10)
      else Dec digits (Pos.of_succ_nat places')
  end.

(** [x === y], [x < y] and [x <= y] on numbers *)
Definition number_eqb (x y : number) : bool :=
  match x, y with
  | Int a, Int b => Z.eqb a b
  | _, _ =>
      let k := Z.max (places_of x) (places_of y) in Z.eqb (shifted k x) (shifted k y)
  end.

Definition number_ltb (x y : number) : bool :=
  match x, y with
  | Int a, Int b => Z.ltb a b
  | _, _ =>
      let k := Z.max (places_of x) (places_of y) in Z.ltb (shifted k x) (shifted k y)
  end.

Definition number_leb (x y : number) : bool :=
  match x, y with
  | Int a, Int b => Z.leb a b
  | _, _ =>
      let k := Z.max (places_of x) (places_of y) in Z.leb (shifted k x) (shifted k y)
  end.

(** [x - y] *)
Definition number_sub (x y : number) : number :=
  match x, y with
  | Int a, Int b => Int (a - b)
  | _, _ =>
      let k := Z.max (places_of x) (places_of y) in
      normal (Z.to_nat k) (shifted k x - shifted k y)
  end.

Inductive json : Type :=
| JNull
| JBool (b : bool)
| JNum (n : number)
| JStr (s : string)
| JArr (xs : list json)
| JObj (fields : list (string * json)).

(** [o[k]] on the own properties of an object literal. *)
Fixpoint assoc {A : Type} (k : string) (fields : list (string * A)) : option A :=
  match fields with
  | [] => None
  | (k', x) :: rest => if String.eqb k k' then Some x else assoc k rest
  end.

(** [x?.k]: the property of an object, [undefined] on anything else. *)
Definition prop (x : json) (k : string) : option json :=
  match x with
  | JObj fields => assoc k fields
  | _ => None
  end.

(** [!!x] *)
Definition truthy (x : option json) : bool :=
  match x with
  | None | Some JNull => false
  | Some (JBool b) => b
  | Some (JNum n) => negb (number_eqb n 0)
  | Some (JStr s) => negb (String.eqb s "")
  | Some (JArr _) | Some (JObj _) => true
  end.

(** [x ?? y] *)
Definition nullish (x y : option json) : option json :=
  match x with
  | None | Some JNull => y
  | Some _ => x
  end.

(** [typeof x === 'number'] and [typeof x === 'string'] *)
Definition as_number (x : option json) : option number :=
  match x with Some (JNum n) => Some n | _ => None end.

Definition as_string (x : option json) : option string :=
  match x with Some (JStr s) => Some s | _ => None end.

(** [x !== 1] *)
Definition is_one (x : option json) : bool :=
  match x with Some (JNum n) => number_eqb n 1 | _ => false end.

(** [s.startsWith(p)] *)
Definition startsWith (s p : string) : bool := String.prefix p s.

(** [s.slice(from, to)] for [0 <= from <= to] *)
Definition slice (from to : nat) (s : string) : string :=
  substring from (to - from) s.

(** [s.slice(n)] *)
Fixpoint slice_from (n : nat) (s : string) : string :=
  match n, s with
  | O, _ => s
  | S n', String _ s' => slice_from n' s'
  | S _, EmptyString => EmptyString
  end.

(** [s.replace(pat, rep)] with a string pattern: the first occurrence only. *)
Fixpoint replace (pat rep s : string) : string :=
  if String.prefix pat s then rep +:+ slice_from (String.length pat) s
  else match s with
       | EmptyString => EmptyString
       | String ch s' => String ch (replace pat rep s')
       end.

(** [s.replace(/x/g, y)] for a single character [x] *)
Fixpoint replace_all_char (x y : ascii) (s : string) : string :=
  match s with
  | EmptyString => EmptyString
  | String ch s' => String (if Ascii.eqb ch x then y else ch) (replace_all_char x y s')
  end.

(** White space of [trim], on ASCII text: tab, line feed, vertical tab,
    form feed, carriage return and space. *)
Definition is_space (ch : ascii) : bool :=
  let n := nat_of_ascii ch in
  ((9 <=? n)%nat && (n <=? 13)%nat) || (n =? 32)%nat.

Fixpoint trimStart (s : string) : string :=
  match s with
  | String ch s' => if is_space ch then trimStart s' else s
  | EmptyString => EmptyString
  end.

Fixpoint trimEnd (s : string) : string :=
  match s with
  | EmptyString => EmptyString
  | String ch s' =>
      match trimEnd s' with
      | EmptyString => if is_space ch then EmptyString else String ch EmptyString
      | rest => String ch rest
      end
  end.

(** [s.trim()] *)
Definition trim (s : string) : string := trimEnd (trimStart s).

Definition lower (ch : ascii) : ascii :=
  let n := nat_of_ascii ch in
  if ((65 <=? n)%nat && (n <=? 90)%nat) then ascii_of_nat (n + 32) else ch.

(** [s.toLowerCase()] on ASCII text *)
Fixpoint toLowerCase (s : string) : string :=
  match s with
  | EmptyString => EmptyString
  | String ch s' => String (lower ch) (toLowerCase s')
  end.

(** [String(n)] and [`${n}`] for an integer [n] *)
Definition Number_toString (n : Z) : string :=
  NilZero.string_of_int (Z.to_int n).

(** [k] times ['0'] *)
Definition zeros (k : nat) : string :=
  String.string_of_list_ascii (List.repeat "0"%char k).

(** [String(x)] for a fraction [digits / 10 ^ places] whose last digit is
    not [0]. With [k] the number of digits and [n = k - places], the place
    of the point: the digits with the point after [n] of them when
    [0 < n <= 21], ["0."], [-n] zeros and the digits when [-6 < n <= 0],
    and the notation with an exponent otherwise. *)
Definition fraction_toString (digits : Z) (places : positive) : string :=
  let s := Number_toString (Z.abs digits) in
  let k := Z.of_nat (String.length s) in
  let n := k - Z.pos places in
  (if Z.ltb digits 0 then "-" else "")
  +:+ (if Z.ltb 0 n && Z.leb n 21
       then substring 0 (Z.to_nat n) s +:+ "." +:+ slice_from (Z.to_nat n) s
       else if Z.ltb (-6) n && Z.leb n 0
       then "0." +:+ zeros (Z.to_nat (- n)) +:+ s
       else
         let exponent :=
           (if Z.leb 0 (n - 1) then "+" else "-") +:+ Number_toString (Z.abs (n - 1)) in
         if Z.eqb k 1 then s +:+ "e" +:+ exponent
         else substring 0 1 s +:+ "." +:+ slice_from 1 s +:+ "e" +:+ exponent).

(** [String(x)] and [`${x}`] for a number [x] *)
Definition number_toString (x : number) : string :=
  match x with
  | Int n => Number_toString n
  | Dec digits places =>
      match normal (Pos.to_nat places) digits with
      | Int n => Number_toString n
      | Dec digits' places' => fraction_toString digits' places'
      end
  end.

(** [xs.join(sep)] once the elements are strings *)
Fixpoint join (sep : string) (xs : list string) : string :=
  match xs with
  | [] => ""
  | [x] => x
  | x :: rest => x +:+ sep +:+ join sep rest
  end.

(** [String(x)] and [`${x}`] *)
Fixpoint ToString (x : json) : string :=
  match x with
  | JNull => "null"
  | JBool true => "true"
  | JBool false => "false"
  | JNum n => number_toString n
  | JStr s => s
  | JArr xs =>
      join "," (List.map (fun y => match y with JNull => "" | _ => ToString y end) xs)
  | JObj _ => "[object Object]"
  end.

(** [Number(s)] for a string: the integer it spells in decimal between
    white space, [0] for the empty string, and [NaN] ([None]) otherwise.
    Only the spellings of integers are covered: the others (a fraction, an
    exponent, a leading [+], [0x]) read as [NaN] here. *)
Definition StringToNumber (s : string) : option number :=
  let s' := trim s in
  if String.eqb s' "" then Some (Int 0)
  else (fun d => Int (Z.of_int d)) <$> NilZero.int_of_string s'.

(** [Number(x)]; [None] is [NaN]. *)
Definition ToNumber (x : json) : option number :=
  match x with
  | JNull => Some (Int 0)
  | JBool b => Some (Int (if b then 1 else 0))
  | JNum n => Some n
  | JStr s => StringToNumber s
  | JArr _ | JObj _ => StringToNumber (ToString x)
  end.

(** [`${n}`] for a number that may be [NaN] *)
Definition NumberOrNaN_toString (n : option number) : string :=
  match n with Some x => number_toString x | None => "NaN" end.

End Js.
Export Js.

(** ** The runtime and the imported libraries *)

(** A flat record: what the codec serialises. Its keys are distinct
    identifiers and its values are strings and integers. *)
Definition scalar (x : json) : bool :=
  match x with JNum (Int _) | JStr _ => true | _ => false end.

Definition is_letter (ch : ascii) : bool :=
  let n := nat_of_ascii ch in
  ((65 <=? n)%nat && (n <=? 90)%nat) || ((97 <=? n)%nat && (n <=? 122)%nat).

Definition identifier (k : string) : bool :=
  match k with
  | String ch _ => is_letter ch
  | EmptyString => false
  end.

Fixpoint all_chars (p : ascii → bool) (s : string) : bool :=
  match s with
  | EmptyString => true
  | String ch s' => p ch && all_chars p s'
  end.

(** [0-9a-f] *)
Definition is_hex_digit (ch : ascii) : bool :=
  let n := nat_of_ascii ch in
  ((48 <=? n)%nat && (n <=? 57)%nat) || ((97 <=? n)%nat && (n <=? 102)%nat).

Definition flat_record (fields : list (string * json)) : Prop :=
  NoDup fields.*1 ∧ Forall (fun kv => identifier kv.1 = true ∧ scalar kv.2 = true) fields.

Class Platform : Type := {
  (** [crypto.createHash('sha256').update(s).digest('hex')] *)
  sha256_hex : string → string;
  sha256_hex_length : ∀ s, String.length (sha256_hex s) = 64%nat;
  sha256_hex_digits : ∀ s, all_chars is_hex_digit (sha256_hex s) = true;
  (** [base64url.encode(s)] of jose on a string *)
  base64url_encode : string → string;
  (** [new TextDecoder().decode(base64url.decode(s))]; [None] when
      [base64url.decode] throws *)
  base64url_decode : string → option string;
  base64url_decode_encode : ∀ s, base64url_decode (base64url_encode s) = Some s;
  (** [JSON.stringify(x)] and [JSON.parse(s)]; [None] when [JSON.parse]
      throws *)
  JSON_stringify : json → string;
  JSON_parse : string → option json;
  JSON_parse_stringify : ∀ fields,
    flat_record fields → JSON_parse (JSON_stringify (JObj fields)) = Some (JObj fields);
  (** [decodeURIComponent(s)]; [None] when it throws *)
  decodeURIComponent : string → option string;
  (** [Buffer.from(s, 'base64').toString('utf8')] *)
  Buffer_base64_utf8 : string → string;
  (** [new Date(ms).toISOString()] *)
  Date_toISOString : Z → string;
}.

(** ** The payload codec: lib/qr/qrGenerator.ts *)

Module Qr.
Section WithPlatform.
Context `{Platform}.

(** [interface QRPayload] *)
Record QRPayload : Type := {
  v : Z;          (* protocol version (1) *)
  e : string;     (* event id *)
  t : Z;          (* ticket number within the event *)
  a : string;     (* first 8 characters of the asset pubkey *)
  ts : Z;         (* unix seconds at which the code was generated *)
  c : string;     (* checksum *)
}.

(** The object a [QRPayload] is at run time, keys in the order in which
    [generateTicketQR] writes them. *)
Definition payload_json (p : QRPayload) : json :=
  JObj [("v", JNum (v p)); ("e", JStr (e p)); ("t", JNum (t p));
        ("a", JStr (a p)); ("ts", JNum (ts p)); ("c", JStr (c p))].

Definition calculateChecksum
    (eventId : string) (ticketNumber : Z) (assetPubkey : string) (timestamp : Z) : string :=
  let checksumData :=
    eventId +:+ ":" +:+ Number_toString ticketNumber +:+ ":" +:+ assetPubkey
            +:+ ":" +:+ Number_toString timestamp in
  slice 0 4 (sha256_hex checksumData).

(** [nowMs] is the value of [Date.now()]. *)
Definition generateTicketQR
    (nowMs : Z) (eventId : string) (ticketNumber : Z) (assetPubkey : string) : string :=
  let timestamp := nowMs / 1000 in
  let checksumData :=
    eventId +:+ ":" +:+ Number_toString ticketNumber +:+ ":" +:+ assetPubkey
            +:+ ":" +:+ Number_toString timestamp in
  let checksum := slice 0 4 (sha256_hex checksumData) in
  let finalPayload :=
    {| v := 1; e := eventId; t := ticketNumber; a := slice 0 8 assetPubkey;
       ts := timestamp; c := checksum |} in
  let encoded := base64url_encode (JSON_stringify (payload_json finalPayload)) in
  "parchi:" +:+ encoded.

(** The errors [parseQRCode] throws, by message. *)
Inductive ParseError : Type :=
| InvalidQRFormat          (* 'Invalid QR format - must start with "parchi:"' *)
| DecodeError              (* thrown by base64url.decode, by JSON.parse or by
                              reading a property of null; rethrown unchanged *)
| MissingRequiredFields    (* 'Malformed QR data - missing required fields' *)
| UnsupportedQRVersion     (* `Unsupported QR version: ${decoded.v}` *)
| InvalidTicketNumber      (* 'Invalid ticket number' *)
| InvalidTimestamp.        (* 'Invalid timestamp' *)

Definition parseQRCode (qrString : string) : result ParseError json :=
  if negb (startsWith qrString "parchi:") then Err InvalidQRFormat
  else
    let encoded := replace "parchi:" "" qrString in
    match base64url_decode encoded with
    | None => Err DecodeError
    | Some decodedString =>
        match JSON_parse decodedString with
        | None => Err DecodeError
        | Some JNull => Err DecodeError
        | Some decoded =>
            if negb (truthy (prop decoded "v")) || negb (truthy (prop decoded "e"))
               || negb (truthy (prop decoded "t")) || negb (truthy (prop decoded "a"))
               || negb (truthy (prop decoded "c")) || negb (truthy (prop decoded "ts"))
            then Err MissingRequiredFields
            else if negb (is_one (prop decoded "v")) then Err UnsupportedQRVersion
            else if match as_number (prop decoded "t") with
                    | Some n => number_leb n 0
                    | None => true
                    end
            then Err InvalidTicketNumber
            else if match as_number (prop decoded "ts") with
                    | Some n => number_leb n 0
                    | None => true
                    end
            then Err InvalidTimestamp
            else Ok decoded
        end
    end.

(** The errors [validateQRIntegrity] throws, by message. *)
Inductive IntegrityError : Type :=
| QRCodeExpired            (* 'QR code expired' *)
| InvalidChecksum          (* 'QR code tampered or invalid checksum' *)
| AssetPubkeyMismatch.     (* 'Asset pubkey mismatch' *)

Definition maxAge : Z := 365 * 24 * 60 * 60.

Definition validateQRIntegrity
    (nowMs : Z) (qrData : QRPayload) (fullAssetPubkey : string) : result IntegrityError unit :=
  let now := nowMs / 1000 in
  if Z.ltb maxAge (now - ts qrData) then Err QRCodeExpired
  else
    let expectedChecksum :=
      calculateChecksum (e qrData) (t qrData) fullAssetPubkey (ts qrData) in
    if negb (String.eqb (c qrData) expectedChecksum) then Err InvalidChecksum
    else if negb (startsWith fullAssetPubkey (a qrData)) then Err AssetPubkeyMismatch
    else Ok tt.

End WithPlatform.
End Qr.

(** ** The store: prisma/migrations/.../migration.sql *)

Module Db.

(** [CREATE TYPE "TicketStatus"] and [CREATE TYPE "VerificationStatus"] *)
Inductive TicketStatus : Type := ACTIVE | USED | CANCELLED | REFUNDED.
Inductive VerificationStatus : Type := PENDING | VERIFIED | REJECTED.

#[global] Instance TicketStatus_eq_dec : EqDecision TicketStatus.
Proof. solve_decision. Defined.
#[global] Instance VerificationStatus_eq_dec : EqDecision VerificationStatus.
Proof. solve_decision. Defined.

(** A row of ["Ticket"]; its primary key ["ticketId"] is the key of the
    table. *)
Record Ticket : Type := {
  eventId : string;
  holderPubkey : string;
  mintPubkey : option string;
  purchasePrice : Z;
  seatNumber : option string;
  tier : option string;
  status : TicketStatus;
  purchasedAt : Z;
  usedAt : option Z;
  metadataUri : option string;
}.

(** A row of ["GateVerification"]; its primary key ["verificationId"] is
    the key of the table. [meta] is the JSON object the two gate endpoints
    store in the row and the verify endpoint reads back; the initial
    migration does not have the column yet (it has ["notes"], which no
    endpoint touches), so the row follows the handlers. *)
Record GateVerification : Type := {
  gv_eventId : string;
  gv_ticketId : string;
  verifierPubkey : string;
  gv_status : VerificationStatus;
  verifiedAt : option Z;
  location : option string;
  meta : list (string * json);
  createdAt : Z;
}.

(** The store: the ids of ["Event"], and the two tables by primary key. *)
Record DB : Type := {
  events : gset string;
  tickets : gmap string Ticket;
  gateVerifications : gmap string GateVerification;
}.

Definition with_tickets (db : DB) (m : gmap string Ticket) : DB :=
  {| events := events db; tickets := m; gateVerifications := gateVerifications db |}.

Definition with_gateVerifications (db : DB) (m : gmap string GateVerification) : DB :=
  {| events := events db; tickets := tickets db; gateVerifications := m |}.

(** [prisma.ticket.findUnique({ where: { ticketId } })] *)
Definition ticket_findUnique (ticketId : string) (db : DB) : option Ticket :=
  tickets db !! ticketId.

(** [prisma.ticket.findFirst({ where })]: the first row that satisfies
    [where], in the order of the table. *)
Definition ticket_findFirst (where_ : Ticket → bool) (db : DB) : option (string * Ticket) :=
  head (List.filter (fun row => where_ row.2) (map_to_list (tickets db))).

(** [prisma.ticket.updateMany({ where: { ticketId, status }, data })]: one
    conditional write; the result is the store and the number of rows
    written. *)
Definition ticket_updateMany
    (ticketId : string) (expected : TicketStatus) (data : Ticket → Ticket) (db : DB) : DB * Z :=
  match tickets db !! ticketId with
  | Some row =>
      if decide (status row = expected)
      then (with_tickets db (<[ticketId := data row]> (tickets db)), 1)
      else (db, 0)
  | None => (db, 0)
  end.

Definition markUsed (now : Z) (row : Ticket) : Ticket :=
  {| eventId := eventId row; holderPubkey := holderPubkey row;
     mintPubkey := mintPubkey row; purchasePrice := purchasePrice row;
     seatNumber := seatNumber row; tier := tier row;
     status := USED; purchasedAt := purchasedAt row;
     usedAt := Some now; metadataUri := metadataUri row |}.

(** [prisma.gateVerification.findUnique({ where: { verificationId } })] *)
Definition gateVerification_findUnique (verificationId : string) (db : DB) : option GateVerification :=
  gateVerifications db !! verificationId.

(** [prisma.gateVerification.update({ where: { verificationId }, data })]
    on a row that exists. *)
Definition gateVerification_update
    (verificationId : string) (row : GateVerification) (db : DB) : DB :=
  with_gateVerifications db (<[verificationId := row]> (gateVerifications db)).

(** [prisma.gateVerification.create({ data })]: the store generates the
    primary key; the write is refused ([None]) when a foreign key of
    ["GateVerification"] has no target. *)
Definition gateVerification_create (row : GateVerification) (db : DB) : option (string * DB) :=
  if decide (gv_eventId row ∈ events db ∧ is_Some (tickets db !! gv_ticketId row)) then
    let verificationId := fresh (dom (gateVerifications db)) in
    Some (verificationId,
          with_gateVerifications db (<[verificationId := row]> (gateVerifications db)))
  else None.

(** *** Transactions: state and errors *)

Definition Tx (E A : Type) : Type := DB → result E A * DB.

Definition tx_ret {E A : Type} (x : A) : Tx E A := fun db => (Ok x, db).

Definition tx_bind {E A B : Type} (m : Tx E A) (k : A → Tx E B) : Tx E B :=
  fun db =>
    match m db with
    | (Ok x, db') => k x db'
    | (Err err, db') => (Err err, db')
    end.

Definition throw {E A : Type} (err : E) : Tx E A := fun db => (Err err, db).

Definition read {E A : Type} (query : DB → A) : Tx E A := fun db => (Ok (query db), db).

Definition write {E A : Type} (command : DB → DB * A) : Tx E A :=
  fun db => let '(db', x) := command db in (Ok x, db').

(** [prisma.$transaction(body)]: the writes of [body] are kept when it
    returns and dropped when it throws. *)
Definition transaction {E A : Type} (body : Tx E A) : Tx E A :=
  fun db =>
    match body db with
    | (Ok x, db') => (Ok x, db')
    | (Err err, _) => (Err err, db)
    end.

End Db.
Export Db.

Notation "'let*' x ':=' m 'in' k" := (tx_bind m (fun x => k))
  (at level 10, x binder, m at level 100, k at level 200).

(** [!!s] for an optional string *)
Definition given (s : option string) : bool :=
  match s with
  | Some s' => negb (String.eqb s' "")
  | None => false
  end.

(** [{ ...o, k: x }] *)
Fixpoint obj_set (k : string) (x : json) (o : list (string * json)) : list (string * json) :=
  match o with
  | [] => [(k, x)]
  | (k', y) :: rest => if String.eqb k k' then (k, x) :: rest else (k', y) :: obj_set k x rest
  end.

Definition json_of_option (s : option string) : json :=
  match s with Some s' => JStr s' | None => JNull end.

(** ** The verify endpoint: app/api/gate/verify/route.ts *)

Module Verify.
Section WithPlatform.
Context `{Platform}.

(** The request body, as the handler types it. *)
Record Body : Type := {
  ticketId : option string;
  verificationId : option string;
  staffId : option string;
  gateId : option string;
}.

(** What the transaction throws. *)
Inductive TxError : Type :=
| tx_verification_record_not_found
| tx_could_not_resolve_ticket_id
| tx_already_redeemed_or_invalid
| tx_verification_ticket_mismatch
| tx_storage_error.       (* thrown by the store itself *)

Record TxResult : Type := {
  res_ticketId : string;
  res_verificationId : string;
  createdOrUpdated : string;
}.

(** The [data] of [gateVerification.update]: step 3. *)
Definition updated_row (now : Z) (b : Body) (existing : GateVerification) : GateVerification :=
  {| gv_eventId := gv_eventId existing;
     gv_ticketId := gv_ticketId existing;
     verifierPubkey := default (verifierPubkey existing) (staffId b);
     gv_status := VERIFIED;
     verifiedAt := Some now;
     location := match gateId b with
                 | Some g => Some g
                 | None => location existing
                 end;
     meta := obj_set "staffId" (json_of_option (staffId b))
               (obj_set "gateId" (json_of_option (gateId b))
                  (obj_set "serverVerifiedAt" (JStr (Date_toISOString now))
                     (meta existing)));
     createdAt := createdAt existing |}.

(** The [data] of [gateVerification.create]: step 4. *)
Definition created_row (now : Z) (b : Body) (eventId resolvedTicketId : string) : GateVerification :=
  {| gv_eventId := eventId;
     gv_ticketId := resolvedTicketId;
     verifierPubkey := default "unknown-staff" (staffId b);
     gv_status := VERIFIED;
     verifiedAt := Some now;
     location := gateId b;
     meta := [("serverVerifiedAt", JStr (Date_toISOString now));
              ("gateId", json_of_option (gateId b));
              ("staffId", json_of_option (staffId b))];
     createdAt := now |}.

(** The callback of [prisma.$transaction]. *)
Definition body_of_transaction (now : Z) (b : Body) : Tx TxError TxResult :=
  let resolvedTicketId := ticketId b in
  let* resolvedTicketId :=
    (if negb (given resolvedTicketId) && given (verificationId b) then
       let* existing := read (gateVerification_findUnique (default "" (verificationId b))) in
       match existing with
       | None => throw tx_verification_record_not_found
       | Some existing => tx_ret (Some (gv_ticketId existing))
       end
     else tx_ret resolvedTicketId) in
  if negb (given resolvedTicketId) then throw tx_could_not_resolve_ticket_id
  else
    let resolvedTicketId := default "" resolvedTicketId in
    (* 1) mark the ticket USED if it is ACTIVE *)
    let* count := write (ticket_updateMany resolvedTicketId ACTIVE (markUsed now)) in
    if Z.eqb count 0 then throw tx_already_redeemed_or_invalid
    else
      (* 2) the event of the ticket *)
      let* ticketRow := read (ticket_findUnique resolvedTicketId) in
      let eventId := eventId <$> ticketRow in
      (* 3) update the row of verificationId, or 4) create one *)
      if given (verificationId b) then
        let verificationId := default "" (verificationId b) in
        let* existing := read (gateVerification_findUnique verificationId) in
        match existing with
        | None => throw tx_verification_record_not_found
        | Some existing =>
            if negb (String.eqb (gv_ticketId existing) resolvedTicketId)
            then throw tx_verification_ticket_mismatch
            else
              let* _ := write (fun db =>
                (gateVerification_update verificationId (updated_row now b existing) db, tt)) in
              tx_ret {| res_ticketId := resolvedTicketId;
                        res_verificationId := verificationId;
                        createdOrUpdated := "updated" |}
        end
      else
        match eventId with
        | None => throw tx_storage_error
        | Some eventId =>
            fun db =>
              match gateVerification_create
                      (created_row now b eventId resolvedTicketId) db with
              | None => (Err tx_storage_error, db)
              | Some (verificationId, db') =>
                  (Ok {| res_ticketId := resolvedTicketId;
                         res_verificationId := verificationId;
                         createdOrUpdated := "created" |}, db')
              end
        end.

(** The responses of the handler: the [error] of a failure, or the ids of
    a success (['verified_and_used']). *)
Inductive ErrorCode : Type :=
| invalid_json
| missing_ticket_or_verification_id
| already_redeemed_or_invalid
| verification_record_not_found
| verification_ticket_mismatch
| could_not_resolve_ticket_id
| server_error.

Inductive Response : Type :=
| verified_and_used (ticketId verificationId : string)
| failed (error : ErrorCode).

Definition http_status (r : Response) : Z :=
  match r with
  | verified_and_used _ _ => 200
  | failed already_redeemed_or_invalid => 409
  | failed server_error => 500
  | failed _ => 400
  end.

Definition error_of (err : TxError) : ErrorCode :=
  match err with
  | tx_already_redeemed_or_invalid => already_redeemed_or_invalid
  | tx_verification_record_not_found => verification_record_not_found
  | tx_verification_ticket_mismatch => verification_ticket_mismatch
  | tx_could_not_resolve_ticket_id => could_not_resolve_ticket_id
  | tx_storage_error => server_error
  end.

(** [body] is [None] when the request does not carry JSON. *)
Definition POST (now : Z) (body : option Body) (db : DB) : Response * DB :=
  match body with
  | None => (failed invalid_json, db)
  | Some b =>
      if negb (given (ticketId b)) && negb (given (verificationId b))
      then (failed missing_ticket_or_verification_id, db)
      else
        match transaction (body_of_transaction now b) db with
        | (Ok result, db') =>
            (verified_and_used (res_ticketId result) (res_verificationId result), db')
        | (Err txErr, db') => (failed (error_of txErr), db')
        end
  end.

End WithPlatform.
End Verify.

(** ** The scan endpoint: app/api/gate/scan/route.ts *)

Module Scan.
Section WithPlatform.
Context `{Platform}.

(** [Number(process.env.GATE_JWT_EXP ?? 120)], read once when the module
    loads. *)
Variable DEFAULT_EXPIRES : Z.

(** [while (b64.length % 4) b64 += '='], which runs at most three times. *)
Fixpoint pad (rounds : nat) (b64 : string) : string :=
  match rounds with
  | O => b64
  | S rounds' =>
      if (String.length b64 mod 4 =? 0)%nat then b64 else pad rounds' (b64 +:+ "=")
  end.

Definition base64UrlToUtf8Node (input : string) : string :=
  let b64 := replace_all_char "_" "/" (replace_all_char "-" "+" input) in
  let b64 := pad 3 b64 in
  Buffer_base64_utf8 b64.

(** The arguments are the values the handler passes, whatever their
    types at run time; a ticket number may be [NaN]. *)
Definition calculateChecksumServer
    (eventId : json) (ticketNumber : option number) (assetPubkey : string) (timestamp : json)
    : string :=
  let checksumData :=
    ToString eventId +:+ ":" +:+ NumberOrNaN_toString ticketNumber +:+ ":" +:+ assetPubkey
             +:+ ":" +:+ ToString timestamp in
  slice 0 4 (sha256_hex checksumData).

Record Body : Type := {
  qrString : option string;
  staffId : option string;
  gateId : option string;
}.

Inductive ErrorCode : Type :=
| invalid_json
| missing_qrString
| invalid_qr_format
| qr_missing_fields
| unsupported_qr_version
| qr_expired
| ticket_not_found
| qr_tampered
| mint_mismatch
| ticket_not_active (status : TicketStatus)
| server_error.

Inductive Response : Type :=
| scan_ok (ticketId : string) (eventId : json) (verificationId : option string)
          (expiresInSeconds : Z)
| failed (error : ErrorCode).

Definition http_status (r : Response) : Z :=
  match r with
  | scan_ok _ _ _ _ => 200
  | failed ticket_not_found => 404
  | failed (ticket_not_active _) => 409
  | failed server_error => 500
  | failed _ => 400
  end.

(** The text that is parsed as JSON: lines 32-52 of the handler. *)
Definition decodedText (raw : string) : string :=
  if startsWith raw "parchi:" then
    base64UrlToUtf8Node (slice_from (String.length "parchi:") raw)
  else default raw (decodeURIComponent raw).

(** The fields read from the decoded payload: lines 61-66. *)
Definition ticketIdFromQr (qrPayload : json) : option json :=
  nullish (prop qrPayload "t") (nullish (prop qrPayload "ticketId") (Some JNull)).

Definition mintPubkeyRaw (qrPayload : json) : option json :=
  nullish (prop qrPayload "m")
    (nullish (prop qrPayload "mint")
       (nullish (prop qrPayload "mintPubkey")
          (nullish (prop qrPayload "a") (Some JNull)))).

Definition eventIdFromQr (qrPayload : json) : option json :=
  nullish (prop qrPayload "e") (nullish (prop qrPayload "eventId") (Some JNull)).

Definition tsFromQr (qrPayload : json) : option json :=
  nullish (prop qrPayload "ts") (Some JNull).

Definition checksumFromQr (qrPayload : json) : option json :=
  nullish (prop qrPayload "c") (Some JNull).

Definition versionFromQr (qrPayload : json) : option json :=
  nullish (prop qrPayload "v") (Some JNull).

(** The ticket of the payload: lines 84-104. *)
Definition lookup (qrPayload : json) (db : DB) : option (string * Ticket) :=
  let ticket :=
    if truthy (ticketIdFromQr qrPayload) then
      match as_string (ticketIdFromQr qrPayload) with
      | Some ticketId => (fun row => (ticketId, row)) <$> ticket_findUnique ticketId db
      | None => None
      end
    else None in
  match ticket with
  | Some _ => ticket
  | None =>
      if truthy (mintPubkeyRaw qrPayload) then
        match as_string (mintPubkeyRaw qrPayload) with
        | Some raw =>
            let mp := trim raw in
            if (String.length mp <=? 16)%nat then
              ticket_findFirst
                (fun row => match mintPubkey row with
                            | Some pk => startsWith pk mp
                            | None => false
                            end) db
            else
              ticket_findFirst
                (fun row => match mintPubkey row with
                            | Some pk => String.eqb pk mp
                            | None => false
                            end) db
        | None => None
        end
      else None
  end.

(** The checksum stage runs under this guard: line 111. *)
Definition checksum_checked (qrPayload : json) (ticket : Ticket) : bool :=
  truthy (checksumFromQr qrPayload) && truthy (tsFromQr qrPayload)
  && given (mintPubkey ticket).

(** [checksumFromQr !== expectedChecksum]: lines 113-126. *)
Definition tampered (qrPayload : json) (ticket : Ticket) : bool :=
  let fullAssetPubkey := default "" (mintPubkey ticket) in
  let ticketNumberForChecksum :=
    match as_number (prop qrPayload "t") with
    | Some n => Some n
    | None => ToNumber (default JNull (nullish (prop qrPayload "t") (Some (JNum 0))))
    end in
  let expectedChecksum :=
    calculateChecksumServer
      (default JNull (nullish (eventIdFromQr qrPayload) (Some (JStr (eventId ticket)))))
      ticketNumberForChecksum
      fullAssetPubkey
      (default JNull (tsFromQr qrPayload)) in
  match checksumFromQr qrPayload with
  | Some (JStr c) => negb (String.eqb c expectedChecksum)
  | _ => true
  end.

(** The mint of the payload against the mint of the ticket:
    lines 134-159. *)
Definition mint_mismatched (qrPayload : json) (ticket : Ticket) : bool :=
  if truthy (prop qrPayload "m") && given (mintPubkey ticket) then
    let qrMint := trim (ToString (default JNull (prop qrPayload "m"))) in
    let dbMint := trim (default "" (mintPubkey ticket)) in
    let qrLower := toLowerCase qrMint in
    let dbLower := toLowerCase dbMint in
    let fullEq := String.eqb qrLower dbLower in
    let isShortPrefix := (String.length qrMint <=? 16)%nat in
    let prefixMatch := isShortPrefix && startsWith dbLower qrLower in
    negb fullEq && negb prefixMatch
  else false.

(** The PENDING row written at scan time: lines 165-188. The write is
    refused when the event id of the payload is not a string, or by the
    store; the handler then goes on without a row. *)
Definition record_scan (now : Z) (b : Body) (qrPayload : json)
    (ticketId : string) (ticket : Ticket) (db : DB) : option string * DB :=
  match nullish (eventIdFromQr qrPayload) (Some (JStr (eventId ticket))) with
  | Some (JStr eventId) =>
      let gv :=
        {| gv_eventId := eventId;
           gv_ticketId := ticketId;
           verifierPubkey := default "unknown-staff" (staffId b);
           gv_status := PENDING;
           verifiedAt := None;
           location := gateId b;
           meta := [("expiresInSeconds", JNum DEFAULT_EXPIRES);
                    ("issuedAt", JStr (Date_toISOString now));
                    ("gateId", json_of_option (gateId b));
                    ("staffId", json_of_option (staffId b));
                    ("rawQrPayload", qrPayload)];
           createdAt := now |} in
      match gateVerification_create gv db with
      | Some (verificationId, db') => (Some verificationId, db')
      | None => (None, db)
      end
  | _ => (None, db)
  end.

(** [nowMs] is the clock; [body] is [None] when the request does not
    carry JSON. *)
Definition POST (nowMs : Z) (body : option Body) (db : DB) : Response * DB :=
  match body with
  | None => (failed invalid_json, db)
  | Some b =>
      if negb (given (qrString b)) then (failed missing_qrString, db)
      else
        let raw := default "" (qrString b) in
        match JSON_parse (decodedText raw) with
        | None => (failed invalid_qr_format, db)
        | Some qrPayload =>
            if negb (truthy (ticketIdFromQr qrPayload))
               && negb (truthy (mintPubkeyRaw qrPayload))
            then (failed qr_missing_fields, db)
            else if truthy (versionFromQr qrPayload)
                    && negb (is_one (versionFromQr qrPayload))
            then (failed unsupported_qr_version, db)
            else if match as_number (tsFromQr qrPayload) with
                    | Some ts => number_ltb Qr.maxAge (number_sub (nowMs / 1000) ts)
                    | None => false
                    end
            then (failed qr_expired, db)
            else
              match lookup qrPayload db with
              | None => (failed ticket_not_found, db)
              | Some (ticketId, ticket) =>
                  if checksum_checked qrPayload ticket && tampered qrPayload ticket
                  then (failed qr_tampered, db)
                  else if mint_mismatched qrPayload ticket
                  then (failed mint_mismatch, db)
                  else if negb (bool_decide (status ticket = ACTIVE))
                  then (failed (ticket_not_active (status ticket)), db)
                  else
                    let '(verificationRecordId, db') :=
                      record_scan nowMs b qrPayload ticketId ticket db in
                    (scan_ok ticketId
                       (default JNull
                          (nullish (eventIdFromQr qrPayload) (Some (JStr (eventId ticket)))))
                       verificationRecordId DEFAULT_EXPIRES, db')
              end
        end
  end.

End WithPlatform.
End Scan.

(** ** The directory lookup: app/api/tickets/by-qr/route.ts *)

Module ByQr.

Inductive Response : Type :=
| found (ticketId : string) (ticket : Ticket)      (* 200: the row of the ticket *)
| missing_required_fields                          (* 400 *)
| not_found                                        (* 404 *)
| internal_server_error.                           (* 500 *)

(** [where: { eventId: event_id, mintPubkey: { startsWith: asset_prefix } }] *)
Definition where_ (event_id asset_prefix : string) (row : Ticket) : bool :=
  String.eqb (eventId row) event_id
  && match mintPubkey row with
     | Some pk => startsWith pk asset_prefix
     | None => false
     end.

(** [body] is the JSON of the request, [None] when there is none. A body
    that is [null] cannot be destructured, and a field that is not a string
    is refused by the store: both end in the handler's [catch]. *)
Definition POST (body : option json) (db : DB) : Response :=
  match body with
  | None | Some JNull => internal_server_error
  | Some b =>
      let event_id := prop b "event_id" in
      let ticket_number := prop b "ticket_number" in
      let asset_prefix := prop b "asset_prefix" in
      if negb (truthy event_id) || negb (truthy ticket_number) || negb (truthy asset_prefix)
      then missing_required_fields
      else
        match as_string event_id, as_string asset_prefix with
        | Some event_id, Some asset_prefix =>
            match ticket_findFirst (where_ event_id asset_prefix) db with
            | None => not_found
            | Some (ticketId, ticket) => found ticketId ticket
            end
        | _, _ => internal_server_error
        end
  end.

End ByQr.

(** ** Event ids: [createEventId] of lib/qr/qrGenerator.ts *)

Module EventId.
Section WithPlatform.
Context `{Platform}.

(** [timestamp] is in milliseconds; the callers pass [Date.now()]. *)
Definition createEventId (organizerPubkey eventName : string) (timestamp : Z) : string :=
  let data :=
    organizerPubkey +:+ ":" +:+ eventName +:+ ":" +:+ Number_toString (timestamp / 1000) in
  let hash := sha256_hex data in
  "evt_" +:+ slice 0 16 hash.

End WithPlatform.
End EventId.

(** ** The status endpoint: app/api/tickets/[id]/update-status/route.ts *)

Module UpdateStatus.

(** [s.includes(pat)] *)
Fixpoint includes (s pat : string) : bool :=
  String.prefix pat s
  || match s with
     | EmptyString => false
     | String _ s' => includes s' pat
     end.

(** What [prisma.ticket.update] throws: there is no row with the id, or
    the [status] of [data] is not a value of ["TicketStatus"]. *)
Inductive StoreError : Type :=
| RecordNotFound
| InvalidStatus (status : json).

(** The values of ["TicketStatus"], as the client of the store writes them. *)
Definition status_of_json (x : json) : option TicketStatus :=
  match x with
  | JStr s =>
      if String.eqb s "ACTIVE" then Some ACTIVE
      else if String.eqb s "USED" then Some USED
      else if String.eqb s "CANCELLED" then Some CANCELLED
      else if String.eqb s "REFUNDED" then Some REFUNDED
      else None
  | _ => None
  end.

Definition with_status (s : TicketStatus) (row : Ticket) : Ticket :=
  {| eventId := eventId row; holderPubkey := holderPubkey row;
     mintPubkey := mintPubkey row; purchasePrice := purchasePrice row;
     seatNumber := seatNumber row; tier := tier row;
     status := s; purchasedAt := purchasedAt row;
     usedAt := usedAt row; metadataUri := metadataUri row |}.

(** [prisma.ticket.update({ where: { ticketId }, data: { status } })]: the
    arguments are validated before the row is looked for. *)
Definition ticket_update (ticketId : string) (status : json) (db : DB)
    : result StoreError (Ticket * DB) :=
  match status_of_json status with
  | None => Err (InvalidStatus status)
  | Some s =>
      match tickets db !! ticketId with
      | None => Err RecordNotFound
      | Some row =>
          Ok (with_status s row,
              with_tickets db (<[ticketId := with_status s row]> (tickets db)))
      end
  end.

Inductive Response : Type :=
| updated (ticket : Ticket)         (* 200: the row, as it now is *)
| ticket_not_found                  (* 404 *)
| failed_to_update.                 (* 500 *)

Section WithMessages.

(** The message of the error the store throws. *)
Variable message : StoreError → string.

(** The [catch] of the handler. *)
Definition error_response (err : StoreError) : Response :=
  if includes (message err) "Record to update not found" then ticket_not_found
  else failed_to_update.

(** [id] is the parameter of the route; [body] is the JSON of the
    request, [None] when there is none. A body that is [null] cannot be
    destructured; the error has a message of the runtime, which does not
    speak of records. *)
Definition PATCH (id : string) (body : option json) (db : DB) : Response * DB :=
  match body with
  | None | Some JNull => (failed_to_update, db)
  | Some b =>
      let status := default (JStr "ACTIVE") (prop b "status") in
      match ticket_update id status db with
      | Ok (updatedTicket, db') => (updated updatedTicket, db')
      | Err err => (error_response err, db)
      end
  end.

End WithMessages.
End UpdateStatus.

(** ** Collection and ticket codes: lib/qr/qrService.ts *)

Module QrService.
Section WithPlatform.
Context `{Platform}.

(** [QRCode.toDataURL(text, { width, errorCorrectionLevel, ... })] of the
    [qrcode] package: the image of a text, [None] when it throws. *)
Variable QRCode_toDataURL : string → Z → string → option string.

(** [interface QRCodeResult] *)
Record QRCodeResult : Type := {
  dataUrl : string;
  data : json;
}.

(** The [qrData] of [generateCollectionQR] and of [generateTicketQR], keys
    in the order of the object literal. *)
Definition collectionData (nowMs : Z) (collectionPubkey eventId organizerPubkey : string) : json :=
  JObj [("type", JStr "collection"); ("collectionPubkey", JStr collectionPubkey);
        ("eventId", JStr eventId); ("organizerPubkey", JStr organizerPubkey);
        ("timestamp", JNum nowMs)].

Definition ticketData (nowMs : Z) (ticketId eventId organizerPubkey collectionPubkey : string)
    : json :=
  JObj [("type", JStr "ticket"); ("ticketId", JStr ticketId); ("eventId", JStr eventId);
        ("organizerPubkey", JStr organizerPubkey); ("collectionPubkey", JStr collectionPubkey);
        ("timestamp", JNum nowMs)].

(** The failure is the message of the error thrown. *)
Definition generateCollectionQR (nowMs : Z) (collectionPubkey eventId organizerPubkey : string)
    : result string QRCodeResult :=
  let qrData := collectionData nowMs collectionPubkey eventId organizerPubkey in
  match QRCode_toDataURL (JSON_stringify qrData) 300 "M" with
  | Some qrCodeDataURL => Ok {| dataUrl := qrCodeDataURL; data := qrData |}
  | None => Err "Failed to generate collection QR code"
  end.

Definition generateTicketQR (nowMs : Z) (ticketId eventId organizerPubkey collectionPubkey : string)
    : result string QRCodeResult :=
  let qrData := ticketData nowMs ticketId eventId organizerPubkey collectionPubkey in
  match QRCode_toDataURL (JSON_stringify qrData) 400 "H" with
  | Some qrCodeDataURL => Ok {| dataUrl := qrCodeDataURL; data := qrData |}
  | None => Err "Failed to generate ticket QR code"
  end.

(** [x === s] for a string [s] *)
Definition is_string (x : option json) (s : string) : bool :=
  match x with Some (JStr s') => String.eqb s' s | _ => false end.

Definition maxAge : Z := 24 * 60 * 60 * 1000.

(** [Date.now() - x > maxAge], where [x] is made a number first and the
    comparison is false for [NaN]. *)
Definition too_old (nowMs : Z) (x : option json) : bool :=
  match x ≫= ToNumber with
  | Some timestamp => number_ltb maxAge (number_sub nowMs timestamp)
  | None => false
  end.

(** [None] is [null]; every error ends in the [catch], which returns
    [null]. *)
Definition validateQRData (nowMs : Z) (qrString : string) : option json :=
  match JSON_parse qrString with
  | None | Some JNull => None
  | Some data =>
      if negb (truthy (prop data "type")) || negb (truthy (prop data "eventId"))
         || negb (truthy (prop data "organizerPubkey")) || negb (truthy (prop data "timestamp"))
      then None
      else if is_string (prop data "type") "collection"
              && negb (truthy (prop data "collectionPubkey"))
      then None
      else if is_string (prop data "type") "ticket"
              && (negb (truthy (prop data "ticketId"))
                  || negb (truthy (prop data "collectionPubkey")))
      then None
      else if too_old nowMs (prop data "timestamp") then None
      else Some data
  end.

End WithPlatform.
End QrService.

(** ** The gate page: app/gate/ScanPage.tsx *)

Module ScanPage.
Section WithPlatform.
Context `{Platform}.

(** [new TextDecoder('utf-8').decode(bytes)] of the bytes [atob(b64)]
    yields; [None] when [atob] throws. *)
Variable atob_utf8 : string → option string.

(** [process.env.GATE_JWT_EXP], which the scan endpoint reads. *)
Variable DEFAULT_EXPIRES : Z.

Definition STAFF_ID : string := "staff-1".
Definition GATE_ID : string := "gate-1".

(** The loop is the one of the scan endpoint. *)
Definition base64UrlToUtf8 (base64url : string) : option string :=
  let b64 := replace_all_char "_" "/" (replace_all_char "-" "+" base64url) in
  let b64 := Scan.pad 3 b64 in
  atob_utf8 b64.

(** The object [mapped] of [normalizeQrStringForServer]. *)
Definition mapped (obj : json) : json :=
  JObj [("m", default JNull
                (nullish (prop obj "a")
                   (nullish (prop obj "m") (nullish (prop obj "mintPubkey") (Some JNull)))));
        ("e", default JNull (nullish (prop obj "e") (nullish (prop obj "eventId") (Some JNull))));
        ("t", default JNull (nullish (prop obj "t") (nullish (prop obj "ticketId") (Some JNull))));
        ("ts", default JNull (nullish (prop obj "ts") (Some JNull)));
        ("c", default JNull (nullish (prop obj "c") (Some JNull)))].

(** A text that cannot be decoded, or that decodes to [null], is passed
    on as it is. *)
Definition normalizeQrStringForServer (raw : string) : string :=
  let s := trim raw in
  if startsWith s "parchi:" then
    let payload := slice_from (String.length "parchi:") s in
    match base64UrlToUtf8 payload ≫= JSON_parse with
    | None | Some JNull => s
    | Some obj => JSON_stringify (mapped obj)
    end
  else s.

(** What the page shows at the end of [handleScan]. *)
Inductive Outcome : Type :=
| ignored                                       (* nothing is sent *)
| entry_granted (ticketId : string)             (* 'Entry granted', status 'success' *)
| scan_rejected (error : Scan.ErrorCode)        (* the [error] of the scan endpoint *)
| no_ids_returned                               (* 'No verification ID or ticket ID returned from scan' *)
| verify_rejected (error : Verify.ErrorCode).   (* the [error] of the verify endpoint *)

(** [handleScan]: [lastScan] is the state of the page, [scanMs] and
    [verifyMs] are the clocks of the two endpoints when they are called.
    The result is the outcome, the new [lastScan] and the store. *)
Definition handleScan (lastScan : option string) (text : string) (scanMs verifyMs : Z) (db : DB)
    : Outcome * option string * DB :=
  let normalizedForServer := normalizeQrStringForServer text in
  if String.eqb normalizedForServer "" then (ignored, lastScan, db)
  else if bool_decide (lastScan = Some normalizedForServer) then (ignored, lastScan, db)
  else
    let lastScan' := Some normalizedForServer in
    let scanBody :=
      {| Scan.qrString := Some normalizedForServer; Scan.staffId := Some STAFF_ID;
         Scan.gateId := Some GATE_ID |} in
    match Scan.POST DEFAULT_EXPIRES scanMs (Some scanBody) db with
    | (Scan.failed err, db1) => (scan_rejected err, lastScan', db1)
    | (Scan.scan_ok tid _ vid _, db1) =>
        if negb (given vid) && negb (given (Some tid)) then (no_ids_returned, lastScan', db1)
        else
          let verifyBody :=
            {| Verify.ticketId := Some tid; Verify.verificationId := vid;
               Verify.staffId := Some STAFF_ID; Verify.gateId := Some GATE_ID |} in
          match Verify.POST verifyMs (Some verifyBody) db1 with
          | (Verify.verified_and_used ticketId _, db2) => (entry_granted ticketId, lastScan', db2)
          | (Verify.failed err, db2) => (verify_rejected err, lastScan', db2)
          end
    end.

End WithPlatform.
End ScanPage.

(** [k] times ['=']: what the decoders append to a text. *)
Definition equals_signs (k : nat) : string :=
  String.string_of_list_ascii (List.repeat "="%char k).

(** ** Vocabulary of the statements about the gate as a whole *)

Module Gate.
Section WithPlatform.
Context `{Platform}.
Variable DEFAULT_EXPIRES : Z.

(** A call of one of the two endpoints, with the clock it reads. *)
Inductive Call : Type :=
| scan (nowMs : Z) (body : option Scan.Body)
| verify (now : Z) (body : option Verify.Body).

Inductive Response : Type :=
| scanned (response : Scan.Response)
| verified (response : Verify.Response).

Definition call (c : Call) (db : DB) : Response * DB :=
  match c with
  | scan nowMs body =>
      let '(response, db') := Scan.POST DEFAULT_EXPIRES nowMs body db in (scanned response, db')
  | verify now body =>
      let '(response, db') := Verify.POST now body db in (verified response, db')
  end.

(** Calls in the order in which they commit. *)
Fixpoint run (calls : list Call) (db : DB) : list Response * DB :=
  match calls with
  | [] => ([], db)
  | c :: rest =>
      let '(response, db') := call c db in
      let '(responses, db'') := run rest db' in
      (response :: responses, db'')
  end.

(** The row a scan writes: the [data] of its [gateVerification.create]. *)
Definition pending_row (nowMs : Z) (b : Scan.Body) (qrPayload : json)
    (eventId ticketId : string) : GateVerification :=
  {| gv_eventId := eventId;
     gv_ticketId := ticketId;
     verifierPubkey := default "unknown-staff" (Scan.staffId b);
     gv_status := PENDING;
     verifiedAt := None;
     location := Scan.gateId b;
     meta := [("expiresInSeconds", JNum DEFAULT_EXPIRES);
              ("issuedAt", JStr (Date_toISOString nowMs));
              ("gateId", json_of_option (Scan.gateId b));
              ("staffId", json_of_option (Scan.staffId b));
              ("rawQrPayload", qrPayload)];
     createdAt := nowMs |}.

(** The response is a success about the ticket. *)
Definition accepts (ticketId : string) (response : Response) : bool :=
  match response with
  | scanned (Scan.scan_ok ticketId' _ _ _) => bool_decide (ticketId' = ticketId)
  | verified (Verify.verified_and_used ticketId' _) => bool_decide (ticketId' = ticketId)
  | _ => false
  end.

End WithPlatform.
End Gate.

(** ** The verifier of lib/services/verificationService.ts: its checks of time *)

Module Verifier.

(** [TicketVerifier.validateQRData]: the error is 'QR code expired', the
    message [validateQRIntegrity] has for it. *)
Definition validateQRData (nowMs : Z) (qrData : Qr.QRPayload) : result Qr.IntegrityError unit :=
  let now := nowMs / 1000 in
  let maxAge := 365 * 24 * 60 * 60 in
  if Z.ltb maxAge (now - Qr.ts qrData) then Err Qr.QRCodeExpired else Ok tt.

(** [SecurityValidator.validateQRFreshness(timestamp, maxAgeMinutes = 5)];
    [None] is the argument left out. *)
Definition validateQRFreshness (nowMs : Z) (timestamp : Z) (maxAgeMinutes : option Z) : bool :=
  let now := nowMs / 1000 in
  let maxAge := default 5 maxAgeMinutes * 60 in
  Z.ltb (now - timestamp) maxAge.

End Verifier.

(** The query of the scan endpoint for a mint [mp]: lines 92-104. *)
Definition mint_matches (mp : string) (row : Ticket) : bool :=
  match mintPubkey row with
  | Some pk => if (String.length mp <=? 16)%nat then startsWith pk mp else String.eqb pk mp
  | None => false
  end.

(** ** Vocabulary of the statements about the verify endpoint *)

Module VerifySpec.
Section WithPlatform.
Context `{Platform}.


(** The ticket a request is about: its [ticketId], or else the ticket of
    the record its [verificationId] names. *)
Definition resolved (b : Verify.Body) (db : DB) : option string :=
  if given (Verify.ticketId b) then Verify.ticketId b
  else gv_ticketId <$> (gateVerifications db !! default "" (Verify.verificationId b)).

(** The status of a ticket, [None] when there is no such ticket. *)
Definition status_of (ticketId : string) (db : DB) : option TicketStatus :=
  status <$> (tickets db !! ticketId).

(** Every USED ticket has a VERIFIED record, and every VERIFIED record is
    the record of a USED ticket. *)
Definition consistent (db : DB) : Prop :=
  (∀ ticketId row, tickets db !! ticketId = Some row → status row = USED →
     ∃ verificationId record,
       gateVerifications db !! verificationId = Some record
       ∧ gv_ticketId record = ticketId ∧ gv_status record = VERIFIED)
  ∧ (∀ verificationId record,
       gateVerifications db !! verificationId = Some record → gv_status record = VERIFIED →
       ∃ row, tickets db !! gv_ticketId record = Some row ∧ status row = USED).

(** The store after a successful call that updates the record
    [verificationId]. *)
Definition after_update (now : Z) (b : Verify.Body) (rid : string) (row : Ticket)
    (verificationId : string) (existing : GateVerification) (db : DB) : DB :=
  {| events := events db;
     tickets := <[rid := markUsed now row]> (tickets db);
     gateVerifications :=
       <[verificationId := Verify.updated_row now b existing]> (gateVerifications db) |}.

(** The store after a successful call that creates a record. *)
Definition after_create (now : Z) (b : Verify.Body) (rid : string) (row : Ticket) (db : DB) : DB :=
  {| events := events db;
     tickets := <[rid := markUsed now row]> (tickets db);
     gateVerifications :=
       <[fresh (dom (gateVerifications db)) := Verify.created_row now b (eventId row) rid]>
         (gateVerifications db) |}.

(** The call redeemed the ticket. *)
Definition redeemed (ticketId : string) (response : Verify.Response) : bool :=
  match response with
  | Verify.verified_and_used ticketId' _ => bool_decide (ticketId' = ticketId)
  | Verify.failed _ => false
  end.

(** The request targets the ticket: it carries an id, its [ticketId], when
    it has one, is the id of the ticket, and its [verificationId], when it
    has one, is the id of a record of the ticket. *)
Definition targets (ticketId : string) (db : DB) (b : Verify.Body) : Prop :=
  (given (Verify.ticketId b) = true ∨ given (Verify.verificationId b) = true)
  ∧ (given (Verify.ticketId b) = true → Verify.ticketId b = Some ticketId)
  ∧ (given (Verify.verificationId b) = true →
       ∃ record, gateVerifications db !! default "" (Verify.verificationId b) = Some record
                 ∧ gv_ticketId record = ticketId).

End WithPlatform.
End VerifySpec.

(** ** Verify calls that run at the same time

    The handler sends its statements one by one, with an [await] before
    each answer, so the statements of calls that run at the same time
    interleave. The store is PostgreSQL, for which the migration is
    written, at the isolation Prisma leaves it at, READ COMMITTED: a
    statement sees the rows as they were last committed, and the rows its
    own transaction has written; a row a transaction has written stays
    locked until the transaction ends, and an update of a row that is locked
    by another transaction waits; the writes of a transaction reach the
    others when it commits and are dropped when it throws. Timeouts are left
    out: a call that waits, waits until it can go on. *)

Module Concurrent.
Import Verify.

(** What is left to run of the callback of a transaction: it has
    returned, it has thrown, or it awaits the answer of a statement,
    [tx.gateVerification.findUnique], [tx.ticket.updateMany],
    [tx.ticket.findUnique], [tx.gateVerification.update] (on a row that
    exists), [tx.gateVerification.create] (the answer is the id of the row,
    [None] when the store refuses it) or [tx.ticket.update] (the answer
    tells whether there is such a row). *)
Inductive Program (A : Type) : Type :=
| Return (x : A)
| Throw (err : TxError)
| FindRecord (verificationId : string) (continue : option GateVerification → Program A)
| UpdateManyTickets (ticketId : string) (expected : TicketStatus) (data : Ticket → Ticket)
    (continue : Z → Program A)
| FindTicket (ticketId : string) (continue : option Ticket → Program A)
| UpdateRecord (verificationId : string) (row : GateVerification) (continue : unit → Program A)
| CreateRecord (row : GateVerification) (continue : option string → Program A)
| UpdateTicket (ticketId : string) (data : Ticket → Ticket) (continue : bool → Program A).
Arguments Return {A} x.
Arguments Throw {A} err.
Arguments FindRecord {A} verificationId continue.
Arguments UpdateManyTickets {A} ticketId expected data continue.
Arguments FindTicket {A} ticketId continue.
Arguments UpdateRecord {A} verificationId row continue.
Arguments CreateRecord {A} row continue.
Arguments UpdateTicket {A} ticketId data continue.

Fixpoint bind {A B : Type} (m : Program A) (k : A → Program B) : Program B :=
  match m with
  | Return x => k x
  | Throw err => Throw err
  | FindRecord verificationId continue =>
      FindRecord verificationId (fun x => bind (continue x) k)
  | UpdateManyTickets ticketId expected data continue =>
      UpdateManyTickets ticketId expected data (fun x => bind (continue x) k)
  | FindTicket ticketId continue => FindTicket ticketId (fun x => bind (continue x) k)
  | UpdateRecord verificationId row continue =>
      UpdateRecord verificationId row (fun x => bind (continue x) k)
  | CreateRecord row continue => CreateRecord row (fun x => bind (continue x) k)
  | UpdateTicket ticketId data continue =>
      UpdateTicket ticketId data (fun x => bind (continue x) k)
  end.

(** [await tx.gateVerification.findUnique(...)] and the like *)
Definition tx_gateVerification_findUnique (verificationId : string)
    : Program (option GateVerification) :=
  FindRecord verificationId Return.

Definition tx_ticket_updateMany (ticketId : string) (expected : TicketStatus)
    (data : Ticket → Ticket) : Program Z :=
  UpdateManyTickets ticketId expected data Return.

Definition tx_ticket_findUnique (ticketId : string) : Program (option Ticket) :=
  FindTicket ticketId Return.

Definition tx_gateVerification_update (verificationId : string) (row : GateVerification)
    : Program unit :=
  UpdateRecord verificationId row Return.

Definition tx_gateVerification_create (row : GateVerification) : Program (option string) :=
  CreateRecord row Return.

Definition tx_ticket_update (ticketId : string) (data : Ticket → Ticket) : Program bool :=
  UpdateTicket ticketId data Return.

Notation "'let+' x ':=' m 'in' k" := (bind m (fun x => k))
  (at level 10, x binder, m at level 100, k at level 200).

Section WithPlatform.
Context `{Platform}.

(** The callback of the handler, statement by statement: the text of
    [Verify.body_of_transaction], with each access to the store a
    statement. *)
Definition program (now : Z) (b : Body) : Program TxResult :=
  let resolvedTicketId := ticketId b in
  let+ resolvedTicketId :=
    (if negb (given resolvedTicketId) && given (verificationId b) then
       let+ existing := tx_gateVerification_findUnique (default "" (verificationId b)) in
       match existing with
       | None => Throw tx_verification_record_not_found
       | Some existing => Return (Some (gv_ticketId existing))
       end
     else Return resolvedTicketId) in
  if negb (given resolvedTicketId) then Throw tx_could_not_resolve_ticket_id
  else
    let resolvedTicketId := default "" resolvedTicketId in
    (* 1) mark the ticket USED if it is ACTIVE *)
    let+ count := tx_ticket_updateMany resolvedTicketId ACTIVE (markUsed now) in
    if Z.eqb count 0 then Throw tx_already_redeemed_or_invalid
    else
      (* 2) the event of the ticket *)
      let+ ticketRow := tx_ticket_findUnique resolvedTicketId in
      let eventId := eventId <$> ticketRow in
      (* 3) update the row of verificationId, or 4) create one *)
      if given (verificationId b) then
        let verificationId := default "" (verificationId b) in
        let+ existing := tx_gateVerification_findUnique verificationId in
        match existing with
        | None => Throw tx_verification_record_not_found
        | Some existing =>
            if negb (String.eqb (gv_ticketId existing) resolvedTicketId)
            then Throw tx_verification_ticket_mismatch
            else
              let+ _ :=
                tx_gateVerification_update verificationId (updated_row now b existing) in
              Return {| res_ticketId := resolvedTicketId;
                        res_verificationId := verificationId;
                        createdOrUpdated := "updated" |}
        end
      else
        match eventId with
        | None => Throw tx_storage_error
        | Some eventId =>
            let+ created :=
              tx_gateVerification_create (created_row now b eventId resolvedTicketId) in
            match created with
            | None => Throw tx_storage_error
            | Some verificationId =>
                Return {| res_ticketId := resolvedTicketId;
                          res_verificationId := verificationId;
                          createdOrUpdated := "created" |}
            end
        end.

(** A call: its transaction is in progress, or it has answered. *)
Inductive Call : Type :=
| running (rest : Program TxResult)
| finished (response : Response).

(** The store and the calls. [committed] is what every call sees. A row
    that a transaction in progress has written is in [pending], with the
    number of the call: that call sees it and holds its lock. *)
Record State : Type := {
  committed : DB;
  pending_tickets : gmap string (nat * Ticket);
  pending_records : gmap string (nat * GateVerification);
  calls : list Call;
}.

(** The rows call [i] has written *)
Definition own {A : Type} (i : nat) (pending : gmap string (nat * A)) : gmap string A :=
  omap (fun written => if decide (written.1 = i) then Some written.2 else None) pending.

(** The store as the statements of call [i] see it *)
Definition view (i : nat) (st : State) : DB :=
  {| events := events (committed st);
     tickets := own i (pending_tickets st) ∪ tickets (committed st);
     gateVerifications := own i (pending_records st) ∪ gateVerifications (committed st) |}.

(** The lock of the row is held by a call other than [i]. *)
Definition locked {A : Type} (i : nat) (key : string) (pending : gmap string (nat * A)) : bool :=
  match pending !! key with
  | Some written => negb (Nat.eqb written.1 i)
  | None => false
  end.

Definition write_ticket (i : nat) (ticketId : string) (row : Ticket) (st : State) : State :=
  {| committed := committed st;
     pending_tickets := <[ticketId := (i, row)]> (pending_tickets st);
     pending_records := pending_records st;
     calls := calls st |}.

Definition write_record (i : nat) (verificationId : string) (row : GateVerification)
    (st : State) : State :=
  {| committed := committed st;
     pending_tickets := pending_tickets st;
     pending_records := <[verificationId := (i, row)]> (pending_records st);
     calls := calls st |}.

(** The rows of the other calls: what is left when call [i] ends *)
Definition release {A : Type} (i : nat) (pending : gmap string (nat * A))
    : gmap string (nat * A) :=
  filter (fun written => written.2.1 ≠ i) pending.

(** The end of the transaction of call [i]: its writes are committed when
    the callback has returned, and dropped when it has thrown. *)
Definition commit (i : nat) (st : State) : State :=
  {| committed := view i st;
     pending_tickets := release i (pending_tickets st);
     pending_records := release i (pending_records st);
     calls := calls st |}.

Definition rollback (i : nat) (st : State) : State :=
  {| committed := committed st;
     pending_tickets := release i (pending_tickets st);
     pending_records := release i (pending_records st);
     calls := calls st |}.

Definition set_call (i : nat) (call : Call) (st : State) : State :=
  {| committed := committed st;
     pending_tickets := pending_tickets st;
     pending_records := pending_records st;
     calls := <[i := call]> (calls st) |}.

(** One step of call [i]: the statement it awaits, or the end of its
    transaction and its response; [None] when the call has to wait or has
    answered. A read answers from the view. [updateMany] is one statement:
    its row is the one that satisfies [where] in the view; it waits for the
    lock of that row, and it writes it. An id the store generates is new
    among the rows written so far, committed or not. *)
Definition step (i : nat) (st : State) : option State :=
  match calls st !! i with
  | Some (running rest) =>
      match rest with
      | Return result =>
          Some (set_call i
                  (finished
                     (verified_and_used (res_ticketId result) (res_verificationId result)))
                  (commit i st))
      | Throw err => Some (set_call i (finished (failed (error_of err))) (rollback i st))
      | FindRecord verificationId continue =>
          Some (set_call i
                  (running (continue (gateVerification_findUnique verificationId (view i st))))
                  st)
      | UpdateManyTickets ticketId expected data continue =>
          match tickets (view i st) !! ticketId with
          | Some row =>
              if decide (status row = expected) then
                if locked i ticketId (pending_tickets st) then None
                else Some (set_call i (running (continue 1))
                             (write_ticket i ticketId (data row) st))
              else Some (set_call i (running (continue 0)) st)
          | None => Some (set_call i (running (continue 0)) st)
          end
      | FindTicket ticketId continue =>
          Some (set_call i (running (continue (ticket_findUnique ticketId (view i st)))) st)
      | UpdateRecord verificationId row continue =>
          if locked i verificationId (pending_records st) then None
          else Some (set_call i (running (continue tt)) (write_record i verificationId row st))
      | CreateRecord row continue =>
          if decide (gv_eventId row ∈ events (view i st)
                     ∧ is_Some (tickets (view i st) !! gv_ticketId row)) then
            let verificationId :=
              fresh (dom (gateVerifications (committed st)) ∪ dom (pending_records st)) in
            Some (set_call i (running (continue (Some verificationId)))
                    (write_record i verificationId row st))
          else Some (set_call i (running (continue None)) st)
      | UpdateTicket ticketId data continue =>
          match tickets (view i st) !! ticketId with
          | Some row =>
              if locked i ticketId (pending_tickets st) then None
              else Some (set_call i (running (continue true))
                           (write_ticket i ticketId (data row) st))
          | None => Some (set_call i (running (continue false)) st)
          end
      end
  | _ => None
  end.

(** A call starts its transaction when it carries an id. *)
Definition begin (call : Z * Body) : Call :=
  if negb (given (ticketId call.2)) && negb (given (verificationId call.2))
  then finished (failed missing_ticket_or_verification_id)
  else running (program call.1 call.2).

Definition start (requests : list (Z * Body)) (db : DB) : State :=
  {| committed := db; pending_tickets := ∅; pending_records := ∅;
     calls := begin <$> requests |}.

(** Every row that waits for a commit was written by call [i]. *)
Definition owned {A : Type} (i : nat) (pending : gmap string (nat * A)) : Prop :=
  ∀ key j x, pending !! key = Some (j, x) → j = i.

(** The state of one call *)
Definition alone (db : DB) (wt : gmap string (nat * Ticket))
    (wr : gmap string (nat * GateVerification)) (call : Call) : State :=
  {| committed := db; pending_tickets := wt; pending_records := wr; calls := [call] |}.

(** A run: the calls move in the order of [schedule], one step each time;
    a call that cannot move when its turn comes is passed over. *)
Fixpoint exec (schedule : list nat) (st : State) : State :=
  match schedule with
  | [] => st
  | i :: more => exec more (default st (step i st))
  end.

Definition response_of (call : Call) : option Response :=
  match call with
  | finished response => Some response
  | running _ => None
  end.

(** Every call has answered. *)
Definition all_finished (st : State) : Prop :=
  Forall (fun call => is_Some (response_of call)) (calls st).

End WithPlatform.
End Concurrent.

(** ** The statements of a call, one after the other *)

Module Sequential.
Section WithPlatform.
Context `{Platform}.
Import Verify Concurrent.

(** The statements of a program, run one after the other against a store
    with nothing in between: each is the call of the client it stands
    for. *)
Fixpoint in_sequence {A : Type} (p : Program A) : Tx TxError A :=
  match p with
  | Return x => tx_ret x
  | Throw err => throw err
  | FindRecord verificationId continue =>
      let* existing := read (gateVerification_findUnique verificationId) in
      in_sequence (continue existing)
  | UpdateManyTickets ticketId expected data continue =>
      let* count := write (ticket_updateMany ticketId expected data) in
      in_sequence (continue count)
  | FindTicket ticketId continue =>
      let* row := read (ticket_findUnique ticketId) in in_sequence (continue row)
  | UpdateRecord verificationId row continue =>
      let* done := write (fun db => (gateVerification_update verificationId row db, tt)) in
      in_sequence (continue done)
  | CreateRecord row continue =>
      fun db =>
        match gateVerification_create row db with
        | Some (verificationId, db') => in_sequence (continue (Some verificationId)) db'
        | None => in_sequence (continue None) db
        end
  | UpdateTicket ticketId data continue =>
      fun db =>
        match tickets db !! ticketId with
        | Some row =>
            in_sequence (continue true)
              (with_tickets db (<[ticketId := data row]> (tickets db)))
        | None => in_sequence (continue false) db
        end
  end.

End WithPlatform.
End Sequential.

(** ** The transition as a read followed by a write

    The design section 4.2 of the specification rules out, for
    comparison: the row is read, and written when the read found it
    ACTIVE. *)

Module ReadThenWrite.
Section WithPlatform.
Context `{Platform}.
Import Verify Concurrent.

Definition program (now : Z) (ticketId : string) : Program TxResult :=
  let+ row := tx_ticket_findUnique ticketId in
  match row with
  | Some row =>
      if bool_decide (status row = ACTIVE) then
        let+ _ := tx_ticket_update ticketId (markUsed now) in
        Return {| res_ticketId := ticketId; res_verificationId := "";
                  createdOrUpdated := "" |}
      else Throw tx_already_redeemed_or_invalid
  | None => Throw tx_already_redeemed_or_invalid
  end.

End WithPlatform.
End ReadThenWrite.

(** ** Vocabulary of the statements about calls that run at the same time *)

Module ConcurrentSpec.
Section Protocol.
Context `{Platform}.
Import Verify Concurrent.

(** The ticket the calls are about, the store they start from, and the
    event of the ticket. *)
Variable tid : string.
Variable db : DB.
Variable event : string.

(** The id of a record of the ticket in the store the calls start from *)
Definition recorded (verificationId : string) : Prop :=
  ∃ record, gateVerifications db !! verificationId = Some record ∧ gv_ticketId record = tid.

(** Where a call is: it has not tried the transition yet, it has made it
    and holds the lock of the ticket, or it has found the ticket used. *)
Inductive Mode : Type := waiting | holding | refused.

(** What is left of the callback of a call about the ticket, when the
    reads answer with records and rows of the ticket: the transition is
    tried once; the call that made it goes on to write its record and
    returns, and the call that did not throws [already_redeemed_or_invalid].
    The number bounds the steps that are left, the end of the transaction
    included. *)
Inductive Will : Mode → nat → Program TxResult → Prop :=
| will_throw (n : nat) : Will refused (S n) (Throw tx_already_redeemed_or_invalid)
| will_return (n : nat) (result : TxResult) :
    res_ticketId result = tid → Will holding (S n) (Return result)
| will_find_record (m : Mode) (n : nat) (verificationId : string)
    (continue : option GateVerification → Program TxResult) :
    recorded verificationId →
    (∀ record, gv_ticketId record = tid → Will m n (continue (Some record))) →
    Will m (S n) (FindRecord verificationId continue)
| will_mark (n : nat) (data : Ticket → Ticket) (continue : Z → Program TxResult) :
    (∀ row, status (data row) = USED ∧ eventId (data row) = eventId row) →
    Will refused n (continue 0) → Will holding n (continue 1) →
    Will waiting (S n) (UpdateManyTickets tid ACTIVE data continue)
| will_find_ticket (n : nat) (continue : option Ticket → Program TxResult) :
    (∀ row, eventId row = event → Will holding n (continue (Some row))) →
    Will holding (S n) (FindTicket tid continue)
| will_update (n : nat) (verificationId : string) (row : GateVerification)
    (continue : unit → Program TxResult) :
    recorded verificationId → gv_ticketId row = tid → Will holding n (continue tt) →
    Will holding (S n) (UpdateRecord verificationId row continue)
| will_create (n : nat) (row : GateVerification)
    (continue : option string → Program TxResult) :
    gv_eventId row = event → gv_ticketId row = tid →
    (∀ verificationId, Will holding n (continue (Some verificationId))) →
    Will holding (S n) (CreateRecord row continue).

(** Call [j] holds the lock of the ticket. *)
Definition holder (j : nat) (st : State) : Prop :=
  ∃ row, pending_tickets st !! tid = Some (j, row).

(** What holds of every state of a run of calls that target the ticket.
    [bounds] has, for each call, a bound on the steps it has left. *)
Record Inv (bounds : list nat) (st : State) : Prop := {
  inv_events : events (committed st) = events db;
  inv_ticket :
    ∃ row, tickets (committed st) !! tid = Some row ∧ eventId row = event
           ∧ (status row = ACTIVE ∨ status row = USED);
  inv_records :
    ∀ verificationId, recorded verificationId →
      ∃ record, gateVerifications (committed st) !! verificationId = Some record
                ∧ gv_ticketId record = tid;
  inv_pending_tickets :
    ∀ key j row, pending_tickets st !! key = Some (j, row) →
      key = tid ∧ status row = USED ∧ eventId row = event
      ∧ VerifySpec.status_of tid (committed st) = Some ACTIVE
      ∧ ∃ rest, calls st !! j = Some (running rest);
  inv_pending_records :
    ∀ key j record, pending_records st !! key = Some (j, record) →
      gv_ticketId record = tid ∧ holder j st;
  inv_bounds : length bounds = length (calls st);
  inv_calls :
    ∀ j call n, calls st !! j = Some call → bounds !! j = Some n →
      match call with
      | finished response =>
          n = O
          ∧ (response = failed already_redeemed_or_invalid
             ∨ ∃ verificationId, response = verified_and_used tid verificationId)
      | running rest =>
          ∃ m, Will m n rest
               ∧ (m = holding ↔ holder j st)
               ∧ (m = refused → VerifySpec.status_of tid (committed st) = Some USED)
      end;
  inv_account :
    (VerifySpec.status_of tid (committed st) = Some ACTIVE
     ∧ ∀ j response, calls st !! j ≠ Some (finished response))
    ∨ (VerifySpec.status_of tid (committed st) = Some USED
       ∧ ∃ i verificationId,
           calls st !! i = Some (finished (verified_and_used tid verificationId))
           ∧ ∀ j response, j ≠ i → calls st !! j = Some (finished response) →
               response = failed already_redeemed_or_invalid);
}.

End Protocol.
End ConcurrentSpec.

(** ** Vocabulary of the statements about the scan endpoint and the lookup *)

Module ScanSpec.
Section WithPlatform.
Context `{Platform}.
Variable DEFAULT_EXPIRES : Z.

(** Scans one after the other: the responses, and the store they leave. *)
Fixpoint run (calls : list (Z * option Scan.Body)) (db : DB) : list Scan.Response * DB :=
  match calls with
  | [] => ([], db)
  | (nowMs, body) :: rest =>
      let '(response, db') := Scan.POST DEFAULT_EXPIRES nowMs body db in
      let '(responses, db'') := run rest db' in
      (response :: responses, db'')
  end.

(** The version check of the handler lets the payload through: line 72. *)
Definition version_accepted (qrPayload : json) : bool :=
  negb (truthy (Scan.versionFromQr qrPayload) && negb (is_one (Scan.versionFromQr qrPayload))).

(** The age check of the handler lets the payload through: lines 76-82. *)
Definition age_accepted (nowMs : Z) (qrPayload : json) : bool :=
  match as_number (Scan.tsFromQr qrPayload) with
  | Some ts => negb (number_ltb Qr.maxAge (number_sub (nowMs / 1000) ts))
  | None => true
  end.

(** The only write of a scan: at most one new PENDING record. *)
Definition scan_write (db db' : DB) : Prop :=
  events db' = events db
  ∧ tickets db' = tickets db
  ∧ (gateVerifications db' = gateVerifications db
     ∨ ∃ verificationId record,
         gateVerifications db !! verificationId = None
         ∧ gv_status record = PENDING
         ∧ gateVerifications db' = <[verificationId := record]> (gateVerifications db)).

End WithPlatform.
End ScanSpec.

Module ByQrSpec.

(** The body of a lookup request. *)
Definition request (event_id : string) (ticket_number : json) (asset_prefix : string) : json :=
  JObj [("event_id", JStr event_id); ("ticket_number", ticket_number);
        ("asset_prefix", JStr asset_prefix)].

End ByQrSpec.

(** ** Vocabulary of the statements about the codec *)

Module QrSpec.
Section WithPlatform.
Context `{Platform}.

(** The string that carries a payload: the last two lines of
    [generateTicketQR]. *)
Definition encode_payload (p : Qr.QRPayload) : string :=
  "parchi:" +:+ base64url_encode (JSON_stringify (Qr.payload_json p)).

(** The value a QR string carries, when it has the scheme and both
    decoders accept it. *)
Definition carried (qrString : string) : option json :=
  if startsWith qrString "parchi:"
  then base64url_decode (replace "parchi:" "" qrString) ≫= JSON_parse
  else None.

(** The six fields are there and none of them is falsy. *)
Definition fields_present (decoded : json) : bool :=
  truthy (prop decoded "v") && truthy (prop decoded "e") && truthy (prop decoded "t")
  && truthy (prop decoded "a") && truthy (prop decoded "c") && truthy (prop decoded "ts").

(** [typeof x === 'number' && x > 0] *)
Definition positive_number (x : option json) : bool :=
  match as_number x with
  | Some n => number_ltb 0 n
  | None => false
  end.

(** The failures of the spec's taxonomy that [decode] reports. *)
Inductive Failure : Type := MalformedPayload | UnsupportedVersion.

Definition failure_of (err : Qr.ParseError) : Failure :=
  match err with
  | Qr.UnsupportedQRVersion => UnsupportedVersion
  | _ => MalformedPayload
  end.

End WithPlatform.
End QrSpec.

(** ** The validation sequence as the specification words it

    Section 4.4 of the specification: (1) resolve the ticket by id,
    [TicketNotFound]; (2) a [verificationId] that was given references this
    ticket, [VerificationTicketMismatch]; (3) [markUsed], [AlreadyRedeemed];
    then the record is written and the call succeeds. The handler is
    compared with this sequence. *)

Module Claimed.

Inductive Outcome : Type :=
| TicketNotFound
| VerificationNotFound
| VerificationTicketMismatch
| AlreadyRedeemed
| Verified.

Definition verify_sequence (ticketId : string) (verificationId : option string) (db : DB) : Outcome :=
  match tickets db !! ticketId with
  | None => TicketNotFound
  | Some row =>
      match verificationId with
      | Some vid =>
          match gateVerifications db !! vid with
          | None => VerificationNotFound
          | Some record =>
              if negb (String.eqb (gv_ticketId record) ticketId) then VerificationTicketMismatch
              else if bool_decide (status row = ACTIVE) then Verified else AlreadyRedeemed
          end
      | None => if bool_decide (status row = ACTIVE) then Verified else AlreadyRedeemed
      end
  end.

(** The outcome a response of the handler stands for. *)
Definition reported (response : Verify.Response) : option Outcome :=
  match response with
  | Verify.verified_and_used _ _ => Some Verified
  | Verify.failed Verify.already_redeemed_or_invalid => Some AlreadyRedeemed
  | Verify.failed Verify.verification_ticket_mismatch => Some VerificationTicketMismatch
  | Verify.failed Verify.verification_record_not_found => Some VerificationNotFound
  | Verify.failed _ => None
  end.

End Claimed.

(** What the proofs about texts are stated with. *)
Definition head_is (p : ascii → bool) (s : string) : bool :=
  match s with
  | EmptyString => false
  | String ch _ => p ch
  end.

(** What may follow a value inside a record. *)
Definition closes (tail : string) : Prop :=
  ∃ rest, tail = String "," rest ∨ tail = String "}" rest.

Definition add_field (acc : list (string * json)) (kv : string * json) :=
  obj_set kv.1 kv.2 acc.

(** ** A reference implementation of [Platform]

    SHA-256, base64url and JSON, written out
    so that the endpoints can be run on concrete requests. *)

Module Reference.

Module Sha256.

(** SHA-256 (FIPS 180-4) on 32-bit words held in [Z]. *)

Definition w32 (x : Z) : Z := x mod 2 ^ 32.
Definition add32 (x y : Z) : Z := w32 (x + y).
Definition rotr (n x : Z) : Z := w32 (Z.lor (Z.shiftr x n) (Z.shiftl x (32 - n))).
Definition not32 (x : Z) : Z := 2 ^ 32 - 1 - x.

Definition Ch (x y z : Z) : Z := Z.lxor (Z.land x y) (Z.land (not32 x) z).
Definition Maj (x y z : Z) : Z := Z.lxor (Z.lxor (Z.land x y) (Z.land x z)) (Z.land y z).
Definition Sigma0 (x : Z) : Z := Z.lxor (Z.lxor (rotr 2 x) (rotr 13 x)) (rotr 22 x).
Definition Sigma1 (x : Z) : Z := Z.lxor (Z.lxor (rotr 6 x) (rotr 11 x)) (rotr 25 x).
Definition sigma0 (x : Z) : Z := Z.lxor (Z.lxor (rotr 7 x) (rotr 18 x)) (Z.shiftr x 3).
Definition sigma1 (x : Z) : Z := Z.lxor (Z.lxor (rotr 17 x) (rotr 19 x)) (Z.shiftr x 10).

(** The integer part of the [power]-th root of [n], bit by bit. *)
Fixpoint root_bits (power n : Z) (bits : nat) (r : Z) : Z :=
  match bits with
  | O => r
  | S bits' =>
      let r' := r + 2 ^ Z.of_nat bits' in
      if r' ^ power <=? n then root_bits power n bits' r' else root_bits power n bits' r
  end.

Definition is_prime (n : nat) : bool :=
  forallb (fun d => negb (n mod d =? 0)%nat) (seq 2 (n - 2)).

Definition primes (count : nat) : list Z :=
  List.map Z.of_nat (firstn count (List.filter is_prime (seq 2 310))).

(** The first 32 bits of the fractional part of a root of a prime. *)
Definition fraction_bits (power p : Z) : Z :=
  root_bits power (p * 2 ^ (32 * power)) 40 0 mod 2 ^ 32.

(** The round constants: cube roots of the first 64 primes. *)
Definition K : list Z := List.map (fraction_bits 3) (primes 64).

Record state : Type := { ha : Z; hb : Z; hc : Z; hd : Z; he : Z; hf : Z; hg : Z; hh : Z }.

(** The initial hash value: square roots of the first 8 primes. *)
Definition H0 : state :=
  match List.map (fraction_bits 2) (primes 8) with
  | [a; b; c; d; e; f; g; h] =>
      {| ha := a; hb := b; hc := c; hd := d; he := e; hf := f; hg := g; hh := h |}
  | _ => {| ha := 0; hb := 0; hc := 0; hd := 0; he := 0; hf := 0; hg := 0; hh := 0 |}
  end.

(** The message as bytes, padded to a multiple of 64 bytes. *)
Definition bytes_of (s : string) : list Z :=
  List.map (fun ch => Z.of_nat (nat_of_ascii ch)) (list_ascii_of_string s).

Definition be_bytes (width : nat) (x : Z) : list Z :=
  List.map (fun i => Z.shiftr x (8 * Z.of_nat i) mod 256) (rev (seq 0 width)).

Definition padded (msg : list Z) : list Z :=
  let len := Z.of_nat (length msg) in
  let zeros := Z.to_nat ((55 - len) mod 64) in
  msg ++ [0x80] ++ repeat 0 zeros ++ be_bytes 8 (8 * len).

Fixpoint words (fuel : nat) (bs : list Z) : list Z :=
  match fuel, bs with
  | S fuel', b0 :: b1 :: b2 :: b3 :: rest =>
      (((b0 * 256 + b1) * 256 + b2) * 256 + b3) :: words fuel' rest
  | _, _ => []
  end.

(** The message schedule: [w] holds the words so far, newest first. *)
Fixpoint schedule (rounds : nat) (w : list Z) : list Z :=
  match rounds with
  | O => w
  | S rounds' =>
      let new :=
        add32 (add32 (sigma1 (nth 1 w 0)) (nth 6 w 0))
              (add32 (sigma0 (nth 14 w 0)) (nth 15 w 0)) in
      schedule rounds' (new :: w)
  end.

Definition round (s : state) (kw : Z * Z) : state :=
  let '(k, w) := kw in
  let t1 := add32 (add32 (add32 (hh s) (Sigma1 (he s))) (add32 (Ch (he s) (hf s) (hg s)) k)) w in
  let t2 := add32 (Sigma0 (ha s)) (Maj (ha s) (hb s) (hc s)) in
  {| ha := add32 t1 t2; hb := ha s; hc := hb s; hd := hc s;
     he := add32 (hd s) t1; hf := he s; hg := hf s; hh := hg s |}.

Definition compress (h : state) (block : list Z) : state :=
  let w := rev (schedule 48 (rev (words 16 block))) in
  let s := fold_left round (combine K w) h in
  {| ha := add32 (ha h) (ha s); hb := add32 (hb h) (hb s);
     hc := add32 (hc h) (hc s); hd := add32 (hd h) (hd s);
     he := add32 (he h) (he s); hf := add32 (hf h) (hf s);
     hg := add32 (hg h) (hg s); hh := add32 (hh h) (hh s) |}.

Fixpoint blocks (fuel : nat) (h : state) (bs : list Z) : state :=
  match fuel with
  | O => h
  | S fuel' =>
      match bs with
      | [] => h
      | _ => blocks fuel' (compress h (firstn 64 bs)) (skipn 64 bs)
      end
  end.

Definition hex_digit (n : Z) : ascii :=
  if n <? 10 then ascii_of_nat (Z.to_nat (48 + n)) else ascii_of_nat (Z.to_nat (87 + n)).

Definition hex32 (w : Z) (tail : string) : string :=
  String (hex_digit (Z.shiftr w 28 mod 16)) (String (hex_digit (Z.shiftr w 24 mod 16))
  (String (hex_digit (Z.shiftr w 20 mod 16)) (String (hex_digit (Z.shiftr w 16 mod 16))
  (String (hex_digit (Z.shiftr w 12 mod 16)) (String (hex_digit (Z.shiftr w 8 mod 16))
  (String (hex_digit (Z.shiftr w 4 mod 16)) (String (hex_digit (w mod 16)) tail))))))).

Definition digest (s : string) : state :=
  let bs := padded (bytes_of s) in
  blocks (length bs) H0 bs.

Definition hex (s : string) : string :=
  let h := digest s in
  hex32 (ha h) (hex32 (hb h) (hex32 (hc h) (hex32 (hd h)
    (hex32 (he h) (hex32 (hf h) (hex32 (hg h) (hex32 (hh h) EmptyString))))))).

End Sha256.

Module Base64Url.
Local Close Scope Z_scope.

(** RFC 4648, section 5, without padding. *)

(** Six bits, most significant first. *)
Definition sextet : Type := (bool * bool * bool * bool * bool * bool)%type.

Definition value (x : sextet) : nat :=
  let '(b5, b4, b3, b2, b1, b0) := x in
  (if b5 then 32 else 0) + (if b4 then 16 else 0) + (if b3 then 8 else 0)
  + (if b2 then 4 else 0) + (if b1 then 2 else 0) + (if b0 then 1 else 0).

Definition of_value (n : nat) : sextet :=
  (Nat.testbit n 5, Nat.testbit n 4, Nat.testbit n 3,
   Nat.testbit n 2, Nat.testbit n 1, Nat.testbit n 0).

(** [A-Z a-z 0-9 - _] *)
Definition char_of_sextet (x : sextet) : ascii :=
  let n := value x in
  if (n <? 26)%nat then ascii_of_nat (65 + n)
  else if (n <? 52)%nat then ascii_of_nat (71 + n)
  else if (n <? 62)%nat then ascii_of_nat (n - 4)
  else if (n =? 62)%nat then "-"%char
  else "_"%char.

(** ['+'] and ['/'] are read as ['-'] and ['_']. *)
Definition sextet_of_char (ch : ascii) : option sextet :=
  let k := nat_of_ascii ch in
  if (65 <=? k)%nat && (k <=? 90)%nat then Some (of_value (k - 65))
  else if (97 <=? k)%nat && (k <=? 122)%nat then Some (of_value (k - 71))
  else if (48 <=? k)%nat && (k <=? 57)%nat then Some (of_value (k + 4))
  else if (k =? 45)%nat || (k =? 43)%nat then Some (of_value 62)
  else if (k =? 95)%nat || (k =? 47)%nat then Some (of_value 63)
  else None.

Fixpoint encode (s : string) : string :=
  match s with
  | String (Ascii a0 a1 a2 a3 a4 a5 a6 a7)
      (String (Ascii b0 b1 b2 b3 b4 b5 b6 b7)
         (String (Ascii c0 c1 c2 c3 c4 c5 c6 c7) rest)) =>
      String (char_of_sextet (a7, a6, a5, a4, a3, a2))
        (String (char_of_sextet (a1, a0, b7, b6, b5, b4))
           (String (char_of_sextet (b3, b2, b1, b0, c7, c6))
              (String (char_of_sextet (c5, c4, c3, c2, c1, c0)) (encode rest))))
  | String (Ascii a0 a1 a2 a3 a4 a5 a6 a7)
      (String (Ascii b0 b1 b2 b3 b4 b5 b6 b7) EmptyString) =>
      String (char_of_sextet (a7, a6, a5, a4, a3, a2))
        (String (char_of_sextet (a1, a0, b7, b6, b5, b4))
           (String (char_of_sextet (b3, b2, b1, b0, false, false)) EmptyString))
  | String (Ascii a0 a1 a2 a3 a4 a5 a6 a7) EmptyString =>
      String (char_of_sextet (a7, a6, a5, a4, a3, a2))
        (String (char_of_sextet (a1, a0, false, false, false, false)) EmptyString)
  | EmptyString => EmptyString
  end.

Fixpoint decode (s : string) : option string :=
  match s with
  | EmptyString => Some EmptyString
  | String _ EmptyString => None
  | String x1 (String x2 EmptyString) =>
      match sextet_of_char x1, sextet_of_char x2 with
      | Some (a7, a6, a5, a4, a3, a2), Some (a1, a0, _, _, _, _) =>
          Some (String (Ascii a0 a1 a2 a3 a4 a5 a6 a7) EmptyString)
      | _, _ => None
      end
  | String x1 (String x2 (String x3 EmptyString)) =>
      match sextet_of_char x1, sextet_of_char x2, sextet_of_char x3 with
      | Some (a7, a6, a5, a4, a3, a2), Some (a1, a0, b7, b6, b5, b4),
        Some (b3, b2, b1, b0, _, _) =>
          Some (String (Ascii a0 a1 a2 a3 a4 a5 a6 a7)
                  (String (Ascii b0 b1 b2 b3 b4 b5 b6 b7) EmptyString))
      | _, _, _ => None
      end
  | String x1 (String x2 (String x3 (String x4 rest))) =>
      match sextet_of_char x1, sextet_of_char x2, sextet_of_char x3, sextet_of_char x4,
            decode rest with
      | Some (a7, a6, a5, a4, a3, a2), Some (a1, a0, b7, b6, b5, b4),
        Some (b3, b2, b1, b0, c7, c6), Some (c5, c4, c3, c2, c1, c0), Some tail =>
          Some (String (Ascii a0 a1 a2 a3 a4 a5 a6 a7)
                  (String (Ascii b0 b1 b2 b3 b4 b5 b6 b7)
                     (String (Ascii c0 c1 c2 c3 c4 c5 c6 c7) tail)))
      | _, _, _, _, _ => None
      end
  end.

End Base64Url.

Module Json.
Local Close Scope Z_scope.

Definition dquote : ascii := "034"%char.
Definition backslash : ascii := "092"%char.

Definition hex_char (n : nat) : ascii :=
  if (n <? 10)%nat then ascii_of_nat (48 + n) else ascii_of_nat (87 + n).

Definition hex_value (ch : ascii) : option nat :=
  let k := nat_of_ascii ch in
  if (48 <=? k)%nat && (k <=? 57)%nat then Some (k - 48)%nat
  else if (97 <=? k)%nat && (k <=? 102)%nat then Some (k - 87)%nat
  else if (65 <=? k)%nat && (k <=? 70)%nat then Some (k - 55)%nat
  else None.

(** *** Printing: every printer writes in front of [tail]. *)

Definition print_char (ch : ascii) (tail : string) : string :=
  let k := nat_of_ascii ch in
  if Ascii.eqb ch dquote then String backslash (String dquote tail)
  else if Ascii.eqb ch backslash then String backslash (String backslash tail)
  else if (k =? 8)%nat then String backslash (String "b" tail)
  else if (k =? 9)%nat then String backslash (String "t" tail)
  else if (k =? 10)%nat then String backslash (String "n" tail)
  else if (k =? 12)%nat then String backslash (String "f" tail)
  else if (k =? 13)%nat then String backslash (String "r" tail)
  else if (k <? 32)%nat then
    String backslash (String "u" (String "0" (String "0"
      (String (hex_char (k / 16)) (String (hex_char (k mod 16)) tail)))))
  else String ch tail.

Fixpoint print_chars (s : string) (tail : string) : string :=
  match s with
  | EmptyString => tail
  | String ch s' => print_char ch (print_chars s' tail)
  end.

Definition print_string (s : string) (tail : string) : string :=
  String dquote (print_chars s (String dquote tail)).

Fixpoint print_elements (pr : json → string → string) (xs : list json) (tail : string) : string :=
  match xs with
  | [] => tail
  | [y] => pr y tail
  | y :: rest => pr y (String "," (print_elements pr rest tail))
  end.

Fixpoint print_members (pr : json → string → string)
    (fields : list (string * json)) (tail : string) : string :=
  match fields with
  | [] => tail
  | [(k, y)] => print_string k (String ":" (pr y tail))
  | (k, y) :: rest => print_string k (String ":" (pr y (String "," (print_members pr rest tail))))
  end.

Fixpoint print (x : json) (tail : string) : string :=
  match x with
  | JNull => "null" +:+ tail
  | JBool true => "true" +:+ tail
  | JBool false => "false" +:+ tail
  | JNum n => number_toString n +:+ tail
  | JStr s => print_string s tail
  | JArr xs => String "[" (print_elements print xs (String "]" tail))
  | JObj fields => String "{" (print_members print fields (String "}" tail))
  end.

Definition stringify (x : json) : string := print x "".

(** *** Parsing *)

Definition is_ws (ch : ascii) : bool :=
  let k := nat_of_ascii ch in
  (k =? 32)%nat || (k =? 9)%nat || (k =? 10)%nat || (k =? 13)%nat.

Fixpoint skip_ws (s : string) : string :=
  match s with
  | String ch s' => if is_ws ch then skip_ws s' else s
  | EmptyString => EmptyString
  end.

Definition prepend (ch : ascii) (r : option (string * string)) : option (string * string) :=
  match r with
  | Some (str, rest) => Some (String ch str, rest)
  | None => None
  end.

(** The characters of a string literal after its opening quote, and what
    follows the closing quote. *)
Fixpoint parse_string (s : string) : option (string * string) :=
  match s with
  | EmptyString => None
  | String ch rest =>
      if Ascii.eqb ch dquote then Some (EmptyString, rest)
      else if Ascii.eqb ch backslash then
        match rest with
        | EmptyString => None
        | String esc rest' =>
            if Ascii.eqb esc dquote then prepend dquote (parse_string rest')
            else if Ascii.eqb esc backslash then prepend backslash (parse_string rest')
            else if Ascii.eqb esc "/" then prepend "/" (parse_string rest')
            else if Ascii.eqb esc "b" then prepend "008" (parse_string rest')
            else if Ascii.eqb esc "t" then prepend "009" (parse_string rest')
            else if Ascii.eqb esc "n" then prepend "010" (parse_string rest')
            else if Ascii.eqb esc "f" then prepend "012" (parse_string rest')
            else if Ascii.eqb esc "r" then prepend "013" (parse_string rest')
            else if Ascii.eqb esc "u" then
              match rest' with
              | String h1 (String h2 (String h3 (String h4 rest''))) =>
                  match hex_value h1, hex_value h2, hex_value h3, hex_value h4 with
                  | Some d1, Some d2, Some d3, Some d4 =>
                      let code := (((d1 * 16 + d2) * 16 + d3) * 16 + d4)%nat in
                      if (code <? 128)%nat
                      then prepend (ascii_of_nat code) (parse_string rest'')
                      else None
                  | _, _, _, _ => None
                  end
              | _ => None
              end
            else None
        end
      else if (nat_of_ascii ch <? 32)%nat then None
      else prepend ch (parse_string rest)
  end.

Definition is_number_char (ch : ascii) : bool :=
  let k := nat_of_ascii ch in
  ((48 <=? k)%nat && (k <=? 57)%nat) || (k =? 45)%nat.

Fixpoint span (p : ascii → bool) (s : string) : string * string :=
  match s with
  | String ch s' =>
      if p ch then let '(taken, rest) := span p s' in (String ch taken, rest)
      else (EmptyString, s)
  | EmptyString => (EmptyString, EmptyString)
  end.

Definition is_digit (ch : ascii) : bool :=
  let k := nat_of_ascii ch in (48 <=? k)%nat && (k <=? 57)%nat.

(** The integer part of a literal, an optional ['-'] and the digits
    without a leading zero: whether it has the sign, and the integer its
    digits spell. *)
Definition integer_part (literal : string) : option (bool * Z) :=
  match NilZero.int_of_string literal with
  | Some d =>
      let n := Z.of_int d in
      if String.eqb (Number_toString n) literal || String.eqb literal "-0"
      then Some (String.prefix "-" literal, Z.abs n)
      else None
  | None => None
  end.

(** The digits of a fraction, none when there is no point; a point that
    no digit follows is an error. *)
Definition parse_fraction (s : string) : option (string * string) :=
  match s with
  | String ch rest =>
      if Ascii.eqb ch "." then
        let '(digits, rest') := span is_digit rest in
        if String.eqb digits "" then None else Some (digits, rest')
      else Some (EmptyString, s)
  | EmptyString => Some (EmptyString, s)
  end.

(** The integer a text of digits spells *)
Definition digits_value (digits : string) : Z :=
  default 0%Z (Z.of_int <$> NilZero.int_of_string digits).

(** The exponent, [0] when there is none; an ['e'] that no digit follows
    is an error. *)
Definition parse_exponent (s : string) : option (Z * string) :=
  match s with
  | String ch rest =>
      if Ascii.eqb ch "e" || Ascii.eqb ch "E" then
        let '(negative, rest1) :=
          match rest with
          | String sign rest' =>
              if Ascii.eqb sign "-" then (true, rest')
              else if Ascii.eqb sign "+" then (false, rest')
              else (false, rest)
          | EmptyString => (false, rest)
          end in
        let '(digits, rest2) := span is_digit rest1 in
        if String.eqb digits "" then None
        else Some ((if negative then - digits_value digits else digits_value digits)%Z, rest2)
      else Some (0%Z, s)
  | EmptyString => Some (0%Z, s)
  end.

(** The number [digits / 10 ^ places], for any [places] *)
Definition make_number (digits places : Z) : number :=
  if (places <=? 0)%Z then Int (digits * 10 ^ (- places))%Z
  else normal (Z.to_nat places) digits.

(** A number literal: the integer part, a fraction, an exponent. *)
Definition parse_number (s : string) : option (number * string) :=
  let '(literal, rest) := span is_number_char s in
  match integer_part literal with
  | None => None
  | Some (negative, whole) =>
      match parse_fraction rest with
      | None => None
      | Some (fraction, rest1) =>
          match parse_exponent rest1 with
          | None => None
          | Some (exponent, rest2) =>
              let places := Z.of_nat (String.length fraction) in
              let digits := (whole * 10 ^ places + digits_value fraction)%Z in
              Some (make_number (if negative then - digits else digits)%Z
                      (places - exponent)%Z, rest2)
          end
      end
  end.

Definition keyword (word : string) (x : json) (s : string) : option (json * string) :=
  if String.prefix word s then Some (x, slice_from (String.length word) s) else None.

(** [fuel] bounds the number of values, elements and members that are
    read; a text never holds more of them than it has characters. *)
Fixpoint parse_value (fuel : nat) (s : string) : option (json * string) :=
  match fuel with
  | O => None
  | S fuel' =>
      match skip_ws s with
      | EmptyString => None
      | String ch rest =>
          if Ascii.eqb ch "{" then
            match skip_ws rest with
            | String ch' rest' =>
                if Ascii.eqb ch' "}" then Some (JObj [], rest')
                else parse_members fuel' [] rest
            | EmptyString => None
            end
          else if Ascii.eqb ch "[" then
            match skip_ws rest with
            | String ch' rest' =>
                if Ascii.eqb ch' "]" then Some (JArr [], rest')
                else parse_elements fuel' [] rest
            | EmptyString => None
            end
          else if Ascii.eqb ch dquote then
            match parse_string rest with
            | Some (str, rest') => Some (JStr str, rest')
            | None => None
            end
          else if Ascii.eqb ch "n" then keyword "null" JNull (String ch rest)
          else if Ascii.eqb ch "t" then keyword "true" (JBool true) (String ch rest)
          else if Ascii.eqb ch "f" then keyword "false" (JBool false) (String ch rest)
          else
            match parse_number (String ch rest) with
            | Some (n, rest') => Some (JNum n, rest')
            | None => None
            end
      end
  end
with parse_elements (fuel : nat) (acc : list json) (s : string) : option (json * string) :=
  match fuel with
  | O => None
  | S fuel' =>
      match parse_value fuel' s with
      | Some (x, rest) =>
          match skip_ws rest with
          | String ch rest' =>
              if Ascii.eqb ch "," then parse_elements fuel' (acc ++ [x]) rest'
              else if Ascii.eqb ch "]" then Some (JArr (acc ++ [x]), rest')
              else None
          | EmptyString => None
          end
      | None => None
      end
  end
with parse_members (fuel : nat) (acc : list (string * json)) (s : string) : option (json * string) :=
  match fuel with
  | O => None
  | S fuel' =>
      match skip_ws s with
      | String ch rest =>
          if Ascii.eqb ch dquote then
            match parse_string rest with
            | Some (k, rest1) =>
                match skip_ws rest1 with
                | String ch1 rest2 =>
                    if Ascii.eqb ch1 ":" then
                      match parse_value fuel' rest2 with
                      | Some (x, rest3) =>
                          match skip_ws rest3 with
                          | String ch3 rest4 =>
                              if Ascii.eqb ch3 "," then parse_members fuel' (obj_set k x acc) rest4
                              else if Ascii.eqb ch3 "}" then Some (JObj (obj_set k x acc), rest4)
                              else None
                          | EmptyString => None
                          end
                      | None => None
                      end
                    else None
                | EmptyString => None
                end
            | None => None
            end
          else None
      | EmptyString => None
      end
  end.

Definition parse (s : string) : option json :=
  match parse_value (S (String.length s)) s with
  | Some (x, rest) =>
      match skip_ws rest with
      | EmptyString => Some x
      | String _ _ => None
      end
  | None => None
  end.

End Json.

Module Uri.
Local Close Scope Z_scope.

(** Percent-decoding; a ['%'] that two hexadecimal digits do not follow
    is the error [decodeURIComponent] throws. *)
Fixpoint decodeURIComponent (s : string) : option string :=
  match s with
  | EmptyString => Some EmptyString
  | String ch rest =>
      if Ascii.eqb ch "%" then
        match rest with
        | String h1 (String h2 rest') =>
            match Json.hex_value h1, Json.hex_value h2 with
            | Some d1, Some d2 =>
                String (ascii_of_nat (d1 * 16 + d2)) <$> decodeURIComponent rest'
            | _, _ => None
            end
        | _ => None
        end
      else String ch <$> decodeURIComponent rest
  end.

End Uri.

Module NodeBuffer.
Local Close Scope Z_scope.

(** The characters of the alphabet, up to the first ['=']. *)
Fixpoint alphabet_only (s : string) : string :=
  match s with
  | EmptyString => EmptyString
  | String ch rest =>
      if Ascii.eqb ch "=" then EmptyString
      else match Base64Url.sextet_of_char ch with
           | Some _ => String ch (alphabet_only rest)
           | None => alphabet_only rest
           end
  end.

Fixpoint drop_last (s : string) : string :=
  match s with
  | EmptyString | String _ EmptyString => EmptyString
  | String ch rest => String ch (drop_last rest)
  end.

(** [Buffer.from(s, 'base64').toString('utf8')]: the decoder skips what is
    not in the alphabet and a dangling last character. *)
Definition base64_utf8 (s : string) : string :=
  let body := alphabet_only s in
  match Base64Url.decode body with
  | Some text => text
  | None => default EmptyString (Base64Url.decode (drop_last body))
  end.

End NodeBuffer.

Module Clock.

Definition digits (width : nat) (n : Z) : string :=
  let s := Number_toString n in
  String.string_of_list_ascii (List.repeat "0"%char (width - String.length s)) +:+ s.

(** The civil date of a day number counted from 1970-01-01. *)
Definition civil_from_days (days : Z) : Z * Z * Z :=
  let z := days + 719468 in
  let era := z / 146097 in
  let doe := z - era * 146097 in
  let yoe := (doe - doe / 1460 + doe / 36524 - doe / 146096) / 365 in
  let doy := doe - (365 * yoe + yoe / 4 - yoe / 100) in
  let mp := (5 * doy + 2) / 153 in
  let d := doy - (153 * mp + 2) / 5 + 1 in
  let m := if mp <? 10 then mp + 3 else mp - 9 in
  let y := yoe + era * 400 + (if m <=? 2 then 1 else 0) in
  (y, m, d).

(** [new Date(ms).toISOString()] for the years 0000 to 9999 *)
Definition toISOString (ms : Z) : string :=
  let '(y, m, d) := civil_from_days (ms / 86400000) in
  let t := ms mod 86400000 in
  digits 4 y +:+ "-" +:+ digits 2 m +:+ "-" +:+ digits 2 d +:+ "T"
  +:+ digits 2 (t / 3600000) +:+ ":" +:+ digits 2 (t / 60000 mod 60) +:+ ":"
  +:+ digits 2 (t / 1000 mod 60) +:+ "." +:+ digits 3 (t mod 1000) +:+ "Z".

End Clock.

End Reference.

(** ** A reference implementation of [atob] for the gate page *)

Module Browser.
Local Close Scope Z_scope.

(** ASCII white space: tab, line feed, form feed, carriage return, space. *)
Definition is_ascii_whitespace (ch : ascii) : bool :=
  let n := nat_of_ascii ch in
  (n =? 9) || (n =? 10) || (n =? 12) || (n =? 13) || (n =? 32).

Fixpoint remove_whitespace (s : string) : string :=
  match s with
  | EmptyString => EmptyString
  | String ch rest =>
      if is_ascii_whitespace ch then remove_whitespace rest
      else String ch (remove_whitespace rest)
  end.

(** [A-Z a-z 0-9 + /] *)
Definition standard (ch : ascii) : bool :=
  let n := nat_of_ascii ch in
  ((65 <=? n) && (n <=? 90)) || ((97 <=? n) && (n <=? 122)) || ((48 <=? n) && (n <=? 57))
  || (n =? 43) || (n =? 47).

Fixpoint ends_with_equals (s : string) : bool :=
  match s with
  | EmptyString => false
  | String ch EmptyString => Ascii.eqb ch "="
  | String _ rest => ends_with_equals rest
  end.

Definition strip_equals (s : string) : string :=
  if ends_with_equals s then Reference.NodeBuffer.drop_last s else s.

(** The forgiving-base64 decoding of [atob], and the text of its bytes:
    white space is dropped; the one or two ['='] that end a text whose
    length is a multiple of 4 are dropped; a length of 1 modulo 4 and a
    character out of the alphabet are errors; left-over bits are
    discarded. *)
Definition atob_utf8 (data : string) : option string :=
  let data := remove_whitespace data in
  let data :=
    if String.length data mod 4 =? 0 then strip_equals (strip_equals data) else data in
  if String.length data mod 4 =? 1 then None
  else if all_chars standard data then Reference.Base64Url.decode data
  else None.

End Browser.

(** What [replace(/-/g, '+').replace(/_/g, '/')] makes of a character and
    of a text. *)
Definition to_standard_char (ch : ascii) : ascii :=
  if Ascii.eqb (if Ascii.eqb ch "-" then "+"%char else ch) "_" then "/"%char
  else if Ascii.eqb ch "-" then "+"%char else ch.

Definition to_standard (s : string) : string :=
  replace_all_char "_" "/" (replace_all_char "-" "+" s).

(** The characters the decoder of [Buffer.from] reads. *)
Definition in_alphabet (ch : ascii) : bool :=
  negb (Ascii.eqb ch "=")
  && match Reference.Base64Url.sextet_of_char ch with Some _ => true | None => false end.

(** ** A store and requests to run the endpoints on *)

Module Fixture.

Definition asset : string := "Abc12345XYZabcdefghijklmnopqrstuvwxyz0123456".

(** Ticket 7 of the event, bought and not yet used. *)
Definition ticket7 : Ticket :=
  {| eventId := "evt_abc"; holderPubkey := "9WzDXwBbmkg8ZTbNMqUxvQRAyrZzDsGYdLVL9zYtAWWM";
     mintPubkey := Some asset; purchasePrice := 1000000; seatNumber := None; tier := None;
     status := ACTIVE; purchasedAt := 1699990000000; usedAt := None; metadataUri := None |}.

(** A ticket of the same event that went through the gate, with the
    record of its verification. *)
Definition ticket8 : Ticket :=
  {| eventId := "evt_abc"; holderPubkey := "7xKXtg2CW87d97TXJSDpbD5jBkheTqA83TZRuJosgAsU";
     mintPubkey := Some "Xyz98765XYZabcdefghijklmnopqrstuvwxyz0123456";
     purchasePrice := 1000000; seatNumber := None; tier := None;
     status := USED; purchasedAt := 1699990000000; usedAt := Some 1700000050000;
     metadataUri := None |}.

Definition pending7 : GateVerification :=
  {| gv_eventId := "evt_abc"; gv_ticketId := "tk7"; verifierPubkey := "staff-1";
     gv_status := PENDING; verifiedAt := None; location := Some "gate-A"; meta := [];
     createdAt := 1700000000000 |}.

Definition verified8 : GateVerification :=
  {| gv_eventId := "evt_abc"; gv_ticketId := "tk8"; verifierPubkey := "staff-1";
     gv_status := VERIFIED; verifiedAt := Some 1700000050000; location := Some "gate-A";
     meta := []; createdAt := 1700000040000 |}.

Definition store : DB :=
  {| events := {["evt_abc"]};
     tickets := <["tk7" := ticket7]> (<["tk8" := ticket8]> ∅);
     gateVerifications := <["gv1" := pending7]> (<["gv2" := verified8]> ∅) |}.

Definition by_verification (verificationId : string) : Verify.Body :=
  {| Verify.ticketId := None; Verify.verificationId := Some verificationId;
     Verify.staffId := Some "staff-2"; Verify.gateId := Some "gate-B" |}.

Definition by_ticket (ticketId : string) : Verify.Body :=
  {| Verify.ticketId := Some ticketId; Verify.verificationId := None;
     Verify.staffId := Some "staff-2"; Verify.gateId := Some "gate-B" |}.

Definition by_both (ticketId verificationId : string) : Verify.Body :=
  {| Verify.ticketId := Some ticketId; Verify.verificationId := Some verificationId;
     Verify.staffId := Some "staff-2"; Verify.gateId := Some "gate-B" |}.

(** A payload generated long ago, with a checksum that is not its own. *)
Definition stale : Qr.QRPayload :=
  {| Qr.v := 1; Qr.e := "evt_abc"; Qr.t := 7; Qr.a := "Abc12345"; Qr.ts := 1700000000;
     Qr.c := "0000" |}.

(** A payload of version 0: [{"v":0,"e":"evt_abc","t":7,"a":"Abc12345",
    "ts":1700000000,"c":"e6fe"}] behind the scheme. *)
Definition version0 : string :=
  "parchi:eyJ2IjowLCJlIjoiZXZ0X2FiYyIsInQiOjcsImEiOiJBYmMxMjM0NSIsInRzIjoxNzAwMDAwMDAwLCJjIjoiZTZmZSJ9".

(** A payload whose ticket number is not an integer:
    [{"v":1,"e":"evt_abc","t":7.5,"a":"Abc12345","ts":1700000000,
    "c":"e6fe"}] behind the scheme. *)
Definition ticket_seven_and_a_half : string :=
  "parchi:eyJ2IjoxLCJlIjoiZXZ0X2FiYyIsInQiOjcuNSwiYSI6IkFiYzEyMzQ1IiwidHMiOjE3MDAwMDAwMDAsImMiOiJlNmZlIn0".

(** A payload of the form the scan endpoint also reads, with the id of
    ticket 7, a mint that is not its mint, and neither checksum nor
    timestamp. *)
Definition unsigned_payload : json := JObj [("t", JStr "tk7"); ("m", JStr "WRONG")].

(** A payload with the id of ticket 7 and nothing else. *)
Definition bare_payload : json := JObj [("t", JStr "tk7")].

Definition scan_of (qrString : string) : Scan.Body :=
  {| Scan.qrString := Some qrString; Scan.staffId := Some "staff-1";
     Scan.gateId := Some "gate-A" |}.

(** Three calls for ticket 7, and an order in which their steps are
    taken. *)
Definition three_requests : list (Z * Verify.Body) :=
  [(1700000100000, by_verification "gv1"); (1700000101000, by_ticket "tk7");
   (1700000102000, by_both "tk7" "gv1")].

Definition round_robin : list nat := [0; 1; 2; 2; 1; 0; 1; 2; 0; 2; 1; 0; 1; 0; 2; 0; 1; 2]%nat.

(** Two calls of the read followed by the write, for ticket 7, and the
    order in which both read before either writes. *)
Definition two_readers : Concurrent.State :=
  {| Concurrent.committed := store; Concurrent.pending_tickets := ∅;
     Concurrent.pending_records := ∅;
     Concurrent.calls := [Concurrent.running (ReadThenWrite.program 1700000100000 "tk7");
                          Concurrent.running (ReadThenWrite.program 1700000101000 "tk7")] |}.

Definition both_read_first : list nat := [0; 1; 0; 0; 1; 1]%nat.

End Fixture.

(** ** More requests to run the code on *)

Module GateFixture.

(** The code of ticket 7, generated at 1700000000 seconds. *)
Definition code7 : string :=
  "parchi:eyJ2IjoxLCJlIjoiZXZ0X2FiYyIsInQiOjcsImEiOiJBYmMxMjM0NSIsInRzIjoxNzAwMDAwMDAwLCJjIjoiZTZmZSJ9".

Definition payload7 : Qr.QRPayload :=
  {| Qr.v := 1; Qr.e := "evt_abc"; Qr.t := 7; Qr.a := "Abc12345"; Qr.ts := 1700000000;
     Qr.c := "e6fe" |}.

(** The message of the store for a row that is not there, and for a
    status that is not one. *)
Definition message (err : UpdateStatus.StoreError) : string :=
  match err with
  | UpdateStatus.RecordNotFound =>
      "An operation failed because it depends on one or more records that were required but not found. Record to update not found."
  | UpdateStatus.InvalidStatus _ => "Invalid value for argument `status`. Expected TicketStatus."
  end.

(** An image that is its text. *)
Definition toDataURL (text : string) (width : Z) (errorCorrectionLevel : string) : option string :=
  Some ("data:" +:+ text).

End GateFixture.

(** * Proofs *)

(** ** Strings *)

Section Strings.
Local Close Scope Z_scope.

Lemma append_nil (s : string) : "" +:+ s = s.
Proof. reflexivity. Qed.

Lemma append_cons (ch : ascii) (s1 s2 : string) : String ch s1 +:+ s2 = String ch (s1 +:+ s2).
Proof. reflexivity. Qed.

Lemma length_append (s1 s2 : string) :
  String.length (s1 +:+ s2) = String.length s1 + String.length s2.
Proof.
  induction s1 as [|ch s1 IH]; [reflexivity|].
  rewrite append_cons. cbn [String.length]. rewrite IH. reflexivity.
Qed.

End Strings.

(** ** The reference platform meets the contract *)

Section ReferenceFacts.
Local Close Scope Z_scope.
Import Reference.Base64Url Reference.Json.

Lemma sextet_of_char_of_sextet (x : sextet) : sextet_of_char (char_of_sextet x) = Some x.
Proof. destruct x as [[[[[[] []] []] []] []] []]; reflexivity. Qed.

Lemma decode_encode_bounded (n : nat) :
  ∀ s, String.length s < n → decode (encode s) = Some s.
Proof.
  induction n as [|n IH]; intros s Hlen; [lia|].
  destruct s as [|[a0 a1 a2 a3 a4 a5 a6 a7] s]; [reflexivity|].
  destruct s as [|[b0 b1 b2 b3 b4 b5 b6 b7] s].
  { cbn [encode decode]. rewrite !sextet_of_char_of_sextet. reflexivity. }
  destruct s as [|[c0 c1 c2 c3 c4 c5 c6 c7] s].
  { cbn [encode decode]. rewrite !sextet_of_char_of_sextet. reflexivity. }
  cbn [encode decode]. rewrite !sextet_of_char_of_sextet.
  rewrite IH; [reflexivity|]. cbn [String.length] in Hlen. lia.
Qed.

Lemma decode_encode (s : string) : decode (encode s) = Some s.
Proof. apply (decode_encode_bounded (S (String.length s))). lia. Qed.

Lemma parse_string_print_char (ch : ascii) (tail : string) :
  parse_string (print_char ch tail) = prepend ch (parse_string tail).
Proof. destruct ch as [[] [] [] [] [] [] [] []]; reflexivity. Qed.

Lemma parse_string_print_chars (s tail : string) :
  parse_string (print_chars s (String dquote tail)) = Some (s, tail).
Proof.
  induction s as [|ch s IH]; [reflexivity|].
  cbn [print_chars]. rewrite parse_string_print_char, IH. reflexivity.
Qed.



Lemma span_append (p : ascii → bool) (taken tail : string) :
  all_chars p taken = true → head_is p tail = false →
  span p (taken +:+ tail) = (taken, tail).
Proof.
  intros Hall Htail. induction taken as [|ch taken IH].
  - destruct tail as [|ch tail]; [reflexivity|].
    cbn [head_is] in Htail. rewrite append_nil. cbn [span]. rewrite Htail. reflexivity.
  - cbn [all_chars] in Hall. apply andb_true_iff in Hall as [Hch Hall].
    rewrite append_cons. cbn [span]. rewrite Hch, IH by assumption. reflexivity.
Qed.

Lemma uint_number_chars (d : Decimal.uint) :
  all_chars is_number_char (NilEmpty.string_of_uint d) = true.
Proof. induction d; cbn; auto. Qed.

Lemma Number_toString_chars (n : Z) :
  all_chars is_number_char (Number_toString n) = true.
Proof.
  unfold Number_toString.
  assert (∀ d, all_chars is_number_char (NilZero.string_of_uint d) = true) as Huint.
  { intros d. destruct d; [reflexivity | ..];
      match goal with |- context [NilZero.string_of_uint ?x] => exact (uint_number_chars x) end. }
  destruct (Z.to_int n) as [d|d]; cbn [NilZero.string_of_int all_chars].
  - apply Huint.
  - rewrite Huint. reflexivity.
Qed.

Lemma Number_toString_nonempty (n : Z) :
  head_is is_number_char (Number_toString n) = true.
Proof.
  unfold Number_toString.
  destruct n as [|p|p]; cbn; [reflexivity| |reflexivity].
  destruct (Pos.to_uint p); reflexivity.
Qed.

Lemma int_of_string_Number_toString (n : Z) :
  NilZero.int_of_string (Number_toString n) = Some (Z.to_int n).
Proof.
  unfold Number_toString. apply NilZero.isi.
  - destruct n as [|p|p]; cbn; try discriminate.
    intros [= Hp]. apply (DecimalPos.Unsigned.to_uint_nonnil p Hp).
  - destruct n as [|p|p]; cbn; try discriminate.
    intros [= Hp]. apply (DecimalPos.Unsigned.to_uint_nonnil p Hp).
Qed.

Lemma closes_not_number (tail : string) : closes tail → head_is is_number_char tail = false.
Proof. intros [rest [-> | ->]]; reflexivity. Qed.

Lemma Number_toString_sign (n : Z) :
  String.prefix "-" (Number_toString n) = (n <? 0)%Z.
Proof.
  unfold Number_toString.
  destruct n as [|p|p]; cbn; [reflexivity| |].
  - destruct (Pos.to_uint p); reflexivity.
  - destruct (NilZero.string_of_uint (Pos.to_uint p)); reflexivity.
Qed.

Lemma integer_part_print (n : Z) :
  integer_part (Number_toString n) = Some ((n <? 0)%Z, Z.abs n).
Proof.
  unfold integer_part.
  rewrite int_of_string_Number_toString, DecimalZ.of_to, String.eqb_refl, Number_toString_sign.
  reflexivity.
Qed.

Lemma parse_number_print (n : Z) (tail : string) :
  closes tail →
  parse_number (Number_toString n +:+ tail) = Some (Int n, tail).
Proof.
  intros Htail. unfold parse_number.
  rewrite (span_append _ _ _ (Number_toString_chars n) (closes_not_number _ Htail)).
  rewrite integer_part_print.
  assert (parse_fraction tail = Some (EmptyString, tail)) as ->
    by (destruct Htail as [rest [-> | ->]]; reflexivity).
  assert (parse_exponent tail = Some (0%Z, tail)) as ->
    by (destruct Htail as [rest [-> | ->]]; reflexivity).
  unfold make_number, digits_value. cbn.
  f_equal. f_equal. f_equal.
  destruct (Z.ltb_spec n 0); lia.
Qed.

Lemma number_char_dispatch (ch : ascii) (rest : string) (fuel : nat) :
  is_number_char ch = true →
  parse_value (S fuel) (String ch rest)
  = match parse_number (String ch rest) with
    | Some (n, rest') => Some (JNum n, rest')
    | None => None
    end.
Proof.
  destruct ch as [[] [] [] [] [] [] [] []]; try discriminate; intros _; reflexivity.
Qed.

Lemma parse_value_scalar (fuel : nat) (x : json) (tail : string) :
  scalar x = true → closes tail → 0 < fuel →
  parse_value fuel (print x tail) = Some (x, tail).
Proof.
  intros Hx Htail Hfuel. destruct fuel as [|fuel]; [lia|].
  destruct x as [| | [n|] | s | |]; try discriminate.
  - cbn [print number_toString].
    pose proof (Number_toString_nonempty n) as Hhead.
    destruct (Number_toString n) as [|ch digits] eqn:Hn; [discriminate|].
    cbn [head_is] in Hhead. rewrite append_cons.
    rewrite number_char_dispatch by assumption.
    rewrite <- append_cons, <- Hn, parse_number_print by exact Htail.
    reflexivity.
  - cbn [print print_string parse_value skip_ws].
    change (is_ws dquote) with false. cbn iota.
    change (Ascii.eqb dquote "{") with false.
    change (Ascii.eqb dquote "[") with false.
    change (Ascii.eqb dquote dquote) with true. cbn iota.
    rewrite parse_string_print_chars. reflexivity.
Qed.


Lemma parse_members_print (fields : list (string * json)) :
  ∀ (fuel : nat) (acc : list (string * json)) (tail : string),
    fields ≠ [] →
    Forall (λ kv, scalar kv.2 = true) fields →
    length fields < fuel →
    parse_members fuel acc (print_members print fields (String "}" tail))
    = Some (JObj (fold_left add_field fields acc), tail).
Proof.
  induction fields as [|[k x] fields IH]; intros fuel acc tail Hne Hsc Hfuel; [done|].
  apply Forall_cons in Hsc as [Hx Hsc]. cbn in Hx, Hfuel.
  destruct fuel as [|fuel]; [lia|].
  destruct fields as [|kv fields].
  - cbn [print_members print_string parse_members skip_ws].
    change (is_ws dquote) with false. cbn iota.
    change (Ascii.eqb dquote dquote) with true. cbn iota.
    rewrite parse_string_print_chars. cbn [skip_ws].
    change (is_ws ":") with false. cbn iota.
    change (Ascii.eqb ":" ":") with true. cbn iota.
    rewrite parse_value_scalar by (try assumption; try lia; eexists; eauto).
    reflexivity.
  - remember (kv :: fields) as more eqn:Hmore.
    assert (print_members print ((k, x) :: more) (String "}" tail)
            = print_string k (String ":" (print x (String ","
                (print_members print more (String "}" tail)))))) as ->.
    { subst more. reflexivity. }
    cbn [print_string parse_members skip_ws].
    change (is_ws dquote) with false. cbn iota.
    change (Ascii.eqb dquote dquote) with true. cbn iota.
    rewrite parse_string_print_chars. cbn [skip_ws].
    change (is_ws ":") with false. cbn iota.
    change (Ascii.eqb ":" ":") with true. cbn iota.
    rewrite parse_value_scalar by (try assumption; try (subst; cbn in *; lia); eexists; eauto).
    cbn [skip_ws]. change (is_ws ",") with false. cbn iota.
    change (Ascii.eqb "," ",") with true. cbn iota.
    rewrite IH; [reflexivity | subst; done | assumption | cbn in *; lia].
Qed.

Lemma obj_set_fresh (k : string) (x : json) (acc : list (string * json)) :
  k ∉ acc.*1 → obj_set k x acc = acc ++ [(k, x)].
Proof.
  induction acc as [|[k' y] acc IH]; intros Hk; [reflexivity|].
  cbn in *. apply not_elem_of_cons in Hk as [Hne Hk].
  destruct (String.eqb_spec k k'); [done|]. rewrite IH by assumption. reflexivity.
Qed.

Lemma fold_add_field (fields acc : list (string * json)) :
  NoDup (acc ++ fields).*1 → fold_left add_field fields acc = acc ++ fields.
Proof.
  revert acc. induction fields as [|[k x] fields IH]; intros acc Hnd; cbn.
  - by rewrite app_nil_r.
  - unfold add_field at 2. cbn.
    rewrite fmap_app in Hnd. cbn in Hnd.
    pose proof Hnd as Hnd'.
    apply NoDup_app in Hnd as (_ & Hdisj & _).
    rewrite obj_set_fresh.
    + rewrite IH; rewrite <- app_assoc; [done|]. cbn. by rewrite fmap_app.
    + intros Hin. apply (Hdisj _ Hin). left.
Qed.

Lemma print_char_length (ch : ascii) (tail : string) :
  String.length tail < String.length (print_char ch tail).
Proof.
  destruct ch as [[] [] [] [] [] [] [] []];
    (cbv -[String.length Peano.lt]; cbn [String.length]; lia).
Qed.

Lemma print_chars_length (s tail : string) :
  String.length tail ≤ String.length (print_chars s tail).
Proof.
  induction s as [|ch s IH]; cbn; [lia|].
  pose proof (print_char_length ch (print_chars s tail)). lia.
Qed.

Lemma print_string_length (s tail : string) :
  String.length tail < String.length (print_string s tail).
Proof.
  unfold print_string. cbn [String.length].
  pose proof (print_chars_length s (String dquote tail)) as Hlen.
  cbn [String.length] in Hlen. lia.
Qed.

Lemma print_scalar_length (x : json) (tail : string) :
  scalar x = true → String.length tail ≤ String.length (print x tail).
Proof.
  destruct x as [| | [n|] | s | |]; try discriminate; intros _; cbn [print number_toString].
  - rewrite length_append. lia.
  - pose proof (print_string_length s tail). lia.
Qed.

Lemma print_members_length (fields : list (string * json)) (tail : string) :
  Forall (λ kv, scalar kv.2 = true) fields →
  length fields + String.length tail ≤ String.length (print_members print fields tail).
Proof.
  induction fields as [|[k x] fields IH]; intros Hsc; [cbn; lia|].
  apply Forall_cons in Hsc as [Hx Hsc]. cbn in Hx. specialize (IH Hsc).
  destruct fields as [|kv fields].
  - cbn [print_members length].
    pose proof (print_string_length k (String ":" (print x tail))) as H1.
    pose proof (print_scalar_length x tail Hx) as H2.
    cbn [String.length] in H1. lia.
  - remember (kv :: fields) as more eqn:Hmore.
    assert (print_members print ((k, x) :: more) tail
            = print_string k (String ":" (print x (String "," (print_members print more tail)))))
      as -> by (subst more; reflexivity).
    pose proof (print_string_length k
      (String ":" (print x (String "," (print_members print more tail))))) as H1.
    pose proof (print_scalar_length x (String "," (print_members print more tail)) Hx) as H2.
    cbn [String.length length] in *. lia.
Qed.

Lemma parse_stringify_record (fields : list (string * json)) :
  NoDup fields.*1 → Forall (λ kv, scalar kv.2 = true) fields →
  parse (stringify (JObj fields)) = Some (JObj fields).
Proof.
  intros Hnd Hsc. unfold parse, stringify. cbn [print].
  set (text := print_members print fields (String "}" "")).
  cbn [String.length parse_value skip_ws].
  change (is_ws "{") with false. cbn iota.
  change (Ascii.eqb "{" "{") with true. cbn iota.
  destruct fields as [|[k x] fields].
  { reflexivity. }
  assert (∃ rest, text = String dquote rest) as [rest Htext].
  { subst text. destruct fields as [|kv fields]; cbn [print_members print_string]; eauto. }
  rewrite Htext. cbn [skip_ws]. change (is_ws dquote) with false. cbn iota.
  change (Ascii.eqb dquote "}") with false. cbn iota.
  rewrite <- Htext. subst text.
  rewrite parse_members_print; [| done | assumption |].
  - rewrite fold_add_field by assumption. reflexivity.
  - pose proof (print_members_length ((k, x) :: fields) (String "}" "") Hsc) as Hlen.
    cbn [String.length] in Hlen. lia.
Qed.


End ReferenceFacts.

Section Sha256Facts.
Import Reference.Sha256.

Lemma hex_digit_is_hex (n : Z) : 0 ≤ n < 16 → is_hex_digit (hex_digit n) = true.
Proof.
  intros Hn.
  assert (n = 0 ∨ n = 1 ∨ n = 2 ∨ n = 3 ∨ n = 4 ∨ n = 5 ∨ n = 6 ∨ n = 7 ∨ n = 8
          ∨ n = 9 ∨ n = 10 ∨ n = 11 ∨ n = 12 ∨ n = 13 ∨ n = 14 ∨ n = 15) as Hcases by lia.
  repeat (destruct Hcases as [-> | Hcases]; [reflexivity|]). subst n. reflexivity.
Qed.

Lemma hex32_length (w : Z) (tail : string) :
  String.length (hex32 w tail) = (8 + String.length tail)%nat.
Proof. reflexivity. Qed.

Lemma hex32_digits (w : Z) (tail : string) :
  all_chars is_hex_digit tail = true → all_chars is_hex_digit (hex32 w tail) = true.
Proof.
  intros Htail. unfold hex32. cbn [all_chars].
  rewrite !hex_digit_is_hex by (apply Z.mod_pos_bound; lia).
  exact Htail.
Qed.

Lemma hex_length (s : string) : String.length (hex s) = 64%nat.
Proof. unfold hex. rewrite !hex32_length. reflexivity. Qed.

Lemma hex_digits (s : string) : all_chars is_hex_digit (hex s) = true.
Proof. unfold hex. repeat apply hex32_digits. reflexivity. Qed.

End Sha256Facts.

Lemma reference_parse_stringify (fields : list (string * json)) :
  flat_record fields →
  Reference.Json.parse (Reference.Json.stringify (JObj fields)) = Some (JObj fields).
Proof.
  intros [Hnd Hfields]. apply parse_stringify_record; [exact Hnd|].
  eapply Forall_impl; [exact Hfields|]. intros kv [_ Hsc]. exact Hsc.
Qed.

(** The reference platform. *)
#[global] Instance reference : Platform := {|
  sha256_hex := Reference.Sha256.hex;
  sha256_hex_length := hex_length;
  sha256_hex_digits := hex_digits;
  base64url_encode := Reference.Base64Url.encode;
  base64url_decode := Reference.Base64Url.decode;
  base64url_decode_encode := decode_encode;
  JSON_stringify := Reference.Json.stringify;
  JSON_parse := Reference.Json.parse;
  JSON_parse_stringify := reference_parse_stringify;
  decodeURIComponent := Reference.Uri.decodeURIComponent;
  Buffer_base64_utf8 := Reference.NodeBuffer.base64_utf8;
  Date_toISOString := Reference.Clock.toISOString;
|}.

(** *** The reference platform on published vectors *)

Section ReferenceVectors.

(** FIPS 180-4: the empty message, one block, two blocks. *)
Example sha256_empty :
  Reference.Sha256.hex ""
  = "e3b0c44298fc1c149afbf4c8996fb92427ae41e4649b934ca495991b7852b855".
Proof. vm_compute. reflexivity. Qed.

Example sha256_abc :
  Reference.Sha256.hex "abc"
  = "ba7816bf8f01cfea414140de5dae2223b00361a396177a9cb410ff61f20015ad".
Proof. vm_compute. reflexivity. Qed.

Example sha256_two_blocks :
  Reference.Sha256.hex "abcdbcdecdefdefgefghfghighijhijkijkljklmklmnlmnomnopnopq"
  = "248d6a61d20638b8e5c026930c3e6039a33ce45964ff2167f6ecedd419db06c1".
Proof. vm_compute. reflexivity. Qed.

(** RFC 4648, section 10, without the padding. *)
Example base64url_vectors :
  List.map Reference.Base64Url.encode ["f"; "fo"; "foo"; "foob"; "fooba"; "foobar"]
  = ["Zg"; "Zm8"; "Zm9v"; "Zm9vYg"; "Zm9vYmE"; "Zm9vYmFy"].
Proof. vm_compute. reflexivity. Qed.

Example toISOString_vectors :
  Reference.Clock.toISOString 1700000000123 = "2023-11-14T22:13:20.123Z"
  ∧ Reference.Clock.toISOString 0 = "1970-01-01T00:00:00.000Z"
  ∧ Reference.Clock.toISOString 951782400000 = "2000-02-29T00:00:00.000Z".
Proof. vm_compute. repeat split; reflexivity. Qed.

Example decodeURIComponent_vectors :
  Reference.Uri.decodeURIComponent "%41bc%2D" = Some "Abc-"
  ∧ Reference.Uri.decodeURIComponent "100%" = None.
Proof. vm_compute. split; reflexivity. Qed.

End ReferenceVectors.

(** ** Strings, continued: [slice], [startsWith] and [replace] *)

Section MoreStrings.
Local Close Scope Z_scope.

Lemma substring_0_length (n : nat) (s : string) :
  n ≤ String.length s → String.length (substring 0 n s) = n.
Proof.
  revert s. induction n as [|n IH]; intros s Hlen.
  - destruct s; reflexivity.
  - destruct s as [|ch s]; cbn [String.length] in Hlen; [lia|].
    cbn [substring String.length]. rewrite IH by lia. reflexivity.
Qed.

Lemma substring_0_all_chars (p : ascii → bool) (n : nat) (s : string) :
  all_chars p s = true → all_chars p (substring 0 n s) = true.
Proof.
  revert s. induction n as [|n IH]; intros s Hall.
  - destruct s; reflexivity.
  - destruct s as [|ch s]; [reflexivity|].
    cbn [all_chars] in Hall. apply andb_true_iff in Hall as [Hch Hall].
    cbn [substring all_chars]. rewrite Hch, IH by assumption. reflexivity.
Qed.

Lemma slice_0_length (n : nat) (s : string) :
  n ≤ String.length s → String.length (slice 0 n s) = n.
Proof. unfold slice. rewrite Nat.sub_0_r. apply substring_0_length. Qed.

Lemma eqb_empty_false (s : string) : s ≠ "" → String.eqb s "" = false.
Proof. destruct s; [congruence | reflexivity]. Qed.

Lemma prefix_empty (s : string) : String.prefix "" s = true.
Proof. destruct s; reflexivity. Qed.

Lemma prefix_cons (ch : ascii) (p s : string) :
  String.prefix (String ch p) (String ch s) = String.prefix p s.
Proof. cbn [String.prefix]. destruct (ascii_dec ch ch); congruence. Qed.

Lemma prefix_append (p s : string) : String.prefix p (p +:+ s) = true.
Proof.
  induction p as [|ch p IH]; [apply prefix_empty|].
  rewrite append_cons, prefix_cons. exact IH.
Qed.

Lemma startsWith_scheme (encoded : string) : startsWith ("parchi:" +:+ encoded) "parchi:" = true.
Proof. apply prefix_append. Qed.

Lemma replace_scheme (encoded : string) : replace "parchi:" "" ("parchi:" +:+ encoded) = encoded.
Proof.
  change ("parchi:" +:+ encoded) with (String "p" ("archi:" +:+ encoded)).
  cbn [replace]. rewrite <- append_cons, prefix_append. reflexivity.
Qed.

End MoreStrings.

(** ** Numbers *)

Section NumberFacts.

(** The sign of a fraction is the sign of its digits. *)
Lemma positive_fraction (digits : Z) (places : positive) :
  number_ltb 0 (Dec digits places) = Z.ltb 0 digits.
Proof.
  unfold number_ltb, shifted, places_of. cbn [Z.max Z.compare].
  rewrite Z.sub_diag. cbn [Z.pow Z.mul]. rewrite Z.mul_1_r. reflexivity.
Qed.

Lemma number_leb_ltb (x y : number) : number_leb x y = negb (number_ltb y x).
Proof.
  destruct x as [a|d p], y as [b|d' p']; unfold number_leb, number_ltb;
    rewrite ?(Z.max_comm (places_of (Dec d' p'))), ?(Z.max_comm (places_of (Int b)));
    apply Z.leb_antisym.
Qed.

End NumberFacts.

(** ** The payload codec *)

Section QrFacts.
Context `{Platform}.
Import Qr QrSpec.

Lemma payload_flat (p : QRPayload) :
  flat_record [("v", JNum (v p)); ("e", JStr (e p)); ("t", JNum (t p));
               ("a", JStr (a p)); ("ts", JNum (ts p)); ("c", JStr (c p))].
Proof.
  split.
  - apply (bool_decide_unpack _). vm_compute. reflexivity.
  - repeat constructor.
Qed.

Lemma carried_encode_payload (p : QRPayload) :
  carried (encode_payload p) = Some (payload_json p).
Proof.
  unfold carried, encode_payload.
  rewrite startsWith_scheme, replace_scheme, base64url_decode_encode.
  apply JSON_parse_stringify, payload_flat.
Qed.

Lemma parseQRCode_carried (qrString : string) :
  parseQRCode qrString
  = if negb (startsWith qrString "parchi:") then Err InvalidQRFormat
    else match carried qrString with
         | None | Some JNull => Err DecodeError
         | Some decoded =>
             if negb (fields_present decoded) then Err MissingRequiredFields
             else if negb (is_one (prop decoded "v")) then Err UnsupportedQRVersion
             else if negb (positive_number (prop decoded "t")) then Err InvalidTicketNumber
             else if negb (positive_number (prop decoded "ts")) then Err InvalidTimestamp
             else Ok decoded
         end.
Proof.
  unfold parseQRCode, carried.
  destruct (startsWith qrString "parchi:"); [|reflexivity]. cbn [negb].
  destruct (base64url_decode _) as [decodedString|]; [|reflexivity]. cbn [mbind option_bind].
  destruct (JSON_parse decodedString) as [decoded|]; [|reflexivity].
  assert (∀ x, match as_number x with Some n => number_leb n 0 | None => true end
               = negb (positive_number x)) as Hpos.
  { intros x. unfold positive_number. destruct (as_number x) as [n|]; [|reflexivity].
    apply number_leb_ltb. }
  assert (∀ d, (negb (truthy (prop d "v")) || negb (truthy (prop d "e"))
                || negb (truthy (prop d "t")) || negb (truthy (prop d "a"))
                || negb (truthy (prop d "c")) || negb (truthy (prop d "ts")))
               = negb (fields_present d)) as Hfields.
  { intros d. unfold fields_present.
    destruct (truthy (prop d "v")), (truthy (prop d "e")), (truthy (prop d "t")),
      (truthy (prop d "a")), (truthy (prop d "c")), (truthy (prop d "ts")); reflexivity. }
  destruct decoded; rewrite ?Hfields, ?Hpos; reflexivity.
Qed.

Lemma generateTicketQR_encode (nowMs : Z) (eventId : string) (ticketNumber : Z)
    (assetPubkey : string) :
  generateTicketQR nowMs eventId ticketNumber assetPubkey
  = encode_payload
      {| v := 1; e := eventId; t := ticketNumber; a := slice 0 8 assetPubkey;
         ts := nowMs / 1000;
         c := calculateChecksum eventId ticketNumber assetPubkey (nowMs / 1000) |}.
Proof. reflexivity. Qed.

Lemma checksum_length (eventId : string) (ticketNumber : Z) (assetPubkey : string)
    (timestamp : Z) :
  String.length (calculateChecksum eventId ticketNumber assetPubkey timestamp) = 4%nat.
Proof.
  unfold calculateChecksum. apply slice_0_length. rewrite sha256_hex_length. lia.
Qed.

Lemma checksum_hex (eventId : string) (ticketNumber : Z) (assetPubkey : string)
    (timestamp : Z) :
  all_chars is_hex_digit (calculateChecksum eventId ticketNumber assetPubkey timestamp) = true.
Proof. unfold calculateChecksum, slice. apply substring_0_all_chars, sha256_hex_digits. Qed.

(** A payload whose six fields are well-formed is decoded, whatever its
    checksum is. *)
Lemma parse_encode_payload (p : QRPayload) :
  v p = 1 → e p ≠ "" → 0 < t p → a p ≠ "" → 0 < ts p → c p ≠ "" →
  parseQRCode (encode_payload p) = Ok (payload_json p).
Proof.
  intros Hv He Ht Ha Hts Hc.
  rewrite parseQRCode_carried, carried_encode_payload.
  unfold encode_payload. rewrite startsWith_scheme. cbn [negb].
  unfold payload_json, fields_present, positive_number, is_one, as_number, truthy.
  cbn [prop assoc String.eqb Ascii.eqb Bool.eqb number_eqb number_ltb].
  rewrite Hv, !eqb_empty_false by assumption.
  destruct (Z.eqb_spec (t p) 0); [lia|].
  destruct (Z.eqb_spec (ts p) 0); [lia|].
  destruct (Z.ltb_spec 0 (t p)); [|lia].
  destruct (Z.ltb_spec 0 (ts p)); [|lia].
  reflexivity.
Qed.

(** C4. Round trip: for a non-empty event id, a positive ticket number, an
    asset id of at least 8 characters and a clock past the first second,
    [parseQRCode] accepts what [generateTicketQR] produces and returns
    exactly [{v: 1, e: eventId, t: n, a: assetId[0:8], ts, c}], where [a]
    has 8 characters and [c] is the checksum computed at encode time, 4
    hexadecimal characters. *)
Theorem generate_parse_roundtrip (nowMs : Z) (eventId : string) (ticketNumber : Z)
    (assetPubkey : string) :
  eventId ≠ "" → 0 < ticketNumber → (8 ≤ String.length assetPubkey)%nat → 0 < nowMs / 1000 →
  let checksum := calculateChecksum eventId ticketNumber assetPubkey (nowMs / 1000) in
  parseQRCode (generateTicketQR nowMs eventId ticketNumber assetPubkey)
  = Ok (JObj [("v", JNum 1); ("e", JStr eventId); ("t", JNum ticketNumber);
              ("a", JStr (slice 0 8 assetPubkey)); ("ts", JNum (nowMs / 1000));
              ("c", JStr checksum)])
  ∧ String.length (slice 0 8 assetPubkey) = 8%nat
  ∧ String.length checksum = 4%nat
  ∧ all_chars is_hex_digit checksum = true.
Proof.
  intros He Ht Ha Hts checksum.
  pose proof (slice_0_length 8 assetPubkey Ha) as Hprefix.
  pose proof (checksum_length eventId ticketNumber assetPubkey (nowMs / 1000)) as Hsum.
  split; [|split; [exact Hprefix | split; [exact Hsum | apply checksum_hex]]].
  rewrite generateTicketQR_encode.
  rewrite parse_encode_payload; cbn [v e t a ts c];
    [reflexivity | reflexivity | assumption | assumption | | assumption | ].
  - intros Hempty. rewrite Hempty in Hprefix. discriminate.
  - intros Hempty. rewrite Hempty in Hsum. discriminate.
Qed.

(** C5, as the code has it. [validateQRIntegrity] checks the age of the
    payload first: it fails with 'QR code expired' exactly when the payload
    is older than a year. For a payload that is not, it fails with the
    tamper error exactly when the checksum of the payload differs from the
    first 4 hexadecimal characters of the SHA-256 of
    [eventId:ticketNumber:fullAssetId:issuedAt], with the prefix error
    exactly when the checksum agrees and the asset id does not start with
    the prefix of the payload, and succeeds otherwise. *)
Theorem validateQRIntegrity_outcomes (nowMs : Z) (qrData : QRPayload) (fullAssetPubkey : string) :
  let expired := maxAge < nowMs / 1000 - ts qrData in
  let expected :=
    slice 0 4 (sha256_hex (e qrData +:+ ":" +:+ Number_toString (t qrData) +:+ ":"
                           +:+ fullAssetPubkey +:+ ":" +:+ Number_toString (ts qrData))) in
  let outcome := validateQRIntegrity nowMs qrData fullAssetPubkey in
  (outcome = Err QRCodeExpired ↔ expired)
  ∧ (outcome = Err InvalidChecksum ↔ ¬ expired ∧ c qrData ≠ expected)
  ∧ (outcome = Err AssetPubkeyMismatch
     ↔ ¬ expired ∧ c qrData = expected ∧ startsWith fullAssetPubkey (a qrData) = false)
  ∧ (outcome = Ok tt
     ↔ ¬ expired ∧ c qrData = expected ∧ startsWith fullAssetPubkey (a qrData) = true)
  ∧ String.length expected = 4%nat
  ∧ all_chars is_hex_digit expected = true.
Proof.
  intros expired expected outcome.
  assert (String.length expected = 4%nat) as Hlen
    by apply (checksum_length (e qrData) (t qrData) fullAssetPubkey (ts qrData)).
  assert (all_chars is_hex_digit expected = true) as Hhex
    by apply (checksum_hex (e qrData) (t qrData) fullAssetPubkey (ts qrData)).
  subst outcome. unfold validateQRIntegrity.
  change (calculateChecksum (e qrData) (t qrData) fullAssetPubkey (ts qrData)) with expected.
  subst expired.
  destruct (Z.ltb_spec maxAge (nowMs / 1000 - ts qrData)) as [Hold | Hfresh].
  { repeat split; try done; try (intros [Hno _]; lia). }
  destruct (String.eqb_spec (c qrData) expected) as [Hc | Hc]; cbn [negb].
  - destruct (startsWith fullAssetPubkey (a qrData)) eqn:Hprefix; cbn [negb];
      repeat split; try done; try lia; try (intros [_ Hno]; congruence);
      try (intros (_ & _ & Hno); congruence).
  - repeat split; try done; try lia; try (intros (_ & Hno & _); congruence).
Qed.

Lemma null_or_not (x : json) : x = JNull ∨ x ≠ JNull.
Proof. destruct x; auto; right; discriminate. Qed.

Ltac break_hyps :=
  repeat match goal with
    | Hx : ∃ _, _ |- _ => destruct Hx
    | Hx : _ ∧ _ |- _ => destruct Hx
    | Hx : _ ∨ _ |- _ => destruct Hx
    | Hx : Err _ = Err _ |- _ => injection Hx as <-
    | Hx : Ok _ = Ok _ |- _ => injection Hx as <-
    | Hx : Some _ = Some _ |- _ => injection Hx as <-
    end.

Lemma carried_scheme (qrString : string) (decoded : json) :
  carried qrString = Some decoded → startsWith qrString "parchi:" = true.
Proof. unfold carried. destruct (startsWith qrString "parchi:"); [reflexivity | discriminate]. Qed.

Lemma carried_no_scheme (qrString : string) :
  startsWith qrString "parchi:" = false → carried qrString = None.
Proof. unfold carried. intros ->. reflexivity. Qed.

(** The outcome of [parseQRCode], case by case, in the order of the
    checks. *)
Lemma parseQRCode_cases (qrString : string) :
  (startsWith qrString "parchi:" = false ∧ parseQRCode qrString = Err InvalidQRFormat)
  ∨ (startsWith qrString "parchi:" = true ∧ carried qrString = None
     ∧ parseQRCode qrString = Err DecodeError)
  ∨ (carried qrString = Some JNull ∧ parseQRCode qrString = Err DecodeError)
  ∨ ∃ decoded, carried qrString = Some decoded ∧ decoded ≠ JNull
      ∧ ((fields_present decoded = false
          ∧ parseQRCode qrString = Err MissingRequiredFields)
         ∨ (fields_present decoded = true ∧ is_one (prop decoded "v") = false
            ∧ parseQRCode qrString = Err UnsupportedQRVersion)
         ∨ (fields_present decoded = true ∧ is_one (prop decoded "v") = true
            ∧ positive_number (prop decoded "t") = false
            ∧ parseQRCode qrString = Err InvalidTicketNumber)
         ∨ (fields_present decoded = true ∧ is_one (prop decoded "v") = true
            ∧ positive_number (prop decoded "t") = true
            ∧ positive_number (prop decoded "ts") = false
            ∧ parseQRCode qrString = Err InvalidTimestamp)
         ∨ (fields_present decoded = true ∧ is_one (prop decoded "v") = true
            ∧ positive_number (prop decoded "t") = true
            ∧ positive_number (prop decoded "ts") = true
            ∧ parseQRCode qrString = Ok decoded)).
Proof.
  rewrite parseQRCode_carried.
  destruct (startsWith qrString "parchi:") eqn:Hscheme; cbn [negb]; [|left; done].
  right. destruct (carried qrString) as [decoded|] eqn:Hcarried; [|left; done].
  right. destruct (null_or_not decoded) as [-> | Hnull]; [left; done|].
  right. exists decoded. split; [reflexivity|]. split; [assumption|].
  destruct (fields_present decoded), (is_one (prop decoded "v")),
    (positive_number (prop decoded "t")), (positive_number (prop decoded "ts"));
    cbn [negb]; destruct decoded; try congruence; tauto.
Qed.

(** C6, as the code has it. [parseQRCode] fails with a malformed-payload
    error exactly when the scheme is absent, a decoder rejects the text,
    the decoded value is [null], one of [v], [e], [t], [a], [c], [ts] is
    missing or falsy, or the version is 1 and [t] or [ts] is not a number
    above zero. It fails with the unsupported-version error exactly when
    the six fields are present, none is falsy, and [v] is not the number 1.
    It succeeds, returning the decoded value, in the remaining case; the
    checksum is only required to be there: a payload with well-formed
    fields is decoded whatever its checksum says. A number above zero need
    not be an integer: an integer [n] is one when [0 < n], and a fraction
    [digits / 10 ^ places] is one when [0 < digits]. *)
Theorem parseQRCode_outcomes (qrString : string) :
  let outcome := parseQRCode qrString in
  ((∃ err, outcome = Err err ∧ failure_of err = MalformedPayload)
   ↔ startsWith qrString "parchi:" = false
     ∨ carried qrString = None
     ∨ carried qrString = Some JNull
     ∨ ∃ decoded, carried qrString = Some decoded
         ∧ (fields_present decoded = false
            ∨ is_one (prop decoded "v") = true
              ∧ (positive_number (prop decoded "t") = false
                 ∨ positive_number (prop decoded "ts") = false)))
  ∧ ((∃ err, outcome = Err err ∧ failure_of err = UnsupportedVersion)
     ↔ ∃ decoded, carried qrString = Some decoded ∧ decoded ≠ JNull
         ∧ fields_present decoded = true ∧ is_one (prop decoded "v") = false)
  ∧ (∀ decoded, outcome = Ok decoded
     ↔ carried qrString = Some decoded ∧ decoded ≠ JNull
       ∧ fields_present decoded = true ∧ is_one (prop decoded "v") = true
       ∧ positive_number (prop decoded "t") = true
       ∧ positive_number (prop decoded "ts") = true)
  ∧ (∀ p : QRPayload,
       v p = 1 → e p ≠ "" → 0 < t p → a p ≠ "" → 0 < ts p → c p ≠ "" →
       parseQRCode (encode_payload p) = Ok (payload_json p))
  ∧ (∀ n : Z, positive_number (Some (JNum n)) = Z.ltb 0 n)
  ∧ (∀ digits places, positive_number (Some (JNum (Dec digits places))) = Z.ltb 0 digits).
Proof.
  intros outcome. subst outcome.
  split; [|split; [|split; [|split; [exact parse_encode_payload|]]]];
    [| | | split; [reflexivity | apply positive_fraction]];
    [| | intros decoded'];
    destruct (parseQRCode_cases qrString)
      as [[Hs ->] | [(Hs & Hc & ->) | [(Hc & ->) | (d & Hc & Hnull & Hcase)]]];
    try destruct Hcase
      as [[Hf ->] | [(Hf & Ho & ->) | [(Hf & Ho & Ht & ->) | [(Hf & Ho & Ht & Hts & ->)
          | (Hf & Ho & Ht & Hts & ->)]]]];
    try (rewrite Hs); unfold failure_of.
  all: try (apply carried_scheme in Hc as Hs; rewrite Hs).
  all: try (rewrite (carried_no_scheme _ Hs)).
  all: rewrite ?Hc.
  all: split; intros; break_hyps; try discriminate; try congruence.
  all: try (eexists; repeat split; try reflexivity; try assumption; fail).
  all: try (repeat split; try reflexivity; try assumption; fail).
  all: try (do 3 right; eexists; split; [reflexivity|]; auto; fail).
  all: try (right; auto; fail).
  all: left; reflexivity.
Qed.

End QrFacts.

(** ** The verify endpoint *)

Section VerifyFacts.
Context `{Platform}.
Import Verify VerifySpec.

Lemma given_default (s : option string) :
  given s = true → s = Some (default "" s) ∧ ¬ (default "" s = "").
Proof.
  destruct s as [s|]; [|discriminate]. cbn.
  destruct (String.eqb_spec s ""); [discriminate|]. auto.
Qed.

Lemma given_Some (s : string) : given (Some s) = negb (String.eqb s "").
Proof. reflexivity. Qed.

(** The response of the handler and the store it leaves, case by case, in
    the order of the checks. *)
Lemma POST_cases (now : Z) (b : Body) (db : DB) :
  let vid := default "" (verificationId b) in
  let out := POST now (Some b) db in
  (given (ticketId b) = false ∧ given (verificationId b) = false
   ∧ out = (failed missing_ticket_or_verification_id, db))
  ∨ (given (ticketId b) = false ∧ given (verificationId b) = true
     ∧ gateVerifications db !! vid = None
     ∧ out = (failed verification_record_not_found, db))
  ∨ ∃ rid, resolved b db = Some rid
      ∧ ((rid = "" ∧ out = (failed could_not_resolve_ticket_id, db))
         ∨ (rid ≠ "" ∧ status_of rid db ≠ Some ACTIVE
            ∧ out = (failed already_redeemed_or_invalid, db))
         ∨ ∃ row, rid ≠ "" ∧ tickets db !! rid = Some row ∧ status row = ACTIVE
             ∧ ((given (verificationId b) = true ∧ gateVerifications db !! vid = None
                 ∧ out = (failed verification_record_not_found, db))
                ∨ (∃ existing, given (verificationId b) = true
                     ∧ gateVerifications db !! vid = Some existing
                     ∧ gv_ticketId existing ≠ rid
                     ∧ out = (failed verification_ticket_mismatch, db))
                ∨ (∃ existing, given (verificationId b) = true
                     ∧ gateVerifications db !! vid = Some existing
                     ∧ gv_ticketId existing = rid
                     ∧ out = (verified_and_used rid vid,
                              after_update now b rid row vid existing db))
                ∨ (given (verificationId b) = false ∧ eventId row ∈ events db
                   ∧ out = (verified_and_used rid (fresh (dom (gateVerifications db))),
                            after_create now b rid row db))
                ∨ (given (verificationId b) = false ∧ (eventId row ∉ events db)
                   ∧ out = (failed server_error, db)))).
Proof.
  intros vid out. subst out. unfold POST, resolved.
  destruct (given (ticketId b)) eqn:Htid; destruct (given (verificationId b)) eqn:Hvid;
    cbn [negb andb]; [| | | left; done].
  all: right.
  3:{ (* the ticket is the one of the record *)
    unfold transaction, body_of_transaction, tx_bind, read, throw, tx_ret,
      gateVerification_findUnique.
    rewrite Htid, Hvid. cbn [negb andb]. fold vid.
    destruct (gateVerifications db !! vid) as [existing|] eqn:Hex; [|left; done].
    right. exists (gv_ticketId existing). split; [reflexivity|].
    rewrite given_Some.
    destruct (String.eqb_spec (gv_ticketId existing) "") as [Hrid | Hrid]; cbn [negb].
    { left. done. }
    right. cbn [from_option id]. unfold write, ticket_updateMany, status_of.
    destruct (tickets db !! gv_ticketId existing) as [row|] eqn:Hrow; cbn [fmap option_fmap option_map].
    2:{ left. split; [done|]. split; [done|]. reflexivity. }
    destruct (decide (status row = ACTIVE)) as [Hst | Hst].
    2:{ left. split; [done|]. split; [congruence|]. reflexivity. }
    right. exists row. split; [done|]. split; [done|]. split; [done|].
    cbn [Z.eqb]. unfold ticket_findUnique, with_tickets. cbn [tickets gateVerifications].
    rewrite ?lookup_insert_eq, Hex, String.eqb_refl. cbn [negb].
    right. right. left. exists existing. done. }
  - (* both ids *)
    unfold transaction, body_of_transaction, tx_bind, read, throw, tx_ret,
      gateVerification_findUnique.
    rewrite Htid. cbn [negb andb]. rewrite Htid. cbn [negb].
    destruct (given_default _ Htid) as [Hsome Hrid]. set (rid := default "" (ticketId b)) in *.
    right. exists rid. split; [assumption|]. right.
    unfold write, ticket_updateMany, status_of.
    destruct (tickets db !! rid) as [row|] eqn:Hrow; cbn [fmap option_fmap option_map].
    2:{ left. done. }
    destruct (decide (status row = ACTIVE)) as [Hst | Hst].
    2:{ left. split; [done|]. split; [congruence|]. reflexivity. }
    right. exists row. split; [done|]. split; [done|]. split; [done|].
    cbn [Z.eqb]. rewrite Hvid. fold vid.
    unfold ticket_findUnique, with_tickets. cbn [tickets gateVerifications].
    rewrite ?lookup_insert_eq.
    destruct (gateVerifications db !! vid) as [existing|] eqn:Hex; [|left; done].
    right. destruct (String.eqb_spec (gv_ticketId existing) rid) as [Heq | Hne]; cbn [negb].
    + right. left. exists existing. done.
    + left. exists existing. done.
  - (* the ticket id alone *)
    unfold transaction, body_of_transaction, tx_bind, read, throw, tx_ret.
    rewrite Htid. cbn [negb andb]. rewrite Htid. cbn [negb].
    destruct (given_default _ Htid) as [Hsome Hrid]. set (rid := default "" (ticketId b)) in *.
    right. exists rid. split; [assumption|]. right.
    unfold write, ticket_updateMany, status_of.
    destruct (tickets db !! rid) as [row|] eqn:Hrow; cbn [fmap option_fmap option_map].
    2:{ left. done. }
    destruct (decide (status row = ACTIVE)) as [Hst | Hst].
    2:{ left. split; [done|]. split; [congruence|]. reflexivity. }
    right. exists row. split; [done|]. split; [done|]. split; [done|].
    cbn [Z.eqb]. rewrite Hvid.
    unfold ticket_findUnique, with_tickets, gateVerification_create, with_gateVerifications.
    cbn [tickets gateVerifications events].
    assert (<[rid:=markUsed now row]> (tickets db) !! rid = Some (markUsed now row)) as Hl
      by apply lookup_insert_eq.
    rewrite Hl.
    cbn [fmap option_fmap option_map markUsed eventId gv_eventId gv_ticketId created_row].
    do 3 right. destruct (decide (eventId row ∈ events db)) as [Hev | Hev].
    + left. split; [done|]. split; [done|].
      rewrite decide_True by (split; [done | eexists; apply lookup_insert_eq]).
      reflexivity.
    + right. split; [done|]. split; [done|].
      rewrite decide_False by tauto. reflexivity.
Qed.

(** What one call does to the store: nothing, or the two writes of a
    redemption. *)
Lemma POST_effect (now : Z) (body : option Body) (db : DB) :
  let out := POST now body db in
  ((∃ err, out.1 = failed err) ∧ out.2 = db)
  ∨ ∃ rid vid row record,
      out.1 = verified_and_used rid vid
      ∧ tickets db !! rid = Some row ∧ status row = ACTIVE
      ∧ gv_ticketId record = rid ∧ gv_status record = VERIFIED
      ∧ (∀ old, gateVerifications db !! vid = Some old → gv_ticketId old = rid)
      ∧ out.2 = {| events := events db;
                   tickets := <[rid := markUsed now row]> (tickets db);
                   gateVerifications := <[vid := record]> (gateVerifications db) |}.
Proof.
  intros out. subst out. destruct body as [b|]; [|left; cbn; eauto].
  destruct (POST_cases now b db)
    as [(_ & _ & ->) | [(_ & _ & _ & ->) | (rid & Hres & Hcase)]];
    [left; cbn; eauto .. |].
  destruct Hcase as [[_ ->] | [(_ & _ & ->) | (row & Hrid & Hrow & Hst & Hcase)]];
    [left; cbn; eauto .. |].
  destruct Hcase
    as [(_ & _ & ->) | [(ex & _ & _ & _ & ->) | [(ex & _ & Hex & Hm & ->)
        | [(_ & _ & ->) | (_ & _ & ->)]]]];
    [left; cbn; eauto .. | | |left; cbn; eauto].
  - right. exists rid, (default "" (verificationId b)), row, (updated_row now b ex).
    cbn. repeat split; try done. intros old Hold. congruence.
  - right. exists rid, (fresh (dom (gateVerifications db))), row,
      (created_row now b (eventId row) rid).
    cbn. repeat split; try done. intros old Hold.
    pose proof (is_fresh (dom (gateVerifications db))) as Hfresh.
    exfalso. apply Hfresh, elem_of_dom. eauto.
Qed.

(** C3. The transition of the ticket and the VERIFIED record are one
    unit. A verify call either fails and leaves the store as it was, or it
    succeeds and the store differs in exactly two rows: the ticket, which
    was ACTIVE and is USED, and the record of the response, which is
    VERIFIED and is a record of that ticket. So a store in which every USED
    ticket has a VERIFIED record, and every VERIFIED record belongs to a
    USED ticket, is left in such a state by every verify call. *)
Theorem verify_atomic (now : Z) (body : option Body) (db : DB) :
  consistent db →
  ∀ response db', POST now body db = (response, db') →
    (((∃ err, response = failed err) ∧ db' = db)
     ∨ ∃ rid vid row record,
         response = verified_and_used rid vid
         ∧ tickets db !! rid = Some row ∧ status row = ACTIVE
         ∧ gv_ticketId record = rid ∧ gv_status record = VERIFIED
         ∧ db' = {| events := events db;
                    tickets := <[rid := markUsed now row]> (tickets db);
                    gateVerifications := <[vid := record]> (gateVerifications db) |})
    ∧ consistent db'.
Proof.
  intros [Hused Hverified] response db' Hout.
  pose proof (POST_effect now body db) as Heffect. cbn zeta in Heffect.
  rewrite Hout in Heffect. cbn [fst snd] in Heffect.
  destruct Heffect as [[Herr ->] | (rid & vid & row & record & -> & Hrow & Hst
                                     & Hticket & Hstatus & Hold & ->)].
  { split; [left; done | split; assumption]. }
  split.
  { right. exists rid, vid, row, record. done. }
  split; cbn [tickets gateVerifications].
  - intros tid row' Hlookup Hstatus'.
    destruct (decide (rid = tid)) as [<- | Hne].
    + exists vid, record. rewrite lookup_insert_eq. done.
    + rewrite lookup_insert_ne in Hlookup by assumption.
      destruct (Hused tid row' Hlookup Hstatus') as (vid0 & record0 & Hrec & Htid & Hst0).
      exists vid0, record0. split; [|done].
      rewrite lookup_insert_ne; [assumption|].
      intros <-. apply Hne. rewrite <- Htid. symmetry. eauto.
  - intros vid' record' Hlookup Hstatus'.
    destruct (decide (vid = vid')) as [<- | Hne].
    + rewrite lookup_insert_eq in Hlookup. injection Hlookup as <-.
      rewrite Hticket, lookup_insert_eq. eauto.
    + rewrite lookup_insert_ne in Hlookup by assumption.
      destruct (Hverified vid' record' Hlookup Hstatus') as (row0 & Hrow0 & Hst0).
      exists row0. split; [|assumption].
      rewrite lookup_insert_ne; [assumption|].
      intros Heq. rewrite <- Heq, Hrow in Hrow0. injection Hrow0 as <-. congruence.
Qed.

(** C8, as the code has it. The handler checks in this order, stopping
    at the first failure and leaving the store untouched by a failure:
    (1) it resolves the ticket id, from [ticketId] or else from the record
    of [verificationId], failing with [verification_record_not_found];
    (2) it attempts the conditional transition, failing with
    [already_redeemed_or_invalid] when the ticket is not ACTIVE or does
    not exist, whatever [verificationId] says; (3) it reads the event of
    the ticket; (4) when a [verificationId] was given it confirms that the
    record exists and is a record of that ticket, failing with
    [verification_record_not_found] or [verification_ticket_mismatch];
    (5) it updates that record to VERIFIED, or creates a VERIFIED record,
    and returns the two ids. *)
Theorem verify_order (now : Z) (b : Body) (db : DB) :
  let vid := default "" (verificationId b) in
  let out := POST now (Some b) db in
  (given (ticketId b) = false → given (verificationId b) = true →
     gateVerifications db !! vid = None →
     out = (failed verification_record_not_found, db))
  ∧ ∀ rid, (given (ticketId b) = true ∨ given (verificationId b) = true) →
      resolved b db = Some rid → rid ≠ "" →
      (status_of rid db ≠ Some ACTIVE → out = (failed already_redeemed_or_invalid, db))
      ∧ ∀ row, tickets db !! rid = Some row → status row = ACTIVE →
          (given (verificationId b) = true → gateVerifications db !! vid = None →
             out = (failed verification_record_not_found, db))
          ∧ (∀ existing, given (verificationId b) = true →
               gateVerifications db !! vid = Some existing → gv_ticketId existing ≠ rid →
               out = (failed verification_ticket_mismatch, db))
          ∧ (∀ existing, given (verificationId b) = true →
               gateVerifications db !! vid = Some existing → gv_ticketId existing = rid →
               out = (verified_and_used rid vid, after_update now b rid row vid existing db))
          ∧ (given (verificationId b) = false → eventId row ∈ events db →
               out = (verified_and_used rid (fresh (dom (gateVerifications db))),
                      after_create now b rid row db)).
Proof.
  intros vid out. subst vid out.
  destruct (POST_cases now b db)
    as [(Ht & Hv & Hout) | [(Ht & Hv & Hnone & Hout) | (rid' & Hres & Hcase)]].
  - split; [congruence|]. intros rid [Hg | Hg]; congruence.
  - split; [done|]. intros rid _ Hres. unfold resolved in Hres.
    rewrite Ht, Hnone in Hres. discriminate.
  - split.
    { intros Ht Hv Hnone. unfold resolved in Hres. rewrite Ht, Hnone in Hres. discriminate. }
    intros rid Hgiven Hres' Hrid. rewrite Hres in Hres'. injection Hres' as ->.
    destruct Hcase as [[-> _] | [(_ & Hst & Hout) | (row & _ & Hrow & Hst & Hcase)]];
      [done | |].
    + split; [done|]. intros row Hrow Hactive. exfalso. apply Hst.
      unfold status_of. rewrite Hrow. cbn. congruence.
    + split.
      { intros Hno. exfalso. apply Hno. unfold status_of. rewrite Hrow. cbn. congruence. }
      intros row' Hrow' _. rewrite Hrow in Hrow'. injection Hrow' as <-.
      destruct Hcase
        as [(Hv & Hnone & Hout) | [(ex & Hv & Hex & Hm & Hout) | [(ex & Hv & Hex & Hm & Hout)
            | [(Hv & Hev & Hout) | (Hv & Hev & Hout)]]]];
        (repeat split; [intros .. ]; try congruence; try done).
Qed.

(** A call about a ticket that is not ACTIVE is refused, and writes
    nothing. *)
Lemma POST_not_active (now : Z) (b : Body) (db : DB) (rid : string) :
  (given (ticketId b) = true ∨ given (verificationId b) = true) →
  resolved b db = Some rid → rid ≠ "" → status_of rid db ≠ Some ACTIVE →
  POST now (Some b) db = (failed already_redeemed_or_invalid, db).
Proof.
  intros Hgiven Hres Hrid Hst.
  destruct (POST_cases now b db)
    as [(Ht & Hv & _) | [(Ht & Hv & Hnone & _) | (rid' & Hres' & Hcase)]].
  - destruct Hgiven; congruence.
  - unfold resolved in Hres. rewrite Ht, Hnone in Hres. discriminate.
  - rewrite Hres in Hres'. injection Hres' as <-.
    destruct Hcase as [[-> _] | [(_ & _ & Hout) | (row & _ & Hrow & Hactive & _)]];
      [done | exact Hout |].
    exfalso. apply Hst. unfold status_of. rewrite Hrow. cbn. congruence.
Qed.

Lemma targets_resolved (tid : string) (db : DB) (b : Body) :
  targets tid db b →
  (given (ticketId b) = true ∨ given (verificationId b) = true) ∧ resolved b db = Some tid.
Proof.
  intros (Hgiven & Htid & Hvid). split; [assumption|]. unfold resolved.
  destruct (given (ticketId b)) eqn:Ht; [auto|].
  destruct Hgiven as [Hg | Hg]; [discriminate|].
  destruct (Hvid Hg) as (record & -> & <-). reflexivity.
Qed.

(** C2, as the code has it. After a verify call with a [verificationId]
    has succeeded, a second call with the same [verificationId] (and with
    no [ticketId], or with the id of that ticket) does not return the
    success again: it fails with [already_redeemed_or_invalid]. It does not
    redeem again: the store is left as it was, so the ticket is still USED
    with the [usedAt] of the first call. *)
Theorem reverify_rejected (now now' : Z) (b b' : Body) (db db' : DB) (rid vid : string) :
  given (verificationId b) = true →
  POST now (Some b) db = (verified_and_used rid vid, db') →
  verificationId b' = verificationId b →
  (given (ticketId b') = false ∨ ticketId b' = Some rid) →
  POST now' (Some b') db' = (failed already_redeemed_or_invalid, db')
  ∧ ∃ row, tickets db' !! rid = Some row ∧ status row = USED ∧ usedAt row = Some now.
Proof.
  intros Hv Hout Hsame Hticket.
  destruct (POST_cases now b db)
    as [(_ & _ & Hout') | [(_ & _ & _ & Hout') | (rid' & Hres & Hcase)]];
    [congruence .. |].
  destruct Hcase as [[_ Hout'] | [(_ & _ & Hout') | (row & Hrid & Hrow & Hst & Hcase)]];
    [congruence .. |].
  destruct Hcase
    as [(_ & _ & Hout') | [(ex & _ & _ & _ & Hout') | [(ex & _ & Hex & Hm & Hout')
        | [(Hv' & _) | (Hv' & _)]]]];
    [congruence .. | | congruence | congruence].
  rewrite Hout in Hout'. injection Hout' as -> -> ->.
  assert (tickets (after_update now b rid' row (default "" (verificationId b)) ex db) !! rid'
          = Some (markUsed now row)) as Hused by apply lookup_insert_eq.
  split; [|eauto].
  apply (POST_not_active _ _ _ rid'); [| | assumption |].
  - right. rewrite Hsame. assumption.
  - unfold resolved. destruct Hticket as [-> | Hsome].
    + rewrite Hsame. cbn [after_update gateVerifications].
      rewrite lookup_insert_eq. cbn. congruence.
    + rewrite Hsome, given_Some. destruct (String.eqb_spec rid' ""); [done | reflexivity].
  - unfold status_of. rewrite Hused. cbn. discriminate.
Qed.

End VerifyFacts.

(** ** Calls that run at the same time *)

Section ConcurrentMaps.
Import Concurrent.

Lemma own_lookup {A : Type} (i : nat) (pending : gmap string (nat * A)) (key : string) :
  own i pending !! key
  = match pending !! key with
    | Some written => if decide (written.1 = i) then Some written.2 else None
    | None => None
    end.
Proof. unfold own. rewrite lookup_omap. destruct (pending !! key); reflexivity. Qed.

Lemma overlay_lookup {A : Type} (i : nat) (pending : gmap string (nat * A))
    (shared : gmap string A) (key : string) :
  (own i pending ∪ shared) !! key
  = match pending !! key with
    | Some written => if decide (written.1 = i) then Some written.2 else shared !! key
    | None => shared !! key
    end.
Proof.
  rewrite lookup_union, own_lookup.
  destruct (pending !! key) as [written|]; [destruct (decide _)|];
    destruct (shared !! key); reflexivity.
Qed.

Lemma release_lookup {A : Type} (i : nat) (pending : gmap string (nat * A)) (key : string) :
  release i pending !! key
  = match pending !! key with
    | Some written => if decide (written.1 = i) then None else Some written
    | None => None
    end.
Proof.
  unfold release. destruct (pending !! key) as [written|] eqn:Hkey.
  - destruct (decide (written.1 = i)) as [Hi | Hi].
    + apply map_lookup_filter_None. right. intros written' Hkey'. cbn.
      rewrite Hkey in Hkey'. injection Hkey' as <-. tauto.
    + apply map_lookup_filter_Some. split; [assumption | exact Hi].
  - apply map_lookup_filter_None. left. assumption.
Qed.

Lemma locked_false {A : Type} (i : nat) (key : string) (pending : gmap string (nat * A)) :
  locked i key pending = false ↔ ∀ j row, pending !! key = Some (j, row) → j = i.
Proof.
  unfold locked. destruct (pending !! key) as [[j row]|]; cbn.
  - rewrite negb_false_iff, Nat.eqb_eq. split.
    + intros -> j' row' [= <- <-]. reflexivity.
    + intros Hj. apply (Hj j row). reflexivity.
  - split; [intros _ j row; discriminate | reflexivity].
Qed.

End ConcurrentMaps.

Section ConcurrentFacts.
Context `{Platform}.
Import Verify VerifySpec Concurrent ConcurrentSpec.

Variable tid : string.
Variable db : DB.
Variable row0 : Ticket.
Hypothesis Htid : tid ≠ "".
Hypothesis Hrow0 : tickets db !! tid = Some row0.
Hypothesis Hactive : status row0 = ACTIVE.
Hypothesis Hevent : eventId row0 ∈ events db.

#[local] Abbreviation Will := (ConcurrentSpec.Will tid db (eventId row0)).
#[local] Abbreviation Inv := (ConcurrentSpec.Inv tid db (eventId row0)).
#[local] Abbreviation recorded := (ConcurrentSpec.recorded tid db).
#[local] Abbreviation holder := (ConcurrentSpec.holder tid).

Lemma given_tid : given (Some tid) = true.
Proof. cbn. destruct (String.eqb_spec tid ""); [contradiction | reflexivity]. Qed.

(** From the transition on, for a call about the ticket. *)
Lemma will_redeem (n : nat) (now : Z) (b : Body) :
  (given (verificationId b) = true → recorded (default "" (verificationId b))) →
  Will waiting (S (S (S (S (S n)))))
    (let+ count := tx_ticket_updateMany tid ACTIVE (markUsed now) in
     if Z.eqb count 0 then Throw tx_already_redeemed_or_invalid
     else
       let+ ticketRow := tx_ticket_findUnique tid in
       let eventId := eventId <$> ticketRow in
       if given (verificationId b) then
         let verificationId := default "" (verificationId b) in
         let+ existing := tx_gateVerification_findUnique verificationId in
         match existing with
         | None => Throw tx_verification_record_not_found
         | Some existing =>
             if negb (String.eqb (gv_ticketId existing) tid)
             then Throw tx_verification_ticket_mismatch
             else
               let+ _ :=
                 tx_gateVerification_update verificationId (updated_row now b existing) in
               Return {| res_ticketId := tid;
                         res_verificationId := verificationId;
                         createdOrUpdated := "updated" |}
         end
       else
         match eventId with
         | None => Throw tx_storage_error
         | Some eventId =>
             let+ created :=
               tx_gateVerification_create (created_row now b eventId tid) in
             match created with
             | None => Throw tx_storage_error
             | Some verificationId =>
                 Return {| res_ticketId := tid;
                           res_verificationId := verificationId;
                           createdOrUpdated := "created" |}
             end
         end).
Proof.
  intros Hrecord. cbn [bind tx_ticket_updateMany].
  apply will_mark; [intros row; split; reflexivity | apply will_throw |].
  cbn [Z.eqb bind tx_ticket_findUnique].
  apply will_find_ticket. intros row Hrow. cbn [fmap option_fmap option_map].
  destruct (given (verificationId b)) eqn:Hv.
  - cbn [bind tx_gateVerification_findUnique].
    apply will_find_record; [auto|]. intros record Hticket.
    rewrite Hticket, String.eqb_refl. cbn [negb bind tx_gateVerification_update].
    apply will_update; [auto | exact Hticket |]. apply will_return. reflexivity.
  - rewrite Hrow. cbn [bind tx_gateVerification_create].
    apply will_create; [reflexivity | reflexivity |]. intros verificationId.
    apply will_return. reflexivity.
Qed.

Lemma program_will (now : Z) (b : Body) :
  targets tid db b → Will waiting 6 (program now b).
Proof.
  intros (Hgiven & Hticket & Hrecord). unfold program.
  destruct (given (ticketId b)) eqn:Ht.
  - specialize (Hticket eq_refl). cbn [negb andb bind]. rewrite Ht. cbn [negb].
    rewrite Hticket. cbn [default from_option id].
    apply (will_redeem 1 now b Hrecord).
  - destruct Hgiven as [Hgiven | Hgiven]; [discriminate|]. rewrite Hgiven at 1.
    cbn [negb andb bind tx_gateVerification_findUnique].
    apply will_find_record; [exact (Hrecord Hgiven)|]. intros record Hrec.
    cbn [bind]. rewrite Hrec, given_tid. cbn [negb default from_option id].
    apply (will_redeem 0 now b Hrecord).
Qed.

End ConcurrentFacts.

Section ConcurrentInvariant.
Context `{Platform}.
Import Verify VerifySpec Concurrent ConcurrentSpec.
Local Close Scope Z_scope.

Variable tid : string.
Variable db : DB.
Variable row0 : Ticket.
Hypothesis Htid : tid ≠ "".
Hypothesis Hrow0 : tickets db !! tid = Some row0.
Hypothesis Hactive : status row0 = ACTIVE.
Hypothesis Hevent : eventId row0 ∈ events db.

#[local] Abbreviation Will := (ConcurrentSpec.Will tid db (eventId row0)).
#[local] Abbreviation Inv := (ConcurrentSpec.Inv tid db (eventId row0)).
#[local] Abbreviation recorded := (ConcurrentSpec.recorded tid db).
#[local] Abbreviation holder := (ConcurrentSpec.holder tid).

Lemma sum_list_insert (bounds : list nat) :
  ∀ i n n', bounds !! i = Some n → n' < n → sum_list (<[i := n']> bounds) < sum_list bounds.
Proof.
  induction bounds as [|x bounds IH]; intros i n n' Hi Hlt; [discriminate|].
  destruct i as [|i].
  - injection Hi as ->. cbn. lia.
  - cbn. apply Nat.add_lt_mono_l. exact (IH i n n' Hi Hlt).
Qed.

Lemma inv_start (requests : list (Z * Body)) :
  Forall (λ call, targets tid db call.2) requests →
  Inv (replicate (length requests) 6) (start requests db).
Proof.
  intros Htargets.
  assert (∀ j call, calls (start requests db) !! j = Some call →
            ∃ request, targets tid db request.2 ∧ call = running (program request.1 request.2))
    as Hcalls.
  { intros j call Hj. cbn [start calls] in Hj. rewrite list_lookup_fmap in Hj.
    destruct (requests !! j) as [request|] eqn:Hrequest; [|discriminate].
    injection Hj as <-. exists request.
    pose proof (proj1 (Forall_lookup _ _) Htargets j request Hrequest) as Htarget.
    split; [exact Htarget|]. unfold begin.
    destruct Htarget as ([-> | ->] & _); cbn [negb andb]; [reflexivity|].
    rewrite andb_false_r. reflexivity. }
  split.
  - reflexivity.
  - exists row0. auto.
  - intros verificationId Hrecorded. exact Hrecorded.
  - intros key j row Hkey. cbn in Hkey. rewrite lookup_empty in Hkey. discriminate.
  - intros key j record Hkey. cbn in Hkey. rewrite lookup_empty in Hkey. discriminate.
  - cbn [start calls]. rewrite length_replicate, length_fmap. reflexivity.
  - intros j call n Hj Hn. apply lookup_replicate in Hn as [-> _].
    destruct (Hcalls j call Hj) as (request & Htarget & ->).
    exists waiting. split; [|split].
    + apply (program_will tid db row0 Htid). exact Htarget.
    + split; [discriminate|]. intros [row Hrow]. cbn in Hrow.
      rewrite lookup_empty in Hrow. discriminate.
    + discriminate.
  - left. split.
    + unfold status_of. cbn [start committed]. rewrite Hrow0. cbn. congruence.
    + intros j response Hj. destruct (Hcalls j _ Hj) as (request & _ & Hcall). discriminate.
Qed.

Lemma insert_lookup {A : Type} (l : list A) (i j : nat) (x : A) :
  i < length l → <[i := x]> l !! j = if decide (j = i) then Some x else l !! j.
Proof.
  intros Hi. destruct (decide (j = i)) as [-> | Hne].
  - apply list_lookup_insert_eq, Hi.
  - apply list_lookup_insert_ne. congruence.
Qed.

(** A step that leaves the store as it is. *)
Lemma inv_resume (bounds : list nat) (st : State) (i n : nat) (rest rest' : Program TxResult)
    (m' : Mode) :
  Inv bounds st → calls st !! i = Some (running rest) → bounds !! i = Some (S n) →
  Will m' n rest' → (m' = holding ↔ holder i st) →
  (m' = refused → status_of tid (committed st) = Some USED) →
  Inv (<[i := n]> bounds) (set_call i (running rest') st).
Proof.
  intros [Hev Hticket Hrecords Hpt Hpr Hlen Hcalls Haccount] Hi Hn Hwill Hholding Hrefused.
  pose proof (lookup_lt_Some _ _ _ Hi) as Hlt.
  pose proof (lookup_lt_Some _ _ _ Hn) as Hlt'.
  split; cbn [set_call committed pending_tickets pending_records calls]; try assumption.
  - intros key j row Hkey. destruct (Hpt key j row Hkey) as (-> & Hused & Hevt & Hst & rest0 & Hj).
    split; [reflexivity|]. do 3 (split; [assumption|]).
    rewrite insert_lookup by assumption. destruct (decide (j = i)); eauto.
  - rewrite !length_insert. assumption.
  - intros j call k. rewrite !insert_lookup by assumption.
    destruct (decide (j = i)) as [-> | Hne].
    + intros [= <-] [= <-]. exists m'. auto.
    + apply Hcalls.
  - destruct Haccount as [[Hst Hnone] | (Hst & i0 & vid & Hi0 & Hothers)]; [left | right].
    + split; [assumption|]. intros j response. rewrite insert_lookup by assumption.
      destruct (decide (j = i)); [discriminate | apply Hnone].
    + split; [assumption|]. exists i0, vid.
      assert (i0 ≠ i) as Hne by (intros ->; rewrite Hi in Hi0; discriminate).
      split.
      * rewrite insert_lookup by assumption. destruct (decide (i0 = i)); [contradiction | assumption].
      * intros j response Hj. rewrite insert_lookup by assumption.
        destruct (decide (j = i)); [discriminate | apply Hothers, Hj].
Qed.

(** The holder writes a record of the ticket. *)
Lemma inv_write_record (bounds : list nat) (st : State) (i : nat) (verificationId : string)
    (row : GateVerification) :
  Inv bounds st → holder i st → gv_ticketId row = tid →
  Inv bounds (write_record i verificationId row st).
Proof.
  intros [Hev Hticket Hrecords Hpt Hpr Hlen Hcalls Haccount] Hholder Hrow.
  split; cbn [write_record committed pending_tickets pending_records calls]; try assumption.
  intros key j record Hkey.
  apply lookup_insert_Some in Hkey as [[_ [= <- <-]] | [_ Hkey]]; [split; assumption|].
  apply (Hpr key j record Hkey).
Qed.

(** The transition: a call that waits finds the ticket ACTIVE and not
    locked, and writes it. *)
Lemma inv_write_ticket (bounds : list nat) (st : State) (i n : nat)
    (rest rest' : Program TxResult) (row : Ticket) :
  Inv bounds st → calls st !! i = Some (running rest) → bounds !! i = Some (S n) →
  pending_tickets st !! tid = None →
  status_of tid (committed st) = Some ACTIVE →
  status row = USED → eventId row = eventId row0 →
  Will holding n rest' →
  Inv (<[i := n]> bounds) (set_call i (running rest') (write_ticket i tid row st)).
Proof.
  intros [Hev Hticket Hrecords Hpt Hpr Hlen Hcalls Haccount] Hi Hn Hfree Hst Hused Hevt Hwill.
  pose proof (lookup_lt_Some _ _ _ Hi) as Hlt.
  pose proof (lookup_lt_Some _ _ _ Hn) as Hlt'.
  assert (∀ j, holder j st → False) as Hnobody.
  { intros j [row' Hrow']. congruence. }
  assert (∀ j, holder j (set_call i (running rest') (write_ticket i tid row st)) ↔ j = i)
    as Hholder.
  { intros j. unfold ConcurrentSpec.holder. cbn. rewrite lookup_insert_eq.
    split; [intros [row' [= -> _]]; reflexivity | intros ->; eauto]. }
  split; cbn [set_call write_ticket committed pending_tickets pending_records calls];
    try assumption.
  - intros key j row' Hkey.
    apply lookup_insert_Some in Hkey as [[<- [= <- <-]] | [_ Hkey]].
    + split; [reflexivity|]. do 3 (split; [assumption|]).
      rewrite insert_lookup by assumption. rewrite decide_True by reflexivity. eauto.
    + destruct (Hpt key j row' Hkey) as (-> & _). congruence.
  - intros key j record Hkey. destruct (Hpr key j record Hkey) as [_ Hj].
    destruct (Hnobody j Hj).
  - rewrite !length_insert. assumption.
  - intros j call k. rewrite !insert_lookup by assumption.
    destruct (decide (j = i)) as [-> | Hne].
    + intros [= <-] [= <-]. exists holding. split; [assumption|].
      split; [|discriminate]. split; [intros _; apply Hholder; reflexivity | reflexivity].
    + intros Hj Hk. specialize (Hcalls j call k Hj Hk). destruct call as [restj|response];
        [|assumption].
      destruct Hcalls as (m & Hm & Hmode & Hrefused). exists m. split; [assumption|].
      split; [|assumption]. split.
      * intros Hholding. destruct (Hnobody j). apply Hmode, Hholding.
      * intros Hj'. apply Hholder in Hj'. contradiction.
  - destruct Haccount as [[_ Hnone] | (Hst' & _)]; [left | congruence].
    split; [assumption|]. intros j response. rewrite insert_lookup by assumption.
    destruct (decide (j = i)); [discriminate | apply Hnone].
Qed.

Lemma holder_unique (st : State) (i j : nat) : holder i st → holder j st → i = j.
Proof. intros [row Hi] [row' Hj]. congruence. Qed.

(** The end of the transaction of the holder. *)
Lemma inv_commit (bounds : list nat) (st : State) (i n : nat) (result : TxResult) :
  Inv bounds st → calls st !! i = Some (running (Return result)) → bounds !! i = Some (S n) →
  holder i st → res_ticketId result = tid →
  Inv (<[i := 0]> bounds)
    (set_call i
       (finished (verified_and_used (res_ticketId result) (res_verificationId result)))
       (commit i st)).
Proof.
  intros [Hev Hticket Hrecords Hpt Hpr Hlen Hcalls Haccount] Hi Hn Hholder Hresult.
  pose proof (lookup_lt_Some _ _ _ Hi) as Hlt.
  pose proof (lookup_lt_Some _ _ _ Hn) as Hlt'.
  destruct Hholder as [row Hrow]. rewrite Hresult.
  destruct (Hpt tid i row Hrow) as (_ & Hused & Hevt & Hst & _).
  assert (status_of tid (view i st) = Some USED) as Hview.
  { unfold status_of. cbn [view tickets]. rewrite overlay_lookup, Hrow. cbn [fst snd].
    rewrite decide_True by reflexivity. cbn. congruence. }
  assert (∀ j, j ≠ i → holder j st → False) as Hothers.
  { intros j Hne Hj. apply Hne. apply (holder_unique st j i Hj). exists row. exact Hrow. }
  split; cbn [set_call commit committed pending_tickets pending_records calls].
  - exact Hev.
  - exists row. cbn [view tickets]. rewrite overlay_lookup, Hrow. cbn [fst snd].
    rewrite decide_True by reflexivity. auto.
  - intros verificationId Hrecorded. cbn [view gateVerifications]. rewrite overlay_lookup.
    destruct (pending_records st !! verificationId) as [[j record]|] eqn:Hpending;
      [|apply Hrecords, Hrecorded].
    cbn [fst snd]. destruct (decide (j = i)); [|apply Hrecords, Hrecorded].
    exists record. split; [reflexivity|]. apply (Hpr verificationId j record Hpending).
  - intros key j row' Hkey. rewrite release_lookup in Hkey.
    destruct (pending_tickets st !! key) as [[j' row'']|] eqn:Hpending; [|discriminate].
    cbn [fst] in Hkey. destruct (decide (j' = i)) as [-> | Hne]; [discriminate|].
    destruct (Hpt key j' row'' Hpending) as (-> & _). congruence.
  - intros key j record Hkey. rewrite release_lookup in Hkey.
    destruct (pending_records st !! key) as [[j' record']|] eqn:Hpending; [|discriminate].
    cbn [fst] in Hkey. destruct (decide (j' = i)) as [-> | Hne]; [discriminate|].
    destruct (Hpr key j' record' Hpending) as [_ Hj']. destruct (Hothers j' Hne Hj').
  - rewrite !length_insert. assumption.
  - intros j call k. rewrite !insert_lookup by assumption.
    destruct (decide (j = i)) as [-> | Hne].
    + intros [= <-] [= <-]. split; [reflexivity|]. right. eauto.
    + intros Hj Hk. specialize (Hcalls j call k Hj Hk). destruct call as [restj|response];
        [|assumption].
      destruct Hcalls as (m & Hm & Hmode & Hrefused). exists m. split; [assumption|].
      split; [|intros _; exact Hview]. split.
      * intros Hholding. destruct (Hothers j Hne). apply Hmode, Hholding.
      * intros [row' Hrow']. cbn in Hrow'. rewrite release_lookup, Hrow in Hrow'.
        cbn [fst] in Hrow'. rewrite decide_True in Hrow' by reflexivity. discriminate.
  - right. split; [exact Hview|]. exists i, (res_verificationId result).
    rewrite insert_lookup by assumption. rewrite decide_True by reflexivity.
    split; [reflexivity|]. intros j response Hne. rewrite insert_lookup by assumption.
    rewrite decide_False by assumption. intros Hj.
    destruct Haccount as [[_ Hnone] | [Hst' _]]; [destruct (Hnone j response Hj) | congruence].
Qed.

(** A call that found the ticket used throws. *)
Lemma inv_rollback (bounds : list nat) (st : State) (i n : nat) (err : TxError) :
  Inv bounds st → calls st !! i = Some (running (Throw err)) → bounds !! i = Some (S n) →
  status_of tid (committed st) = Some USED →
  Inv (<[i := 0]> bounds)
    (set_call i (finished (failed already_redeemed_or_invalid)) (rollback i st)).
Proof.
  intros [Hev Hticket Hrecords Hpt Hpr Hlen Hcalls Haccount] Hi Hn Hst.
  pose proof (lookup_lt_Some _ _ _ Hi) as Hlt.
  pose proof (lookup_lt_Some _ _ _ Hn) as Hlt'.
  assert (∀ key j row, pending_tickets st !! key = Some (j, row) → False) as Hnone.
  { intros key j row Hkey. destruct (Hpt key j row Hkey) as (_ & _ & _ & Hactive' & _).
    congruence. }
  assert (∀ j st', pending_tickets st' = release i (pending_tickets st) →
            holder j st' → False) as Hnobody.
  { intros j st' Hst' [row Hrow]. rewrite Hst', release_lookup in Hrow.
    destruct (pending_tickets st !! tid) as [[j' row']|] eqn:Hpending; [|discriminate].
    apply (Hnone tid j' row' Hpending). }
  split; cbn [set_call rollback committed pending_tickets pending_records calls];
    try assumption.
  - intros key j row Hkey. rewrite release_lookup in Hkey.
    destruct (pending_tickets st !! key) as [[j' row']|] eqn:Hpending; [|discriminate].
    destruct (Hnone key j' row' Hpending).
  - intros key j record Hkey. rewrite release_lookup in Hkey.
    destruct (pending_records st !! key) as [[j' record']|] eqn:Hpending; [|discriminate].
    destruct (Hpr key j' record' Hpending) as [_ [row Hrow]].
    destruct (Hnone tid j' row Hrow).
  - rewrite !length_insert. assumption.
  - intros j call k. rewrite !insert_lookup by assumption.
    destruct (decide (j = i)) as [-> | Hne].
    + intros [= <-] [= <-]. split; [reflexivity|]. left. reflexivity.
    + intros Hj Hk. specialize (Hcalls j call k Hj Hk). destruct call as [restj|response];
        [|assumption].
      destruct Hcalls as (m & Hm & Hmode & Hrefused). exists m. split; [assumption|].
      split; [|assumption]. split.
      * intros Hholding. apply Hmode in Hholding as [row Hrow].
        destruct (Hnone tid j row Hrow).
      * intros Hj'. exfalso. eapply Hnobody; [|exact Hj']. reflexivity.
  - destruct Haccount as [[Hactive' _] | (_ & i0 & vid & Hi0 & Hothers)]; [congruence|].
    right. split; [assumption|]. exists i0, vid.
    assert (i0 ≠ i) as Hne by (intros ->; rewrite Hi in Hi0; discriminate).
    split.
    + rewrite insert_lookup by assumption. rewrite decide_False by assumption. exact Hi0.
    + intros j response Hj. rewrite insert_lookup by assumption.
      destruct (decide (j = i)); [intros [= <-]; reflexivity | apply Hothers, Hj].
Qed.

Lemma view_record (bounds : list nat) (st : State) (i : nat) (verificationId : string) :
  Inv bounds st → recorded verificationId →
  ∃ record, gateVerification_findUnique verificationId (view i st) = Some record
            ∧ gv_ticketId record = tid.
Proof.
  intros Hinv Hrecorded. unfold gateVerification_findUnique. cbn [view gateVerifications].
  rewrite overlay_lookup.
  destruct (pending_records st !! verificationId) as [[j record]|] eqn:Hpending;
    [|apply (inv_records _ _ _ _ _ Hinv), Hrecorded].
  cbn [fst snd]. destruct (decide (j = i)); [|apply (inv_records _ _ _ _ _ Hinv), Hrecorded].
  exists record. split; [reflexivity|].
  apply (inv_pending_records _ _ _ _ _ Hinv verificationId j record Hpending).
Qed.

Lemma view_ticket_of_holder (st : State) (i : nat) (row : Ticket) :
  pending_tickets st !! tid = Some (i, row) → tickets (view i st) !! tid = Some row.
Proof.
  intros Hrow. cbn [view tickets]. rewrite overlay_lookup, Hrow. cbn [fst snd].
  rewrite decide_True by reflexivity. reflexivity.
Qed.

Lemma view_ticket_of_other (st : State) (i : nat) :
  ¬ holder i st → tickets (view i st) !! tid = tickets (committed st) !! tid.
Proof.
  intros Hno. cbn [view tickets]. rewrite overlay_lookup.
  destruct (pending_tickets st !! tid) as [[j row]|] eqn:Hrow; [|reflexivity].
  cbn [fst snd]. destruct (decide (j = i)) as [-> | Hne]; [|reflexivity].
  destruct Hno. exists row. exact Hrow.
Qed.

(** Every step keeps the invariant and uses up the bound of its call. *)
Lemma inv_step (bounds : list nat) (st st' : State) (i : nat) :
  Inv bounds st → step i st = Some st' →
  ∃ bounds', Inv bounds' st' ∧ sum_list bounds' < sum_list bounds.
Proof.
  intros Hinv Hstep. unfold step in Hstep.
  destruct (calls st !! i) as [[rest|response]|] eqn:Hi; [|discriminate ..].
  destruct (lookup_lt_is_Some_2 bounds i) as [n0 Hn0].
  { rewrite (inv_bounds _ _ _ _ _ Hinv). apply (lookup_lt_Some _ _ _ Hi). }
  destruct (inv_calls _ _ _ _ _ Hinv i _ n0 Hi Hn0) as (m & Hwill & Hmode & Hrefused).
  inversion Hwill as [n | n result Hresult | m0 n verificationId continue Hrecorded Hnext
                      | n data continue Hdata Hzero Hone | n continue Hnext
                      | n verificationId row continue Hrecorded Hrow Hnext
                      | n row continue Hrowe Hrowt Hnext]; subst m n0 rest.
  - (* throw *)
    injection Hstep as <-. exists (<[i := 0]> bounds). split.
    + apply (inv_rollback bounds st i n _ Hinv Hi Hn0). apply Hrefused. reflexivity.
    + apply (sum_list_insert bounds i (S n)); [assumption | lia].
  - (* return *)
    injection Hstep as <-. exists (<[i := 0]> bounds). split.
    + apply (inv_commit bounds st i n result Hinv Hi Hn0); [|exact Hresult].
      apply Hmode. reflexivity.
    + apply (sum_list_insert bounds i (S n)); [assumption | lia].
  - (* a record is read *)
    injection Hstep as <-. exists (<[i := n]> bounds). split.
    + destruct (view_record bounds st i verificationId Hinv Hrecorded)
        as (record & -> & Hticket).
      apply (inv_resume bounds st i n _ _ m0 Hinv Hi Hn0); auto.
    + apply (sum_list_insert bounds i (S n)); [assumption | lia].
  - (* the transition *)
    assert (¬ holder i st) as Hno by (intros Hholder; apply Hmode in Hholder; discriminate).
    rewrite (view_ticket_of_other st i Hno) in Hstep.
    destruct (inv_ticket _ _ _ _ _ Hinv) as (row & Hrow & Hevt & Hstatus).
    rewrite Hrow in Hstep. exists (<[i := n]> bounds).
    split; [|apply (sum_list_insert bounds i (S n)); [assumption | lia]].
    destruct (decide (status row = ACTIVE)) as [Hst | Hst].
    + destruct (locked i tid (pending_tickets st)) eqn:Hlocked; [discriminate|].
      injection Hstep as <-.
      assert (pending_tickets st !! tid = None) as Hfree.
      { destruct (pending_tickets st !! tid) as [[j row']|] eqn:Hpending; [|reflexivity].
        destruct Hno. exists row'. rewrite Hpending.
        rewrite (proj1 (locked_false i tid (pending_tickets st)) Hlocked j row' Hpending).
        reflexivity. }
      apply (inv_write_ticket bounds st i n _ _ (data row) Hinv Hi Hn0 Hfree).
      * unfold status_of. rewrite Hrow. cbn. congruence.
      * apply Hdata.
      * rewrite <- Hevt. apply Hdata.
      * exact Hone.
    + injection Hstep as <-.
      assert (status_of tid (committed st) = Some USED) as Hused.
      { unfold status_of. rewrite Hrow. cbn. destruct Hstatus; congruence. }
      apply (inv_resume bounds st i n _ _ refused Hinv Hi Hn0); auto.
      split; [discriminate | intros Hholder; destruct (Hno Hholder)].
  - (* the ticket is read *)
    injection Hstep as <-. exists (<[i := n]> bounds).
    split; [|apply (sum_list_insert bounds i (S n)); [assumption | lia]].
    destruct (proj1 Hmode eq_refl) as [row Hrow].
    unfold ticket_findUnique. rewrite (view_ticket_of_holder st i row Hrow).
    apply (inv_resume bounds st i n _ _ holding Hinv Hi Hn0); auto.
    apply Hnext. apply (inv_pending_tickets _ _ _ _ _ Hinv tid i row Hrow).
  - (* the record is updated *)
    pose proof (proj1 Hmode eq_refl) as Hholder.
    assert (locked i verificationId (pending_records st) = false) as Hlocked.
    { apply locked_false. intros j record Hpending.
      apply (holder_unique st j i); [|assumption].
      apply (inv_pending_records _ _ _ _ _ Hinv verificationId j record Hpending). }
    rewrite Hlocked in Hstep. injection Hstep as <-. exists (<[i := n]> bounds).
    split; [|apply (sum_list_insert bounds i (S n)); [assumption | lia]].
    eapply (inv_resume bounds (write_record i verificationId row st) i n _ _ holding);
      [apply inv_write_record; assumption | exact Hi | exact Hn0 | exact Hnext
      | exact Hmode | exact Hrefused].
  - (* a record is created *)
    destruct (proj1 Hmode eq_refl) as [ticket Hticket].
    rewrite decide_True in Hstep.
    2:{ split.
        - cbn [view events]. rewrite (inv_events _ _ _ _ _ Hinv), Hrowe. exact Hevent.
        - rewrite Hrowt, (view_ticket_of_holder st i ticket Hticket). eauto. }
    cbn zeta in Hstep. injection Hstep as <-. exists (<[i := n]> bounds).
    split; [|apply (sum_list_insert bounds i (S n)); [assumption | lia]].
    match goal with
    | |- context [write_record i ?id row st] =>
        eapply (inv_resume bounds (write_record i id row st) i n _ _ holding);
          [apply inv_write_record; [assumption | exists ticket; exact Hticket | assumption]
          | exact Hi | exact Hn0 | apply Hnext | exact Hmode | exact Hrefused]
    end.
Qed.

Lemma inv_exec (schedule : list nat) :
  ∀ bounds st, Inv bounds st → ∃ bounds', Inv bounds' (exec schedule st).
Proof.
  induction schedule as [|i more IH]; intros bounds st Hinv; [eauto|].
  cbn [exec]. destruct (step i st) as [st'|] eqn:Hstep; cbn [default from_option id].
  - destruct (inv_step bounds st st' i Hinv Hstep) as (bounds' & Hinv' & _).
    apply (IH bounds' st' Hinv').
  - apply (IH bounds st Hinv).
Qed.

(** No deadlock: while a call is running, some call can move. *)
Lemma inv_progress (bounds : list nat) (st : State) (j : nat) (rest : Program TxResult) :
  Inv bounds st → calls st !! j = Some (running rest) → ∃ i st', step i st = Some st'.
Proof.
  intros Hinv Hj.
  assert (∀ i resti, calls st !! i = Some (running resti) →
            ∃ n m, Will m n resti ∧ (m = holding ↔ holder i st)) as Hwill.
  { intros i resti Hi. destruct (lookup_lt_is_Some_2 bounds i) as [n Hn].
    { rewrite (inv_bounds _ _ _ _ _ Hinv). apply (lookup_lt_Some _ _ _ Hi). }
    destruct (inv_calls _ _ _ _ _ Hinv i _ n Hi Hn) as (m & Hm & Hmode & _). eauto. }
  destruct (pending_tickets st !! tid) as [[h row]|] eqn:Hpending.
  - (* the holder can move *)
    destruct (inv_pending_tickets _ _ _ _ _ Hinv tid h row Hpending)
      as (_ & _ & _ & _ & resth & Hh).
    destruct (Hwill h resth Hh) as (n & m & Hm & Hmode).
    assert (m = holding) as -> by (apply Hmode; exists row; exact Hpending).
    exists h. unfold step. rewrite Hh.
    inversion Hm as [| n' result Hresult | m0 n' verificationId continue Hrecorded Hnext
                     | | n' continue Hnext
                     | n' verificationId row' continue Hrecorded Hrow Hnext
                     | n' row' continue Hrowe Hrowt Hnext]; subst n resth; eauto.
    + assert (locked h verificationId (pending_records st) = false) as ->; [|eauto].
      apply locked_false. intros k record Hk.
      apply (holder_unique st k h); [|exists row; exact Hpending].
      apply (inv_pending_records _ _ _ _ _ Hinv verificationId k record Hk).
    + destruct (decide _); eauto.
  - (* nobody holds the lock: any running call can move *)
    destruct (Hwill j rest Hj) as (n & m & Hm & Hmode).
    assert (¬ holder j st) as Hno by (intros [row Hrow]; congruence).
    exists j. unfold step. rewrite Hj.
    inversion Hm as [n' | n' result Hresult | m0 n' verificationId continue Hrecorded Hnext
                     | n' data continue Hdata Hzero Hone | n' continue Hnext
                     | n' verificationId row' continue Hrecorded Hrow Hnext
                     | n' row' continue Hrowe Hrowt Hnext]; subst n rest; eauto;
      try (subst m; destruct Hno; apply Hmode; reflexivity).
    destruct (tickets (view j st) !! tid) as [row|]; [|eauto].
    destruct (decide (status row = ACTIVE)); [|eauto].
    unfold locked. rewrite Hpending. eauto.
Qed.

Lemma finished_or_running (l : list Call) :
  Forall (λ call, is_Some (response_of call)) l ∨ ∃ j rest, l !! j = Some (running rest).
Proof.
  induction l as [|call l IH]; [left; constructor|].
  destruct call as [rest|response]; [right; exists 0, rest; reflexivity|].
  destruct IH as [IH | (j & rest & Hj)].
  - left. constructor; [cbn; eauto | exact IH].
  - right. exists (S j), rest. exact Hj.
Qed.

(** Every run can be completed. *)
Lemma inv_completes (budget : nat) :
  ∀ bounds st, sum_list bounds ≤ budget → Inv bounds st →
    ∃ more, all_finished (exec more st).
Proof.
  induction budget as [|budget IH]; intros bounds st Hsum Hinv.
  - destruct (finished_or_running (calls st)) as [Hdone | (j & rest & Hj)];
      [exists []; exact Hdone|].
    destruct (inv_progress bounds st j rest Hinv Hj) as (i & st' & Hstep).
    destruct (inv_step bounds st st' i Hinv Hstep) as (bounds' & _ & Hless). lia.
  - destruct (finished_or_running (calls st)) as [Hdone | (j & rest & Hj)];
      [exists []; exact Hdone|].
    destruct (inv_progress bounds st j rest Hinv Hj) as (i & st' & Hstep).
    destruct (inv_step bounds st st' i Hinv Hstep) as (bounds' & Hinv' & Hless).
    destruct (IH bounds' st') as [more Hmore]; [lia | exact Hinv' |].
    exists (i :: more). cbn [exec]. rewrite Hstep. exact Hmore.
Qed.

End ConcurrentInvariant.

Section ConcurrentRuns.
Context `{Platform}.
Import Verify VerifySpec Concurrent ConcurrentSpec.
Local Close Scope Z_scope.

Lemma step_length (i : nat) (st st' : State) :
  step i st = Some st' → length (calls st') = length (calls st).
Proof.
  unfold step. intros Hstep.
  repeat case_match; simplify_eq; cbn; apply length_insert.
Qed.

Lemma exec_length (schedule : list nat) :
  ∀ st, length (calls (exec schedule st)) = length (calls st).
Proof.
  induction schedule as [|i more IH]; intros st; [reflexivity|].
  cbn [exec]. rewrite IH. destruct (step i st) as [st'|] eqn:Hstep; [|reflexivity].
  apply (step_length i st st' Hstep).
Qed.

End ConcurrentRuns.

(** ** A call on its own *)

Section Alone.
Context `{Platform}.
Import Verify VerifySpec Concurrent Sequential.
Local Close Scope Z_scope.

Lemma in_sequence_bind {A B : Type} (m : Program A) (k : A → Program B) :
  ∀ db, in_sequence (bind m k) db
        = match in_sequence m db with
          | (Ok x, db') => in_sequence (k x) db'
          | (Err err, db') => (Err err, db')
          end.
Proof.
  induction m as [x | err | verificationId continue IH | ticketId expected data continue IH
                  | ticketId continue IH | verificationId row continue IH | row continue IH
                  | ticketId data continue IH]; intros db;
    cbn [bind in_sequence]; try reflexivity; unfold tx_bind, read, write;
    try apply IH.
  - destruct (ticket_updateMany ticketId expected data db) as [db' count]. apply IH.
  - destruct (gateVerification_create row db) as [[verificationId db']|]; apply IH.
  - destruct (tickets db !! ticketId); apply IH.
Qed.

Ltac sequence_step :=
  repeat (progress
            (cbn [negb andb bind in_sequence tx_gateVerification_findUnique
                  tx_ticket_updateMany tx_ticket_findUnique tx_gateVerification_update
                  tx_gateVerification_create fst snd];
             unfold tx_bind, read, write, throw, tx_ret)).

(** The statements of [program], run in sequence, are the callback of the
    handler. *)
Lemma program_in_sequence (now : Z) (b : Body) (db : DB) :
  in_sequence (program now b) db = body_of_transaction now b db.
Proof.
  unfold program, body_of_transaction.
  destruct (given (ticketId b)) eqn:Ht; destruct (given (verificationId b)) eqn:Hv;
    sequence_step; rewrite ?Ht; sequence_step.
  4: reflexivity.
  3: destruct (gateVerification_findUnique _ db) as [existing|]; [|reflexivity];
     sequence_step; destruct (given (Some (gv_ticketId existing))); [|reflexivity];
     sequence_step.
  all: match goal with
       | |- context [ticket_updateMany ?t ?e ?d ?store] =>
           destruct (ticket_updateMany t e d store) as [db1 count]
       end;
       sequence_step; destruct (Z.eqb count 0); [reflexivity|]; sequence_step.
  all: try (destruct (gateVerification_findUnique _ db1) as [existing'|]; [|reflexivity];
            destruct (negb _); reflexivity).
  destruct (ticket_findUnique _ db1) as [row|]; [|reflexivity].
  sequence_step. cbn [fmap option_fmap option_map in_sequence].
  destruct (gateVerification_create _ db1) as [[verificationId db2]|]; reflexivity.
Qed.

Lemma overlay_insert {A : Type} (i : nat) (key : string) (x : A)
    (pending : gmap string (nat * A)) (shared : gmap string A) :
  own i (<[key := (i, x)]> pending) ∪ shared = <[key := x]> (own i pending ∪ shared).
Proof.
  apply map_eq. intros key'. rewrite overlay_lookup.
  destruct (decide (key = key')) as [<- | Hne].
  - rewrite !lookup_insert_eq. cbn. rewrite decide_True by reflexivity. reflexivity.
  - rewrite !lookup_insert_ne by assumption. rewrite overlay_lookup. reflexivity.
Qed.

Lemma owned_insert {A : Type} (i : nat) (key : string) (x : A)
    (pending : gmap string (nat * A)) :
  owned i pending → owned i (<[key := (i, x)]> pending).
Proof.
  intros Hown key' j y Hkey.
  apply lookup_insert_Some in Hkey as [[_ [= <- _]] | [_ Hkey]]; [reflexivity|].
  apply (Hown key' j y Hkey).
Qed.

Lemma release_own {A : Type} (i : nat) (pending : gmap string (nat * A)) :
  owned i pending → release i pending = ∅.
Proof.
  intros Hown. apply map_eq. intros key. rewrite release_lookup, lookup_empty.
  destruct (pending !! key) as [[j x]|] eqn:Hkey; [|reflexivity].
  cbn [fst]. rewrite decide_True by (apply (Hown key j x Hkey)). reflexivity.
Qed.

Lemma overlay_empty {A : Type} (i : nat) (shared : gmap string A) :
  own i (∅ : gmap string (nat * A)) ∪ shared = shared.
Proof.
  apply map_eq. intros key. rewrite overlay_lookup, lookup_empty. reflexivity.
Qed.

Lemma owned_not_locked {A : Type} (i : nat) (key : string) (pending : gmap string (nat * A)) :
  owned i pending → locked i key pending = false.
Proof. intros Hown. apply locked_false. intros j x. apply Hown. Qed.

Lemma owned_dom {A : Type} (i : nat) (pending : gmap string (nat * A)) :
  owned i pending → dom (own i pending) = dom pending.
Proof.
  intros Hown. apply set_eq. intros key. rewrite !elem_of_dom, own_lookup.
  destruct (pending !! key) as [[j x]|] eqn:Hkey; cbn [fst snd].
  - rewrite decide_True by (apply (Hown key j x Hkey)). split; eauto.
  - split; intros [? ?]; discriminate.
Qed.

(** A call that runs alone: its steps are its statements in sequence, its
    answer is the result, and what it commits is what they wrote. *)
Lemma alone_in_sequence (p : Program TxResult) :
  ∀ db wt wr d,
    owned 0 wt → owned 0 wr → view 0 (alone db wt wr (running p)) = d →
    ∃ k, exec (replicate k 0) (alone db wt wr (running p))
         = match in_sequence p d with
           | (Ok result, d') =>
               alone d' ∅ ∅
                 (finished (verified_and_used (res_ticketId result) (res_verificationId result)))
           | (Err err, _) => alone db ∅ ∅ (finished (failed (error_of err)))
           end.
Proof.
  induction p as [result | err | verificationId continue IH
                  | ticketId expected data continue IH | ticketId continue IH
                  | verificationId row continue IH | row continue IH
                  | ticketId data continue IH]; intros db wt wr d Hwt Hwr Hview.
  - exists 1. cbn [replicate exec step alone calls lookup list_lookup default from_option id
                   in_sequence tx_ret].
    unfold set_call, commit, alone. cbn [committed pending_tickets pending_records calls].
    rewrite !release_own by assumption. rewrite <- Hview. reflexivity.
  - exists 1. cbn [replicate exec step alone calls lookup list_lookup default from_option id
                   in_sequence throw].
    unfold set_call, rollback, alone. cbn [committed pending_tickets pending_records calls].
    rewrite !release_own by assumption. reflexivity.
  - destruct (IH (gateVerification_findUnique verificationId d) db wt wr d Hwt Hwr)
      as [k Hk]; [exact Hview|].
    exists (S k). cbn [replicate exec in_sequence]. unfold tx_bind, read.
    rewrite <- Hk. f_equal.
    unfold step. cbn [alone calls lookup list_lookup]. rewrite Hview. reflexivity.
  - cbn [in_sequence]. unfold tx_bind, write, ticket_updateMany.
    assert (tickets (view 0 (alone db wt wr
                               (running (UpdateManyTickets ticketId expected data continue))))
              !! ticketId = tickets d !! ticketId) as Hrow by (rewrite Hview; reflexivity).
    destruct (tickets d !! ticketId) as [row|] eqn:Hd.
    2:{ destruct (IH 0%Z db wt wr d Hwt Hwr) as [k Hk]; [exact Hview|].
        exists (S k). cbn [replicate exec]. rewrite <- Hk. f_equal.
        unfold step. cbn [alone calls lookup list_lookup]. cbn [alone] in Hrow.
        rewrite Hrow. reflexivity. }
    destruct (decide (status row = expected)) as [Hst | Hst].
    + destruct (IH 1%Z db (<[ticketId := (0, data row)]> wt) wr
                  (with_tickets d (<[ticketId := data row]> (tickets d))))
        as [k Hk]; [apply owned_insert, Hwt | exact Hwr | |].
      { rewrite <- Hview. unfold view, with_tickets, alone.
        cbn [committed pending_tickets pending_records events tickets gateVerifications].
        rewrite overlay_insert. reflexivity. }
      exists (S k). cbn [replicate exec]. rewrite <- Hk. f_equal.
      unfold step. cbn [alone calls lookup list_lookup]. cbn [alone] in Hrow.
      rewrite Hrow. rewrite decide_True by assumption.
      cbn [alone pending_tickets]. rewrite (owned_not_locked 0 ticketId wt Hwt). reflexivity.
    + destruct (IH 0%Z db wt wr d Hwt Hwr) as [k Hk]; [exact Hview|].
      exists (S k). cbn [replicate exec]. rewrite <- Hk. f_equal.
      unfold step. cbn [alone calls lookup list_lookup]. cbn [alone] in Hrow.
      rewrite Hrow. rewrite decide_False by assumption. reflexivity.
  - destruct (IH (ticket_findUnique ticketId d) db wt wr d Hwt Hwr) as [k Hk]; [exact Hview|].
    exists (S k). cbn [replicate exec in_sequence]. unfold tx_bind, read.
    rewrite <- Hk. f_equal.
    unfold step. cbn [alone calls lookup list_lookup]. rewrite Hview. reflexivity.
  - destruct (IH tt db wt (<[verificationId := (0, row)]> wr)
                (gateVerification_update verificationId row d))
      as [k Hk]; [exact Hwt | apply owned_insert, Hwr | |].
    { rewrite <- Hview. unfold view, gateVerification_update, with_gateVerifications, alone.
      cbn [committed pending_tickets pending_records events tickets gateVerifications].
      rewrite overlay_insert. reflexivity. }
    exists (S k). cbn [replicate exec in_sequence]. unfold tx_bind, write.
    rewrite <- Hk. f_equal.
    unfold step. cbn [alone calls lookup list_lookup pending_records].
    rewrite (owned_not_locked 0 verificationId wr Hwr). reflexivity.
  - cbn [in_sequence]. unfold gateVerification_create.
    assert (dom (gateVerifications db) ∪ dom wr = dom (gateVerifications d)) as Hdom.
    { rewrite <- Hview. cbn [view alone committed pending_records gateVerifications].
      rewrite dom_union_L, (owned_dom 0 wr Hwr). apply (comm_L (∪)). }
    destruct (decide (gv_eventId row ∈ events d ∧ is_Some (tickets d !! gv_ticketId row)))
      as [Hok | Hno].
    + destruct (IH (Some (fresh (dom (gateVerifications d)))) db wt
                  (<[fresh (dom (gateVerifications d)) := (0, row)]> wr)
                  (with_gateVerifications d
                     (<[fresh (dom (gateVerifications d)) := row]> (gateVerifications d))))
        as [k Hk]; [exact Hwt | apply owned_insert, Hwr | |].
      { rewrite <- Hview. unfold view, with_gateVerifications, alone.
        cbn [committed pending_tickets pending_records events tickets gateVerifications].
        rewrite overlay_insert. reflexivity. }
      exists (S k). cbn [replicate exec]. rewrite <- Hk. f_equal.
      unfold step. cbn [alone calls lookup list_lookup committed pending_records].
      cbn [alone] in Hview. rewrite Hview. rewrite decide_True by assumption.
      cbn zeta. rewrite Hdom. reflexivity.
    + destruct (IH None db wt wr d Hwt Hwr) as [k Hk]; [exact Hview|].
      exists (S k). cbn [replicate exec]. rewrite <- Hk. f_equal.
      unfold step. cbn [alone calls lookup list_lookup committed pending_records].
      cbn [alone] in Hview. rewrite Hview. rewrite decide_False by assumption. reflexivity.
  - cbn [in_sequence].
    assert (tickets (view 0 (alone db wt wr (running (UpdateTicket ticketId data continue))))
              !! ticketId = tickets d !! ticketId) as Hrow by (rewrite Hview; reflexivity).
    destruct (tickets d !! ticketId) as [row|] eqn:Hd.
    + destruct (IH true db (<[ticketId := (0, data row)]> wt) wr
                  (with_tickets d (<[ticketId := data row]> (tickets d))))
        as [k Hk]; [apply owned_insert, Hwt | exact Hwr | |].
      { rewrite <- Hview. unfold view, with_tickets, alone.
        cbn [committed pending_tickets pending_records events tickets gateVerifications].
        rewrite overlay_insert. reflexivity. }
      exists (S k). cbn [replicate exec]. rewrite <- Hk. f_equal.
      unfold step. cbn [alone calls lookup list_lookup]. cbn [alone] in Hrow.
      rewrite Hrow. cbn [alone pending_tickets].
      rewrite (owned_not_locked 0 ticketId wt Hwt). reflexivity.
    + destruct (IH false db wt wr d Hwt Hwr) as [k Hk]; [exact Hview|].
      exists (S k). cbn [replicate exec]. rewrite <- Hk. f_equal.
      unfold step. cbn [alone calls lookup list_lookup]. cbn [alone] in Hrow.
      rewrite Hrow. reflexivity.
Qed.

End Alone.

Section AloneIsPOST.
Context `{Platform}.
Import Verify VerifySpec Concurrent Sequential.
Local Close Scope Z_scope.

(** One call on its own is [Verify.POST]: its answer is the response and
    what it leaves committed is the store after the call. *)
Lemma alone_is_POST (now : Z) (b : Body) (db : DB) :
  ∃ k, exec (replicate k 0) (start [(now, b)] db)
       = alone (POST now (Some b) db).2 ∅ ∅ (finished (POST now (Some b) db).1).
Proof.
  unfold start, begin, POST. cbn [fmap list_fmap fst snd].
  destruct (negb (given (ticketId b)) && negb (given (verificationId b))) eqn:Hids.
  - exists 0. reflexivity.
  - destruct (alone_in_sequence (program now b) db ∅ ∅ db) as [k Hk].
    + intros key j x Hkey. rewrite lookup_empty in Hkey. discriminate.
    + intros key j x Hkey. rewrite lookup_empty in Hkey. discriminate.
    + unfold view, alone. cbn [committed pending_tickets pending_records].
      rewrite !overlay_empty. destruct db; reflexivity.
    + exists k. unfold alone in Hk |- *. rewrite Hk, program_in_sequence.
      unfold transaction.
      destruct (body_of_transaction now b db) as [[result | err] db']; reflexivity.
Qed.

End AloneIsPOST.

Section ReadThenWriteFacts.
Context `{Platform}.
Import Verify VerifySpec Concurrent Sequential.

(** With nothing in between, the read followed by the write does what the
    conditional write does: the same store, and success exactly when one
    row was written. *)
Lemma read_then_write_in_sequence (now : Z) (ticketId : string) (db : DB) :
  in_sequence (ReadThenWrite.program now ticketId) db
  = match ticket_updateMany ticketId ACTIVE (markUsed now) db with
    | (db', count) =>
        if Z.eqb count 0 then (Err tx_already_redeemed_or_invalid, db')
        else (Ok {| res_ticketId := ticketId; res_verificationId := "";
                    createdOrUpdated := "" |}, db')
    end.
Proof.
  unfold ReadThenWrite.program, ticket_updateMany, tx_ticket_findUnique, tx_ticket_update.
  cbn [bind in_sequence]. unfold tx_bind, read, ticket_findUnique. cbn [fst snd].
  destruct (tickets db !! ticketId) as [row|] eqn:Hrow; [|reflexivity].
  destruct (decide (status row = ACTIVE)) as [Hst | Hst].
  - rewrite bool_decide_eq_true_2 by assumption. cbn [bind in_sequence]. rewrite Hrow.
    reflexivity.
  - rewrite bool_decide_eq_false_2 by assumption. reflexivity.
Qed.

End ReadThenWriteFacts.

(** ** The transition happens once *)

Section ConcurrentClaims.
Context `{Platform}.
Import Verify VerifySpec Concurrent.

(** C1. Calls that run at the same time, their statements interleaved in
    any order, against a store at READ COMMITTED. The transition is one
    conditional write: it writes one row, from ACTIVE to USED, when the
    ticket is ACTIVE, and writes nothing (zero rows) otherwise. Take one or
    more calls that target an ACTIVE ticket of an event of the store (those
    that carry a [ticketId] carry its id, and those that carry a
    [verificationId] carry the id of one of its records). In every state of
    every run, at most one call has answered that it redeemed the ticket;
    every run can be completed, so no call waits for ever; and when every
    call has answered, the ticket is USED, exactly one call has redeemed it,
    and every other call has failed with [already_redeemed_or_invalid]. *)
Theorem verify_at_most_once (tid : string) (requests : list (Z * Body)) (db : DB) :
  (∀ now,
     (status_of tid db = Some ACTIVE
      ∧ (ticket_updateMany tid ACTIVE (markUsed now) db).2 = 1
      ∧ status_of tid (ticket_updateMany tid ACTIVE (markUsed now) db).1 = Some USED)
     ∨ (status_of tid db ≠ Some ACTIVE
        ∧ ticket_updateMany tid ACTIVE (markUsed now) db = (db, 0)))
  ∧ (tid ≠ "" → requests ≠ [] →
     (∃ row, tickets db !! tid = Some row ∧ status row = ACTIVE ∧ eventId row ∈ events db) →
     Forall (λ call, targets tid db call.2) requests →
     ∀ schedule,
       let st := exec schedule (start requests db) in
       (∀ i j verificationId verificationId',
          calls st !! i = Some (finished (verified_and_used tid verificationId)) →
          calls st !! j = Some (finished (verified_and_used tid verificationId')) →
          i = j)
       ∧ (∃ more, all_finished (exec more st))
       ∧ (all_finished st →
          status_of tid (committed st) = Some USED
          ∧ ∃ i verificationId,
              calls st !! i = Some (finished (verified_and_used tid verificationId))
              ∧ ∀ j, j ≠ i → (j < length requests)%nat →
                  calls st !! j = Some (finished (failed already_redeemed_or_invalid)))).
Proof.
  split.
  - intros now. unfold ticket_updateMany, status_of.
    destruct (tickets db !! tid) as [row|] eqn:Hrow; cbn [fmap option_fmap option_map].
    2:{ right. done. }
    destruct (decide (status row = ACTIVE)) as [Hst | Hst].
    + left. cbn [fst snd with_tickets tickets]. rewrite lookup_insert_eq.
      split; [congruence | done].
    + right. split; [congruence | done].
  - intros Htid Hne (row & Hrow & Hst & Hev) Htargets schedule st.
    pose proof (inv_start tid db row Htid Hrow Hst requests Htargets) as Hstart.
    destruct (inv_exec tid db row Hev schedule _ _ Hstart) as [bounds Hinv].
    fold st in Hinv.
    assert (length (calls st) = length requests) as Hlen.
    { subst st. rewrite exec_length. cbn [start calls]. apply length_fmap. }
    split; [|split].
    + intros i j vid vid' Hi Hj.
      destruct (ConcurrentSpec.inv_account _ _ _ _ _ Hinv)
        as [[_ Hnone] | (_ & i0 & vid0 & _ & Hothers)].
      * destruct (Hnone i _ Hi).
      * destruct (decide (i = i0)) as [-> | Hi0];
          [|specialize (Hothers i _ Hi0 Hi); discriminate].
        destruct (decide (j = i0)) as [-> | Hj0]; [reflexivity|].
        specialize (Hothers j _ Hj0 Hj). discriminate.
    + apply (inv_completes tid db row Hev (sum_list bounds) bounds st); [lia | exact Hinv].
    + intros Hdone.
      assert (∀ j, (j < length requests)%nat → ∃ response, calls st !! j = Some (finished response))
        as Hanswered.
      { intros j Hj. destruct (lookup_lt_is_Some_2 (calls st) j) as [call Hcall]; [lia|].
        pose proof (proj1 (Forall_lookup _ _) Hdone j call Hcall) as [response Hresponse].
        destruct call as [rest|response']; [discriminate|]. eauto. }
      destruct (ConcurrentSpec.inv_account _ _ _ _ _ Hinv)
        as [[_ Hnone] | (Hused & i0 & vid0 & Hi0 & Hothers)].
      * destruct requests as [|request requests']; [done|].
        destruct (Hanswered 0%nat) as [response Hresponse]; [cbn; lia|].
        destruct (Hnone _ _ Hresponse).
      * split; [exact Hused|]. exists i0, vid0. split; [exact Hi0|].
        intros j Hj0 Hj. destruct (Hanswered j Hj) as [response Hresponse].
        rewrite Hresponse, (Hothers j response Hj0 Hresponse). reflexivity.
Qed.

End ConcurrentClaims.

(** ** The store *)

Section DbFacts.

Lemma ticket_findFirst_Some (where_ : Ticket → bool) (db : DB) (ticketId : string) (row : Ticket) :
  ticket_findFirst where_ db = Some (ticketId, row) →
  tickets db !! ticketId = Some row ∧ where_ row = true.
Proof.
  unfold ticket_findFirst. intros Hhead.
  assert (In (ticketId, row) (List.filter (λ r, where_ r.2) (map_to_list (tickets db)))) as Hin.
  { destruct (List.filter _ _) as [|first rest]; [discriminate|].
    cbn in Hhead. injection Hhead as ->. left. reflexivity. }
  apply List.filter_In in Hin as [Hin Hwhere].
  apply list_elem_of_In, elem_of_map_to_list in Hin. auto.
Qed.

Lemma ticket_findFirst_None (where_ : Ticket → bool) (db : DB) :
  ticket_findFirst where_ db = None ↔
  ∀ ticketId row, tickets db !! ticketId = Some row → where_ row = false.
Proof.
  unfold ticket_findFirst. split.
  - intros Hhead ticketId row Hrow.
    destruct (where_ row) eqn:Hwhere; [|reflexivity].
    assert (In (ticketId, row) (List.filter (λ r, where_ r.2) (map_to_list (tickets db)))) as Hin.
    { apply List.filter_In. split; [|assumption].
      apply list_elem_of_In, elem_of_map_to_list. assumption. }
    destruct (List.filter _ _); [destruct Hin | discriminate].
  - intros Hnone.
    destruct (List.filter _ _) as [|[ticketId row] rest] eqn:Hfilter; [reflexivity|].
    assert (In (ticketId, row) (List.filter (λ r, where_ r.2) (map_to_list (tickets db)))) as Hin
      by (rewrite Hfilter; left; reflexivity).
    apply List.filter_In in Hin as [Hin Hwhere].
    apply list_elem_of_In, elem_of_map_to_list in Hin. cbn [snd] in Hwhere.
    rewrite (Hnone _ _ Hin) in Hwhere. discriminate.
Qed.

End DbFacts.

(** ** The directory lookup *)

Section ByQrFacts.
Import ByQr ByQrSpec.


End ByQrFacts.

(** ** The scan endpoint *)

Section PadFacts.
Local Close Scope Z_scope.

Lemma fourth_round (n : nat) :
  n mod 4 ≠ 0 → (n + 1) mod 4 ≠ 0 → (n + 1 + 1) mod 4 ≠ 0 → (n + 1 + 1 + 1) mod 4 = 0.
Proof.
  pose proof (Nat.div_mod_eq n 4) as Hn.
  pose proof (Nat.mod_upper_bound n 4 ltac:(lia)) as Hr.
  replace (n + 1) with (n mod 4 + 1 + n / 4 * 4) by lia.
  replace (n mod 4 + 1 + n / 4 * 4 + 1) with (n mod 4 + 2 + n / 4 * 4) by lia.
  replace (n mod 4 + 2 + n / 4 * 4 + 1) with (n mod 4 + 3 + n / 4 * 4) by lia.
  rewrite !Nat.Div0.mod_add.
  destruct (n mod 4) as [|[|[|[|r]]]]; cbn; intros; lia.
Qed.

(** Three rounds are all the loop of [base64UrlToUtf8Node] can take: after
    them the length is a multiple of 4. *)
Lemma pad_complete (b64 : string) : String.length (Scan.pad 3 b64) mod 4 = 0.
Proof.
  cbn [Scan.pad]. rewrite !length_append. cbn [String.length].
  destruct (Nat.eqb_spec (String.length b64 mod 4) 0) as [|H0]; [assumption|].
  destruct (Nat.eqb_spec ((String.length b64 + 1) mod 4) 0) as [H1|H1].
  { rewrite length_append. exact H1. }
  destruct (Nat.eqb_spec ((String.length b64 + 1 + 1) mod 4) 0) as [H2|H2].
  { rewrite !length_append. exact H2. }
  rewrite !length_append. apply fourth_round; assumption.
Qed.

End PadFacts.

Section ScanFacts.
Context `{Platform}.
Variable DEFAULT_EXPIRES : Z.
Import Scan ScanSpec.

Lemma scan_write_refl (db : DB) : scan_write db db.
Proof. repeat split; auto. Qed.

Lemma record_scan_write (now : Z) (b : Body) (qrPayload : json) (ticketId : string)
    (ticket : Ticket) (db : DB) :
  scan_write db (record_scan DEFAULT_EXPIRES now b qrPayload ticketId ticket db).2.
Proof.
  unfold record_scan, gateVerification_create.
  repeat case_match; simplify_eq; try apply scan_write_refl.
  cbn [snd]. repeat split; cbn; try reflexivity.
  right. eexists _, _. split; [|split; [|reflexivity]]; [|reflexivity].
  apply not_elem_of_dom, is_fresh.
Qed.

Lemma POST_write (nowMs : Z) (body : option Body) (db : DB) :
  scan_write db (POST DEFAULT_EXPIRES nowMs body db).2.
Proof.
  unfold POST.
  repeat case_match; simplify_eq; cbn [snd]; try apply scan_write_refl.
  all: match goal with
       | Hrec : record_scan _ ?now ?b ?q ?tid ?t ?d = (_, ?d') |- scan_write ?d ?d' =>
           pose proof (record_scan_write now b q tid t d) as Hw; rewrite Hrec in Hw; exact Hw
       end.
Qed.

Lemma scans_cons (nowMs : Z) (body : option Body) (rest : list (Z * option Body)) (db : DB) :
  run DEFAULT_EXPIRES ((nowMs, body) :: rest) db
  = ((POST DEFAULT_EXPIRES nowMs body db).1
       :: (run DEFAULT_EXPIRES rest (POST DEFAULT_EXPIRES nowMs body db).2).1,
     (run DEFAULT_EXPIRES rest (POST DEFAULT_EXPIRES nowMs body db).2).2).
Proof.
  cbn [run]. destruct (POST DEFAULT_EXPIRES nowMs body db) as [response db'].
  cbn [fst snd]. destruct (run DEFAULT_EXPIRES rest db') as [responses db'']. reflexivity.
Qed.

(** C9. A scan writes nothing to a ticket. Whatever the requests, however
    many, and whatever their outcomes, the table of tickets after them is
    the table before them, so every ticket has the status and the [usedAt]
    it had; and every record the scans leave was there before, unchanged,
    or is PENDING. *)
Theorem scan_does_not_mutate (calls : list (Z * option Body)) (db : DB) :
  let db' := (run DEFAULT_EXPIRES calls db).2 in
  tickets db' = tickets db
  ∧ (∀ ticketId, status <$> (tickets db' !! ticketId) = status <$> (tickets db !! ticketId)
                 ∧ usedAt <$> (tickets db' !! ticketId) = usedAt <$> (tickets db !! ticketId))
  ∧ (∀ verificationId record,
       gateVerifications db' !! verificationId = Some record →
       gateVerifications db !! verificationId = Some record ∨ gv_status record = PENDING).
Proof.
  cbn zeta.
  assert (tickets (run DEFAULT_EXPIRES calls db).2 = tickets db
          ∧ ∀ verificationId record,
              gateVerifications (run DEFAULT_EXPIRES calls db).2 !! verificationId = Some record →
              gateVerifications db !! verificationId = Some record ∨ gv_status record = PENDING)
    as [Htickets Hrecords].
  { revert db. induction calls as [|[nowMs body] rest IH]; intros db; [cbn; auto|].
    rewrite scans_cons. cbn [snd].
    destruct (POST_write nowMs body db) as (_ & Htickets & Hwrite).
    destruct (IH (POST DEFAULT_EXPIRES nowMs body db).2) as [IHt IHr].
    split; [congruence|].
    intros verificationId record Hlookup.
    destruct (IHr _ _ Hlookup) as [Hold | Hpending]; [|auto].
    destruct Hwrite as [Hsame | (vid & new & Hfresh & Hpending & Hins)]; [left; congruence|].
    rewrite Hins in Hold. destruct (decide (vid = verificationId)) as [<- | Hne].
    - rewrite lookup_insert_eq in Hold. injection Hold as <-. auto.
    - rewrite lookup_insert_ne in Hold by assumption. auto. }
  split; [assumption|]. split; [|assumption].
  intros ticketId. rewrite Htickets. auto.
Qed.

Lemma lookup_needs_field (qrPayload : json) (db : DB) (ticketId : string) (ticket : Ticket) :
  lookup qrPayload db = Some (ticketId, ticket) →
  negb (truthy (ticketIdFromQr qrPayload)) && negb (truthy (mintPubkeyRaw qrPayload)) = false.
Proof.
  unfold lookup. intros Hlookup.
  destruct (truthy (ticketIdFromQr qrPayload)); [reflexivity|].
  destruct (truthy (mintPubkeyRaw qrPayload)); [reflexivity | discriminate].
Qed.

(** C10, as the code has it. The checksum is compared only under the
    guard of line 111: a scan answers [qr_tampered] only for a payload
    whose checksum and timestamp are both there and not falsy, and a ticket
    that has an asset id. A payload without a checksum or without a
    timestamp that passes the version check and the age check, resolves to
    an ACTIVE ticket, and whose [m] field, if any, agrees with the asset id
    of that ticket, is answered with success: no tamper detection takes
    place and the payload is not rejected as malformed. *)
Theorem scan_checksum_guard (nowMs : Z) (b : Body) (db : DB) :
  ((POST DEFAULT_EXPIRES nowMs (Some b) db).1 = failed qr_tampered →
   ∃ qrPayload ticketId ticket,
     JSON_parse (decodedText (default "" (qrString b))) = Some qrPayload
     ∧ lookup qrPayload db = Some (ticketId, ticket)
     ∧ truthy (checksumFromQr qrPayload) = true
     ∧ truthy (tsFromQr qrPayload) = true
     ∧ given (mintPubkey ticket) = true
     ∧ tampered qrPayload ticket = true)
  ∧ ∀ qrPayload ticketId ticket,
      given (qrString b) = true →
      JSON_parse (decodedText (default "" (qrString b))) = Some qrPayload →
      version_accepted qrPayload = true →
      age_accepted nowMs qrPayload = true →
      lookup qrPayload db = Some (ticketId, ticket) →
      status ticket = ACTIVE →
      truthy (checksumFromQr qrPayload) = false ∨ truthy (tsFromQr qrPayload) = false →
      mint_mismatched qrPayload ticket = false →
      ∃ verificationId db',
        POST DEFAULT_EXPIRES nowMs (Some b) db
        = (scan_ok ticketId
             (default JNull (nullish (eventIdFromQr qrPayload) (Some (JStr (eventId ticket)))))
             verificationId DEFAULT_EXPIRES, db').
Proof.
  split.
  - unfold POST. repeat case_match; simplify_eq; cbn [fst]; try discriminate.
    all: intros _; eexists _, _, _; split; [reflexivity|]; split; [eassumption|].
    all: match goal with
         | Hguard : checksum_checked _ _ && tampered _ _ = true |- _ =>
             apply andb_true_iff in Hguard as [Hguard Htampered];
             unfold checksum_checked in Hguard;
             apply andb_true_iff in Hguard as [Hguard Hmint];
             apply andb_true_iff in Hguard as [Hc Hts]
         end; auto.
  - intros qrPayload ticketId ticket Hqr Hparse Hversion Hage Hlookup Hstatus Habsent Hmint.
    unfold POST. rewrite Hqr, Hparse. cbn [negb].
    rewrite (lookup_needs_field _ _ _ _ Hlookup).
    unfold version_accepted in Hversion. apply negb_true_iff in Hversion. rewrite Hversion.
    unfold age_accepted in Hage.
    assert (match as_number (tsFromQr qrPayload) with
            | Some ts => number_ltb Qr.maxAge (number_sub (nowMs / 1000) ts)
            | None => false
            end = false) as ->.
    { destruct (as_number (tsFromQr qrPayload)); [apply negb_true_iff, Hage | reflexivity]. }
    rewrite Hlookup.
    assert (checksum_checked qrPayload ticket = false) as ->.
    { unfold checksum_checked. destruct Habsent as [-> | ->]; [reflexivity|].
      rewrite andb_false_r. reflexivity. }
    cbn [andb]. rewrite Hmint, Hstatus.
    rewrite bool_decide_eq_true_2 by reflexivity. cbn [negb].
    destruct (record_scan DEFAULT_EXPIRES nowMs b qrPayload ticketId ticket db)
      as [verificationRecordId db'].
    eauto.
Qed.

End ScanFacts.

(** ** The endpoints on the fixture: counterexamples and instances *)

Section Examples.
Import Fixture.

(** C2 fails as stated. On a store with the ACTIVE ticket [tk7] and its
    PENDING record [gv1], [verify(verificationId = gv1)] succeeds; the same
    call again is answered [already_redeemed_or_invalid], not with the
    success of the first call. *)
Lemma reverify_counterexample :
  let first := Verify.POST 1700000100000 (Some (by_verification "gv1")) store in
  let second := Verify.POST 1700000200000 (Some (by_verification "gv1")) first.2 in
  first.1 = Verify.verified_and_used "tk7" "gv1"
  ∧ second.1 = Verify.failed Verify.already_redeemed_or_invalid.
Proof. vm_compute. split; reflexivity. Qed.

(** C5 fails as stated. The checksum of the payload is not the recomputed
    one, yet the failure is 'QR code expired', not the tamper error: the
    age of the payload is checked first. *)
Lemma integrity_counterexample :
  Qr.validateQRIntegrity 1800000000000 stale asset = Err Qr.QRCodeExpired
  ∧ Qr.c stale ≠ Qr.calculateChecksum (Qr.e stale) (Qr.t stale) asset (Qr.ts stale).
Proof.
  split; [vm_compute; reflexivity|].
  intros Heq. vm_compute in Heq. discriminate.
Qed.

(** C6 fails as stated, in two places. The first payload carries the six
    fields, its ticket number and its timestamp are positive integers, and
    its version is there and is not 1; the failure is the malformed-payload
    error 'missing required fields', not the unsupported-version error. The
    second payload has the ticket number 7.5, which is not an integer, and
    it is decoded. *)
Lemma parse_counterexample :
  (Qr.parseQRCode version0 = Err Qr.MissingRequiredFields
   ∧ QrSpec.failure_of Qr.MissingRequiredFields = QrSpec.MalformedPayload
   ∧ QrSpec.carried version0
     = Some (JObj [("v", JNum 0); ("e", JStr "evt_abc"); ("t", JNum 7);
                   ("a", JStr "Abc12345"); ("ts", JNum 1700000000); ("c", JStr "e6fe")]))
  ∧ Qr.parseQRCode ticket_seven_and_a_half
    = Ok (JObj [("v", JNum 1); ("e", JStr "evt_abc"); ("t", JNum (Dec 75 1));
                ("a", JStr "Abc12345"); ("ts", JNum 1700000000); ("c", JStr "e6fe")]).
Proof. vm_compute. repeat split; reflexivity. Qed.


(** C8 fails as stated. For a ticket that does not exist the sequence of
    the specification ends in TicketNotFound, and the handler reports
    [already_redeemed_or_invalid]. For the USED ticket [tk8] and the
    record [gv1] of another ticket the sequence of the specification ends
    in VerificationTicketMismatch, and the handler reports
    [already_redeemed_or_invalid]: the redemption attempt comes first. *)
Lemma verify_order_counterexample :
  Claimed.verify_sequence "no-such-ticket" None store = Claimed.TicketNotFound
  ∧ Claimed.reported (Verify.POST 1700000100000 (Some (by_ticket "no-such-ticket")) store).1
    = Some Claimed.AlreadyRedeemed
  ∧ Claimed.verify_sequence "tk8" (Some "gv1") store = Claimed.VerificationTicketMismatch
  ∧ Claimed.reported (Verify.POST 1700000100000 (Some (by_both "tk8" "gv1")) store).1
    = Some Claimed.AlreadyRedeemed.
Proof. vm_compute. repeat split; reflexivity. Qed.

(** C10 fails as stated. The payload has neither checksum nor timestamp
    and resolves, by its ticket id, to the ACTIVE ticket [tk7]; the scan
    is answered [mint_mismatch], not success. *)
Lemma scan_counterexample :
  JSON_parse (Scan.decodedText (JSON_stringify unsigned_payload)) = Some unsigned_payload
  ∧ Scan.checksumFromQr unsigned_payload = Some JNull
  ∧ Scan.tsFromQr unsigned_payload = Some JNull
  ∧ Scan.lookup unsigned_payload store = Some ("tk7", ticket7)
  ∧ status ticket7 = ACTIVE
  ∧ (Scan.POST 120 1700000100000 (Some (scan_of (JSON_stringify unsigned_payload))) store).1
    = Scan.failed Scan.mint_mismatch.
Proof. vm_compute. repeat split; reflexivity. Qed.

Lemma store_consistent : VerifySpec.consistent store.
Proof.
  split.
  - intros ticketId row Hrow Hused. unfold store in Hrow. cbn [tickets] in Hrow.
    apply lookup_insert_Some in Hrow as [[<- <-] | [_ Hrow]]; [discriminate|].
    apply lookup_insert_Some in Hrow as [[<- <-] | [_ Hrow]]; [|by rewrite lookup_empty in Hrow].
    exists "gv2", verified8. split; [vm_compute; reflexivity|]. split; reflexivity.
  - intros verificationId record Hrec Hverified. unfold store in Hrec.
    cbn [gateVerifications] in Hrec.
    apply lookup_insert_Some in Hrec as [[<- <-] | [_ Hrec]]; [discriminate|].
    apply lookup_insert_Some in Hrec as [[<- <-] | [_ Hrec]]; [|by rewrite lookup_empty in Hrec].
    exists ticket8. split; [vm_compute|]; reflexivity.
Qed.

Lemma targets_by_verification : VerifySpec.targets "tk7" store (by_verification "gv1").
Proof.
  split; [right; reflexivity|]. split; [discriminate|].
  intros _. exists pending7. split; [vm_compute|]; reflexivity.
Qed.

Lemma targets_by_ticket : VerifySpec.targets "tk7" store (by_ticket "tk7").
Proof. split; [left; reflexivity|]. split; [reflexivity | discriminate]. Qed.

Lemma targets_by_both : VerifySpec.targets "tk7" store (by_both "tk7" "gv1").
Proof.
  split; [left; reflexivity|]. split; [reflexivity|].
  intros _. exists pending7. split; [vm_compute|]; reflexivity.
Qed.

(** C1 at work: three calls that target [tk7], their steps interleaved. *)
Lemma verify_at_most_once_witness :
  VerifySpec.status_of "tk7"
    (Concurrent.committed
       (Concurrent.exec round_robin (Concurrent.start three_requests store)))
  = Some USED
  ∧ ∃ i verificationId,
      Concurrent.calls
        (Concurrent.exec round_robin (Concurrent.start three_requests store)) !! i
      = Some (Concurrent.finished (Verify.verified_and_used "tk7" verificationId))
      ∧ ∀ j, j ≠ i → (j < length three_requests)%nat →
          Concurrent.calls
            (Concurrent.exec round_robin (Concurrent.start three_requests store)) !! j
          = Some (Concurrent.finished (Verify.failed Verify.already_redeemed_or_invalid)).
Proof.
  pose proof (verify_at_most_once "tk7" three_requests store) as [_ Hruns].
  assert (Forall (λ call, VerifySpec.targets "tk7" store call.2) three_requests) as Htargets.
  { apply Forall_cons. split; [exact targets_by_verification|].
    apply Forall_cons. split; [exact targets_by_ticket|].
    apply Forall_cons. split; [exact targets_by_both | constructor]. }
  assert (∃ row, tickets store !! "tk7" = Some row ∧ status row = ACTIVE
                 ∧ eventId row ∈ events store) as Hticket.
  { exists ticket7. split; [vm_compute; reflexivity|]. split; [reflexivity|].
    vm_compute. reflexivity. }
  specialize (Hruns ltac:(discriminate) ltac:(discriminate) Hticket Htargets round_robin).
  cbv zeta in Hruns. destruct Hruns as (_ & _ & Hfinal). apply Hfinal.
  unfold Concurrent.all_finished.
  assert (Concurrent.calls
            (Concurrent.exec round_robin (Concurrent.start three_requests store))
          = [Concurrent.finished (Verify.failed Verify.already_redeemed_or_invalid);
             Concurrent.finished (Verify.verified_and_used "tk7" "0");
             Concurrent.finished (Verify.failed Verify.already_redeemed_or_invalid)]) as ->
    by (vm_compute; reflexivity).
  repeat (apply Forall_cons; split; [eexists; reflexivity|]). constructor.
Defined.

(** Two calls that both read the ticket before either writes it: both
    find it ACTIVE, both write it, and both answer that they redeemed
    it. *)
Example read_then_write_redeems_twice :
  Concurrent.calls (Concurrent.exec both_read_first two_readers)
  = [Concurrent.finished (Verify.verified_and_used "tk7" "");
     Concurrent.finished (Verify.verified_and_used "tk7" "")].
Proof. vm_compute. reflexivity. Qed.

(** C2 at work, on the same store. *)
Lemma reverify_rejected_witness :
  Verify.POST 1700000200000 (Some (by_verification "gv1"))
    (Verify.POST 1700000100000 (Some (by_verification "gv1")) store).2
  = (Verify.failed Verify.already_redeemed_or_invalid,
     (Verify.POST 1700000100000 (Some (by_verification "gv1")) store).2)
  ∧ ∃ row, tickets (Verify.POST 1700000100000 (Some (by_verification "gv1")) store).2 !! "tk7"
           = Some row
           ∧ status row = USED ∧ usedAt row = Some 1700000100000.
Proof.
  apply (reverify_rejected 1700000100000 1700000200000
           (by_verification "gv1") (by_verification "gv1") store _ "tk7" "gv1").
  - reflexivity.
  - vm_compute. reflexivity.
  - reflexivity.
  - left. reflexivity.
Defined.

(** C3 at work, on the same store. *)
Lemma verify_atomic_witness :
  VerifySpec.consistent
    (Verify.POST 1700000100000 (Some (by_verification "gv1")) store).2.
Proof.
  apply (verify_atomic 1700000100000 (Some (by_verification "gv1")) store store_consistent
           (Verify.POST 1700000100000 (Some (by_verification "gv1")) store).1
           (Verify.POST 1700000100000 (Some (by_verification "gv1")) store).2).
  vm_compute. reflexivity.
Defined.

(** C4 at work: event [evt_abc], ticket 7, the asset of the fixture, and
    the clock at 1700000000 seconds. *)
Lemma generate_parse_roundtrip_witness :
  let checksum := Qr.calculateChecksum "evt_abc" 7 asset (1700000000123 / 1000) in
  Qr.parseQRCode (Qr.generateTicketQR 1700000000123 "evt_abc" 7 asset)
  = Ok (JObj [("v", JNum 1); ("e", JStr "evt_abc"); ("t", JNum 7);
              ("a", JStr (slice 0 8 asset)); ("ts", JNum (1700000000123 / 1000));
              ("c", JStr checksum)])
  ∧ String.length (slice 0 8 asset) = 8%nat
  ∧ String.length checksum = 4%nat
  ∧ all_chars is_hex_digit checksum = true.
Proof.
  apply (generate_parse_roundtrip 1700000000123 "evt_abc" 7 asset).
  - discriminate.
  - reflexivity.
  - vm_compute. lia.
  - reflexivity.
Defined.

(** The same call, evaluated: the wire format of the concrete scenario of
    the specification. *)
Example generate_parse_evaluated :
  Qr.generateTicketQR 1700000000123 "evt_abc" 7 asset
  = "parchi:eyJ2IjoxLCJlIjoiZXZ0X2FiYyIsInQiOjcsImEiOiJBYmMxMjM0NSIsInRzIjoxNzAwMDAwMDAwLCJjIjoiZTZmZSJ9"
  ∧ Qr.parseQRCode (Qr.generateTicketQR 1700000000123 "evt_abc" 7 asset)
    = Ok (JObj [("v", JNum 1); ("e", JStr "evt_abc"); ("t", JNum 7);
                ("a", JStr "Abc12345"); ("ts", JNum 1700000000); ("c", JStr "e6fe")]).
Proof. vm_compute. split; reflexivity. Qed.

(** C6 at work: the payload [stale] carries a checksum that is not its
    own, and it is decoded. *)
Lemma parseQRCode_outcomes_witness :
  Qr.parseQRCode (QrSpec.encode_payload stale) = Ok (Qr.payload_json stale).
Proof.
  apply (parseQRCode_outcomes (QrSpec.encode_payload stale)).
  - reflexivity.
  - discriminate.
  - reflexivity.
  - discriminate.
  - reflexivity.
  - discriminate.
Defined.

(** C8 at work: the ACTIVE ticket [tk7] with the record of another
    ticket. The transition is attempted, the record is then found to
    belong to [tk8], and the store is left as it was. *)
Lemma verify_order_witness :
  Verify.POST 1700000100000 (Some (by_both "tk7" "gv2")) store
  = (Verify.failed Verify.verification_ticket_mismatch, store).
Proof.
  pose proof (verify_order 1700000100000 (by_both "tk7" "gv2") store) as Horder.
  cbv zeta in Horder. destruct Horder as [_ Hsteps].
  destruct (Hsteps "tk7") as [_ Hactive]; [left; reflexivity | reflexivity | discriminate |].
  destruct (Hactive ticket7) as (_ & Hmismatch & _); [vm_compute; reflexivity | reflexivity |].
  apply (Hmismatch verified8); [reflexivity | vm_compute; reflexivity | discriminate].
Defined.

(** C10 at work: a payload with the id of [tk7] and neither checksum nor
    timestamp is answered with success. *)
Lemma scan_checksum_guard_witness :
  ∃ verificationId db',
    Scan.POST 120 1700000100000 (Some (scan_of (JSON_stringify bare_payload))) store
    = (Scan.scan_ok "tk7" (JStr "evt_abc") verificationId 120, db').
Proof.
  apply (proj2 (scan_checksum_guard 120 1700000100000
                  (scan_of (JSON_stringify bare_payload)) store) bare_payload "tk7" ticket7).
  - reflexivity.
  - vm_compute. reflexivity.
  - reflexivity.
  - reflexivity.
  - vm_compute. reflexivity.
  - reflexivity.
  - left. reflexivity.
  - reflexivity.
Defined.


End Examples.

(** * More of the code *)

(** ** Strings, once more *)

Section StringsOnceMore.

Lemma all_chars_append (p : ascii → bool) (s1 s2 : string) :
  all_chars p (s1 +:+ s2) = all_chars p s1 && all_chars p s2.
Proof.
  induction s1 as [|ch s1 IH]; [reflexivity|].
  rewrite append_cons. cbn [all_chars]. rewrite IH, andb_assoc. reflexivity.
Qed.

End StringsOnceMore.

(** ** Event ids *)

Section EventIdFacts.
Context `{Platform}.
Import EventId.

(** X1. An event id is [evt_] followed by 16 hexadecimal digits, 20
    characters in all, and it depends on the time of creation through its
    second only: the same organizer and name within one second give the
    same id. *)
Theorem createEventId_format (organizerPubkey eventName : string) (timestamp : Z) :
  let id := createEventId organizerPubkey eventName timestamp in
  String.length id = 20%nat
  ∧ startsWith id "evt_" = true
  ∧ all_chars is_hex_digit (slice_from 4 id) = true
  ∧ ∀ timestamp', timestamp' / 1000 = timestamp / 1000 →
      createEventId organizerPubkey eventName timestamp' = id.
Proof.
  cbn zeta. unfold createEventId.
  set (hash := sha256_hex _).
  assert (String.length (slice 0 16 hash) = 16%nat) as Hlen.
  { apply slice_0_length. unfold hash. rewrite sha256_hex_length. lia. }
  split; [|split; [|split]].
  - rewrite length_append, Hlen. reflexivity.
  - apply prefix_append.
  - change ("evt_" +:+ slice 0 16 hash)
      with (String "e" (String "v" (String "t" (String "_" (slice 0 16 hash))))).
    cbn [slice_from]. unfold slice. apply substring_0_all_chars.
    unfold hash. apply sha256_hex_digits.
  - intros timestamp' ->. reflexivity.
Qed.

End EventIdFacts.

Section MoreQrFacts.
Context `{Platform}.
Import Qr QrSpec.

Lemma prefix_substring (n : nat) (s : string) : String.prefix (substring 0 n s) s = true.
Proof.
  revert s. induction n as [|n IH]; intros s.
  - destruct s; reflexivity.
  - destruct s as [|ch s]; [reflexivity|].
    cbn [substring]. rewrite prefix_cons. apply IH.
Qed.

Lemma startsWith_slice (n : nat) (s : string) : startsWith s (slice 0 n s) = true.
Proof. unfold startsWith, slice. apply prefix_substring. Qed.

(** X2. The payload [generateTicketQR] encodes for an asset passes
    [validateQRIntegrity] against that asset at any time up to one year
    after it was issued, and is refused as expired from then on. *)
Theorem generated_payload_valid (issuedMs checkedMs : Z) (eventId : string) (ticketNumber : Z)
    (assetPubkey : string) :
  let payload :=
    {| v := 1; e := eventId; t := ticketNumber; a := slice 0 8 assetPubkey;
       ts := issuedMs / 1000;
       c := calculateChecksum eventId ticketNumber assetPubkey (issuedMs / 1000) |} in
  generateTicketQR issuedMs eventId ticketNumber assetPubkey = encode_payload payload
  ∧ validateQRIntegrity checkedMs payload assetPubkey
    = if Z.ltb (365 * 24 * 60 * 60) (checkedMs / 1000 - issuedMs / 1000)
      then Err QRCodeExpired else Ok tt.
Proof.
  cbn zeta. split; [reflexivity|].
  unfold validateQRIntegrity. cbn [ts e t c a].
  change maxAge with (365 * 24 * 60 * 60).
  destruct (Z.ltb _ _); [reflexivity|].
  rewrite String.eqb_refl, startsWith_slice. reflexivity.
Qed.

End MoreQrFacts.

(** ** The scan endpoint, continued *)

Section ScanMore.
Context `{Platform}.
Variable DEFAULT_EXPIRES : Z.
Import Scan ScanSpec.

Lemma lookup_sound (qrPayload : json) (db : DB) (ticketId : string) (ticket : Ticket) :
  lookup qrPayload db = Some (ticketId, ticket) → tickets db !! ticketId = Some ticket.
Proof.
  unfold lookup, ticket_findUnique. intros Hlookup.
  repeat case_match; simplify_eq;
    try match goal with
      | Hf : ticket_findFirst _ _ = Some _ |- _ => apply ticket_findFirst_Some in Hf as [Hf _]
      end; try assumption; try discriminate.
  all: match goal with
       | Hf : _ <$> (tickets _ !! _) = Some _ |- _ =>
           apply fmap_Some in Hf as (row & Hrow & Heq); simplify_eq; assumption
       end.
Qed.

(** An accepted scan, stage by stage. *)
Lemma POST_scan_ok (nowMs : Z) (body : option Body) (db db' : DB)
    (ticketId : string) (ev : json) (vid : option string) (expires : Z) :
  POST DEFAULT_EXPIRES nowMs body db = (scan_ok ticketId ev vid expires, db') →
  ∃ b qrPayload ticket,
    body = Some b
    ∧ JSON_parse (decodedText (default "" (qrString b))) = Some qrPayload
    ∧ lookup qrPayload db = Some (ticketId, ticket)
    ∧ status ticket = ACTIVE
    ∧ (checksum_checked qrPayload ticket = true → tampered qrPayload ticket = false)
    ∧ mint_mismatched qrPayload ticket = false
    ∧ expires = DEFAULT_EXPIRES
    ∧ record_scan DEFAULT_EXPIRES nowMs b qrPayload ticketId ticket db = (vid, db').
Proof.
  unfold POST. intros Hpost.
  repeat case_match; simplify_eq.
  all: eexists _, _, _; split; [reflexivity|]; split; [eassumption|]; split; [eassumption|].
  all: repeat match goal with
         | Hb : negb _ = false |- _ => apply negb_false_iff in Hb
         | Hb : bool_decide _ = true |- _ => apply bool_decide_eq_true in Hb
         end.
  all: split; [assumption|]; split; [|split; [assumption | split; [reflexivity | assumption]]].
  all: intros Hchecked.
  all: match goal with Hg : _ && _ = false |- _ => rewrite Hchecked in Hg; exact Hg end.
Qed.

Lemma POST_scan_failed (nowMs : Z) (body : option Body) (db db' : DB) (err : ErrorCode) :
  POST DEFAULT_EXPIRES nowMs body db = (failed err, db') → db' = db.
Proof.
  unfold POST. intros Hpost. repeat case_match; simplify_eq; reflexivity.
Qed.

(** The write of a scan: nothing, or the row of [Gate.pending_row] under
    an id that was free. *)
Lemma record_scan_cases (nowMs : Z) (b : Body) (qrPayload : json) (ticketId : string)
    (ticket : Ticket) (db db' : DB) (vid : option string) :
  record_scan DEFAULT_EXPIRES nowMs b qrPayload ticketId ticket db = (vid, db') →
  (vid = None ∧ db' = db)
  ∨ ∃ v eventId,
      vid = Some v
      ∧ gateVerifications db !! v = None
      ∧ eventId ∈ events db
      ∧ db' = {| events := events db; tickets := tickets db;
                 gateVerifications :=
                   <[v := Gate.pending_row DEFAULT_EXPIRES nowMs b qrPayload eventId ticketId]>
                     (gateVerifications db) |}.
Proof.
  unfold record_scan, gateVerification_create. intros Hrec.
  destruct (nullish _ _) as [[| | |eventId| |]|]; simplify_eq; try (left; split; reflexivity).
  destruct (decide _) as [[Hev _] | _]; simplify_eq; [|left; split; reflexivity].
  right. exists (fresh (dom (gateVerifications db))), eventId. split; [reflexivity|].
  split; [apply not_elem_of_dom, is_fresh|].
  split; [exact Hev | reflexivity].
Qed.

(** X3. What an accepted scan stands for. The ticket of the response is
    a ticket of the store and is ACTIVE; the store is left with its events
    and tickets as they were; and when the response carries a
    [verificationId], that id was free and now names a PENDING record of
    that ticket, with no [verifiedAt] and an event of the store, the other
    records being as they were. A scan that is refused writes nothing. *)
Theorem scan_sound (nowMs : Z) (body : option Body) (db : DB) :
  let out := POST DEFAULT_EXPIRES nowMs body db in
  match out.1 with
  | failed _ => out.2 = db
  | scan_ok ticketId _ verificationId expiresInSeconds =>
      expiresInSeconds = DEFAULT_EXPIRES
      ∧ (∃ ticket, tickets db !! ticketId = Some ticket ∧ status ticket = ACTIVE)
      ∧ events out.2 = events db
      ∧ tickets out.2 = tickets db
      ∧ match verificationId with
        | None => gateVerifications out.2 = gateVerifications db
        | Some v =>
            gateVerifications db !! v = None
            ∧ ∃ record,
                gateVerifications out.2 = <[v := record]> (gateVerifications db)
                ∧ gv_ticketId record = ticketId
                ∧ gv_status record = PENDING
                ∧ verifiedAt record = None
                ∧ gv_eventId record ∈ events db
        end
  end.
Proof.
  cbn zeta. destruct (POST DEFAULT_EXPIRES nowMs body db) as [response db'] eqn:Hpost.
  cbn [fst snd]. destruct response as [ticketId ev vid expires | err].
  2:{ eapply POST_scan_failed. eassumption. }
  apply POST_scan_ok in Hpost
    as (b & qrPayload & ticket & -> & Hparse & Hlookup & Hactive & _ & _ & -> & Hrec).
  split; [reflexivity|].
  split; [exists ticket; split; [eapply lookup_sound; eassumption | assumption]|].
  apply record_scan_cases in Hrec as [[-> ->] | (v & eventId & -> & Hfree & Hev & ->)].
  - auto.
  - cbn [events tickets gateVerifications]. split; [reflexivity|]. split; [reflexivity|].
    split; [assumption|]. eexists. split; [reflexivity|]. auto.
Qed.

End ScanMore.

(** ** Scan and verify together *)

Section GateFacts.
Context `{Platform}.
Variable DEFAULT_EXPIRES : Z.

Lemma assoc_obj_set (k k' : string) (x : json) (o : list (string * json)) :
  assoc k (obj_set k' x o) = if String.eqb k k' then Some x else assoc k o.
Proof.
  induction o as [|[k0 y] o IH]; cbn [obj_set assoc].
  - destruct (String.eqb k k'); reflexivity.
  - destruct (String.eqb_spec k' k0) as [<- | Hne]; cbn [assoc].
    + destruct (String.eqb k k'); reflexivity.
    + destruct (String.eqb_spec k k0) as [-> | Hne'].
      * destruct (String.eqb_spec k0 k'); [congruence | reflexivity].
      * exact IH.
Qed.

(** X4. Scan, then verify. When a scan is accepted with a
    [verificationId], a verify call that carries that id (alone, or with
    the id of the ticket, as the gate page sends it) succeeds with the two
    ids of the scan, whatever the time between the two calls: the
    [expiresInSeconds] of the scan is stored and not looked at. The ticket
    is USED from the time of the verify call, and the record of the scan is
    now VERIFIED: it keeps its ticket, its time of creation and what the
    scan stored in [meta] (the payload that was read, the lifetime that was
    announced), and it names the staff of the verify call. *)
Theorem scan_then_verify (scanMs now : Z) (sb : Scan.Body) (vb : Verify.Body)
    (db db1 : DB) (ticketId verificationId : string) (ev : json) :
  Scan.POST DEFAULT_EXPIRES scanMs (Some sb) db
  = (Scan.scan_ok ticketId ev (Some verificationId) DEFAULT_EXPIRES, db1) →
  ticketId ≠ "" → verificationId ≠ "" →
  Verify.verificationId vb = Some verificationId →
  (given (Verify.ticketId vb) = false ∨ Verify.ticketId vb = Some ticketId) →
  ∃ row record qrPayload,
    tickets db !! ticketId = Some row
    ∧ JSON_parse (Scan.decodedText (default "" (Scan.qrString sb))) = Some qrPayload
    ∧ Verify.POST now (Some vb) db1
      = (Verify.verified_and_used ticketId verificationId,
         {| events := events db;
            tickets := <[ticketId := markUsed now row]> (tickets db);
            gateVerifications := <[verificationId := record]> (gateVerifications db) |})
    ∧ gv_ticketId record = ticketId
    ∧ gv_status record = VERIFIED
    ∧ verifiedAt record = Some now
    ∧ createdAt record = scanMs
    ∧ verifierPubkey record
      = default (default "unknown-staff" (Scan.staffId sb)) (Verify.staffId vb)
    ∧ assoc "rawQrPayload" (meta record) = Some qrPayload
    ∧ assoc "expiresInSeconds" (meta record) = Some (JNum DEFAULT_EXPIRES)
    ∧ assoc "serverVerifiedAt" (meta record) = Some (JStr (Date_toISOString now)).
Proof.
  intros Hscan Htid Hvid Hcarries Hticket.
  apply POST_scan_ok in Hscan
    as (b & qrPayload & row & Hb & Hparse & Hlookup & Hactive & _ & _ & _ & Hrec).
  injection Hb as <-.
  apply lookup_sound in Hlookup as Hrow.
  apply record_scan_cases in Hrec as [[? _] | (v & eventId & Hv & Hfree & Hev & ->)];
    [discriminate|].
  injection Hv as <-.
  set (pending := Gate.pending_row DEFAULT_EXPIRES scanMs sb qrPayload eventId ticketId).
  set (db1 := {| events := events db; tickets := tickets db;
                 gateVerifications := <[verificationId := pending]> (gateVerifications db) |}).
  assert (given (Verify.verificationId vb) = true) as Hgiven.
  { rewrite Hcarries, given_Some, eqb_empty_false by assumption. reflexivity. }
  assert (default "" (Verify.verificationId vb) = verificationId) as Hdefault
    by (rewrite Hcarries; reflexivity).
  assert (gateVerifications db1 !! verificationId = Some pending) as Hpending
    by apply lookup_insert_eq.
  assert (VerifySpec.resolved vb db1 = Some ticketId) as Hresolved.
  { unfold VerifySpec.resolved. destruct Hticket as [-> | Hsome].
    - rewrite Hdefault, Hpending. reflexivity.
    - rewrite Hsome, given_Some, eqb_empty_false by assumption. reflexivity. }
  exists row, (Verify.updated_row now vb pending), qrPayload.
  split; [assumption|]. split; [assumption|].
  split.
  { destruct (POST_cases now vb db1)
      as [(_ & Hno & _) | [(_ & _ & Hnone & _) | (rid & Hres & Hcase)]].
    - congruence.
    - rewrite Hdefault, Hpending in Hnone. discriminate.
    - rewrite Hresolved in Hres. injection Hres as <-.
      destruct Hcase as [[-> _] | [(_ & Hst & _) | (row' & _ & Hrow' & _ & Hcase)]]; [done | |].
      { exfalso. apply Hst. unfold VerifySpec.status_of. cbn [db1 tickets].
        rewrite Hrow. cbn. congruence. }
      cbn [db1 tickets] in Hrow'. rewrite Hrow in Hrow'. injection Hrow' as <-.
      rewrite Hdefault in Hcase.
      destruct Hcase
        as [(_ & Hnone & _) | [(ex & _ & Hex & Hm & _) | [(ex & _ & Hex & _ & Hout)
            | [(Hno & _) | (Hno & _)]]]]; try congruence.
      + rewrite Hpending in Hex. injection Hex as <-. exfalso. apply Hm. reflexivity.
      + rewrite Hpending in Hex. injection Hex as <-. rewrite Hout.
        unfold VerifySpec.after_update. cbn [db1 events tickets gateVerifications].
        rewrite insert_insert_eq. reflexivity. }
  cbn [Verify.updated_row pending Gate.pending_row gv_ticketId gv_status verifiedAt createdAt
         verifierPubkey meta].
  repeat split; try reflexivity.
  all: rewrite !assoc_obj_set; reflexivity.
Qed.

Lemma call_cons (c : Gate.Call) (rest : list Gate.Call) (db : DB) :
  Gate.run DEFAULT_EXPIRES (c :: rest) db
  = ((Gate.call DEFAULT_EXPIRES c db).1
       :: (Gate.run DEFAULT_EXPIRES rest (Gate.call DEFAULT_EXPIRES c db).2).1,
     (Gate.run DEFAULT_EXPIRES rest (Gate.call DEFAULT_EXPIRES c db).2).2).
Proof.
  cbn [Gate.run]. destruct (Gate.call DEFAULT_EXPIRES c db) as [response db'].
  cbn [fst snd]. destruct (Gate.run DEFAULT_EXPIRES rest db') as [responses db'']. reflexivity.
Qed.

(** One call leaves a ticket that is not ACTIVE as it is, and is not a
    success about it. *)
Lemma call_not_active (c : Gate.Call) (db : DB) (ticketId : string) (row : Ticket) :
  tickets db !! ticketId = Some row → status row ≠ ACTIVE →
  tickets (Gate.call DEFAULT_EXPIRES c db).2 !! ticketId = Some row
  ∧ Gate.accepts ticketId (Gate.call DEFAULT_EXPIRES c db).1 = false.
Proof.
  intros Hrow Hstatus. destruct c as [nowMs body | now body]; cbn [Gate.call].
  - destruct (POST_write DEFAULT_EXPIRES nowMs body db) as (_ & Htickets & _).
    destruct (Scan.POST DEFAULT_EXPIRES nowMs body db) as [response db'] eqn:Hpost.
    cbn [fst snd] in *. rewrite Htickets. split; [assumption|].
    destruct response as [tid ev vid expires | err]; [|reflexivity].
    apply POST_scan_ok in Hpost as (_ & q & ticket & _ & _ & Hlookup & Hactive & _).
    apply lookup_sound in Hlookup.
    cbn [Gate.accepts]. apply bool_decide_eq_false. intros ->. congruence.
  - pose proof (POST_effect now body db) as Heffect. cbn zeta in Heffect.
    destruct (Verify.POST now body db) as [response db'].
    cbn [fst snd] in *.
    destruct Heffect as [[[err ->] ->] | (rid & vid & row' & record & -> & Hrow' & Hactive
                                          & _ & _ & _ & ->)].
    + split; [assumption | reflexivity].
    + assert (rid ≠ ticketId) as Hne by (intros ->; congruence).
      cbn [tickets Gate.accepts]. rewrite lookup_insert_ne by assumption.
      split; [assumption|]. apply bool_decide_eq_false. assumption.
Qed.

(** X5. A ticket that is not ACTIVE is out of the reach of the gate.
    Whatever scan and verify calls follow, in whatever order, the row of a
    USED, CANCELLED or REFUNDED ticket stays exactly as it is (its [usedAt]
    is never written again), and none of the calls is a success about it. *)
Theorem not_active_is_final (calls : list Gate.Call) (db : DB) (ticketId : string)
    (row : Ticket) :
  tickets db !! ticketId = Some row → status row ≠ ACTIVE →
  tickets (Gate.run DEFAULT_EXPIRES calls db).2 !! ticketId = Some row
  ∧ Forall (λ response, Gate.accepts ticketId response = false)
      (Gate.run DEFAULT_EXPIRES calls db).1.
Proof.
  intros Hrow Hstatus. revert db Hrow.
  induction calls as [|c rest IH]; intros db Hrow.
  - split; [assumption | constructor].
  - rewrite call_cons. cbn [fst snd].
    destruct (call_not_active c db ticketId row Hrow Hstatus) as [Hrow' Hno].
    destruct (IH _ Hrow') as [Hfinal Hall].
    split; [assumption|]. constructor; assumption.
Qed.

End GateFacts.

(** ** The status endpoint *)

Section UpdateStatusFacts.
Context `{Platform}.
Variable message : UpdateStatus.StoreError → string.
Import UpdateStatus.

(** X6. A PATCH writes the status of one ticket and nothing else. The
    events, the records and every other ticket are as they were; a PATCH
    that fails leaves the whole store as it was; and one that succeeds
    answers with the row it wrote, which is the row of that id with its
    status replaced and every other column, [usedAt] included, unchanged.
    The status written is the one of the body, ACTIVE when the body has
    none; the status the ticket had plays no part. *)
Theorem PATCH_writes_status_only (id : string) (body : option json) (db : DB) :
  let out := PATCH message id body db in
  events out.2 = events db
  ∧ gateVerifications out.2 = gateVerifications db
  ∧ (∀ ticketId, ticketId ≠ id → tickets out.2 !! ticketId = tickets db !! ticketId)
  ∧ match out.1 with
    | updated ticket =>
        ∃ b row s,
          body = Some b
          ∧ tickets db !! id = Some row
          ∧ status_of_json (default (JStr "ACTIVE") (prop b "status")) = Some s
          ∧ tickets out.2 !! id = Some ticket
          ∧ status ticket = s
          ∧ eventId ticket = eventId row ∧ holderPubkey ticket = holderPubkey row
          ∧ mintPubkey ticket = mintPubkey row ∧ purchasePrice ticket = purchasePrice row
          ∧ seatNumber ticket = seatNumber row ∧ tier ticket = tier row
          ∧ purchasedAt ticket = purchasedAt row ∧ usedAt ticket = usedAt row
          ∧ metadataUri ticket = metadataUri row
    | _ => out.2 = db
    end.
Proof.
  cbn zeta. unfold PATCH, ticket_update, error_response.
  destruct body as [b|]; [|cbn; auto].
  set (st := default (JStr "ACTIVE") (prop b "status")).
  assert (∀ err, (if includes (message err) "Record to update not found"
                  then ticket_not_found else failed_to_update) = ticket_not_found
                 ∨ (if includes (message err) "Record to update not found"
                    then ticket_not_found else failed_to_update) = failed_to_update) as Herr
    by (intros err; destruct (includes _ _); auto).
  destruct (status_of_json st) as [s|] eqn:Hs.
  2:{ destruct b; cbn [fst snd]; try (split; [|split; [|split]]; auto; fail).
      all: destruct (Herr (InvalidStatus st)) as [-> | ->]; auto. }
  destruct (tickets db !! id) as [row|] eqn:Hrow.
  2:{ destruct b; cbn [fst snd]; try (split; [|split; [|split]]; auto; fail).
      all: destruct (Herr RecordNotFound) as [-> | ->]; auto. }
  destruct b; cbn [fst snd with_tickets events tickets gateVerifications];
    try (split; [|split; [|split]]; auto; fail).
  all: split; [reflexivity|]; split; [reflexivity|].
  all: split; [intros ticketId Hne; apply lookup_insert_ne; congruence|].
  all: eexists _, row, s; split; [reflexivity|]; split; [reflexivity|]; split; [exact Hs|].
  all: split; [apply lookup_insert_eq|]; cbn; auto 12.
Qed.

(** X7. The status endpoint undoes a redemption. After a verify call has
    redeemed a ticket, a PATCH of that ticket whose body has no [status]
    (or has ACTIVE) makes it ACTIVE again, with the [usedAt] of the
    redemption still in the row; the same verify request, sent again, then
    succeeds a second time and writes a new [usedAt]. *)
Theorem reactivated_ticket_is_redeemed_again (now1 now2 : Z) (vb : Verify.Body) (b : json)
    (db db1 : DB) (ticketId verificationId : string) :
  Verify.POST now1 (Some vb) db = (Verify.verified_and_used ticketId verificationId, db1) →
  b ≠ JNull →
  prop b "status" = None ∨ prop b "status" = Some (JStr "ACTIVE") →
  ∃ row db2 verificationId' db3 row3,
    tickets db1 !! ticketId = Some row
    ∧ status row = USED ∧ usedAt row = Some now1
    ∧ PATCH message ticketId (Some b) db1 = (updated (with_status ACTIVE row), db2)
    ∧ Verify.POST now2 (Some vb) db2
      = (Verify.verified_and_used ticketId verificationId', db3)
    ∧ tickets db3 !! ticketId = Some row3
    ∧ status row3 = USED ∧ usedAt row3 = Some now2.
Proof.
  intros Hfirst Hnull Hstatus.
  assert (status_of_json (default (JStr "ACTIVE") (prop b "status")) = Some ACTIVE) as Hs
    by (destruct Hstatus as [-> | ->]; reflexivity).
  destruct (POST_cases now1 vb db)
    as [(_ & _ & Hout) | [(_ & _ & _ & Hout) | (rid & Hres & Hcase)]]; [congruence .. |].
  destruct Hcase as [[_ Hout] | [(_ & _ & Hout) | (row & Hrid & Hrow & Hst & Hcase)]];
    [congruence .. |].
  assert (∀ db2 : DB,
            tickets db2 !! rid = Some (with_status ACTIVE (markUsed now1 row)) →
            ∀ out, Verify.POST now2 (Some vb) db2 = out →
            (∃ vid' row3, out.1 = Verify.verified_and_used rid vid'
                          ∧ tickets out.2 !! rid = Some row3
                          ∧ status row3 = USED ∧ usedAt row3 = Some now2) →
            ∃ (verificationId' : string) (db3 : DB) (row3 : Ticket),
              Verify.POST now2 (Some vb) db2 = (Verify.verified_and_used rid verificationId', db3)
              ∧ tickets db3 !! rid = Some row3 ∧ status row3 = USED ∧ usedAt row3 = Some now2)
    as Hwrap.
  { intros db2 _ out <- (vid' & row3 & Hresp & Hrow3 & Hused & Hat).
    destruct (Verify.POST now2 (Some vb) db2) as [response db3]. cbn [fst snd] in *.
    subst response. eauto 10. }
  assert (∀ db1 : DB,
            tickets db1 = <[rid := markUsed now1 row]> (tickets db) →
            PATCH message rid (Some b) db1
            = (updated (with_status ACTIVE (markUsed now1 row)),
               with_tickets db1 (<[rid := with_status ACTIVE (markUsed now1 row)]> (tickets db1))))
    as Hpatch.
  { intros d Htickets. unfold PATCH, ticket_update. rewrite Hs, Htickets, lookup_insert_eq.
    destruct b; try reflexivity. congruence. }
  destruct Hcase
    as [(_ & _ & Hout) | [(ex & _ & _ & _ & Hout) | [(ex & Hv & Hex & Hm & Hout)
        | [(Hv & Hev & Hout) | (_ & _ & Hout)]]]]; try congruence.
  - (* the record of the request was updated *)
    rewrite Hfirst in Hout. injection Hout as -> -> ->.
    set (vid := default "" (Verify.verificationId vb)) in *.
    set (db1 := VerifySpec.after_update now1 vb rid row vid ex db).
    set (db2 := with_tickets db1 (<[rid := with_status ACTIVE (markUsed now1 row)]> (tickets db1))).
    assert (tickets db2 !! rid = Some (with_status ACTIVE (markUsed now1 row))) as Hrow2
      by apply lookup_insert_eq.
    assert (gateVerifications db2 !! vid = Some (Verify.updated_row now1 vb ex)) as Hrec2
      by apply lookup_insert_eq.
    assert (VerifySpec.resolved vb db2 = Some rid) as Hres2.
    { unfold VerifySpec.resolved in *. destruct (given (Verify.ticketId vb)); [assumption|].
      fold vid. rewrite Hrec2. cbn. congruence. }
    exists (markUsed now1 row), db2.
    destruct (Hwrap db2 Hrow2 _ eq_refl) as (vid' & db3 & row3 & Hsecond & Hrest).
    2:{ exists vid', db3, row3. split; [apply lookup_insert_eq|].
        split; [reflexivity|]. split; [reflexivity|].
        split; [apply Hpatch; reflexivity|]. split; assumption. }
    destruct (POST_cases now2 vb db2)
      as [(_ & Hno & _) | [(_ & _ & Hnone & _) | (rid' & Hres' & Hcase)]].
    + congruence.
    + fold vid in Hnone. congruence.
    + rewrite Hres2 in Hres'. injection Hres' as <-.
      destruct Hcase as [[-> _] | [(_ & Hno & _) | (row' & _ & Hrow' & _ & Hcase)]]; [done | |].
      { exfalso. apply Hno. unfold VerifySpec.status_of. rewrite Hrow2. reflexivity. }
      rewrite Hrow2 in Hrow'. injection Hrow' as <-. fold vid in Hcase.
      destruct Hcase
        as [(_ & Hnone & _) | [(ex' & _ & Hex' & Hm' & _) | [(ex' & _ & Hex' & _ & ->)
            | [(Hno & _) | (Hno & _)]]]]; try congruence.
      * rewrite Hrec2 in Hex'. injection Hex' as <-. exfalso. apply Hm'. exact Hm.
      * eexists _, _. split; [reflexivity|]. cbn [snd VerifySpec.after_update tickets].
        split; [apply lookup_insert_eq|]. split; reflexivity.
  - (* a record was created *)
    rewrite Hfirst in Hout. injection Hout as -> -> ->.
    set (db1 := VerifySpec.after_create now1 vb rid row db).
    set (db2 := with_tickets db1 (<[rid := with_status ACTIVE (markUsed now1 row)]> (tickets db1))).
    assert (tickets db2 !! rid = Some (with_status ACTIVE (markUsed now1 row))) as Hrow2
      by apply lookup_insert_eq.
    assert (VerifySpec.resolved vb db2 = Some rid) as Hres2.
    { unfold VerifySpec.resolved in *.
      destruct (given (Verify.ticketId vb)) eqn:Ht; [assumption|].
      exfalso. unfold Verify.POST in Hfirst. rewrite Ht, Hv in Hfirst. discriminate. }
    exists (markUsed now1 row), db2.
    destruct (Hwrap db2 Hrow2 _ eq_refl) as (vid' & db3 & row3 & Hsecond & Hrest).
    2:{ exists vid', db3, row3. split; [apply lookup_insert_eq|].
        split; [reflexivity|]. split; [reflexivity|].
        split; [apply Hpatch; reflexivity|]. split; assumption. }
    destruct (POST_cases now2 vb db2)
      as [(Hno & _ & _) | [(_ & Hyes & _) | (rid' & Hres' & Hcase)]].
    + exfalso. unfold Verify.POST in Hfirst. rewrite Hno, Hv in Hfirst. discriminate.
    + congruence.
    + rewrite Hres2 in Hres'. injection Hres' as <-.
      destruct Hcase as [[-> _] | [(_ & Hno & _) | (row' & _ & Hrow' & _ & Hcase)]]; [done | |].
      { exfalso. apply Hno. unfold VerifySpec.status_of. rewrite Hrow2. reflexivity. }
      rewrite Hrow2 in Hrow'. injection Hrow' as <-.
      destruct Hcase
        as [(Hyes & _) | [(ex' & Hyes & _) | [(ex' & Hyes & _)
            | [(_ & _ & ->) | (_ & Hno & _)]]]]; try congruence.
      * eexists _, _. split; [reflexivity|]. cbn [snd VerifySpec.after_create tickets].
        split; [apply lookup_insert_eq|]. split; reflexivity.
      * exfalso. apply Hno. exact Hev.
Qed.

End UpdateStatusFacts.

(** ** Collection and ticket codes *)

Section QrServiceFacts.
Context `{Platform}.
Variable QRCode_toDataURL : string → Z → string → option string.
Import QrService.

Lemma collectionData_flat (nowMs : Z) (collectionPubkey eventId organizerPubkey : string) :
  flat_record [("type", JStr "collection"); ("collectionPubkey", JStr collectionPubkey);
               ("eventId", JStr eventId); ("organizerPubkey", JStr organizerPubkey);
               ("timestamp", JNum nowMs)].
Proof.
  split.
  - apply (bool_decide_unpack _). vm_compute. reflexivity.
  - repeat constructor.
Qed.

Lemma ticketData_flat (nowMs : Z) (ticketId eventId organizerPubkey collectionPubkey : string) :
  flat_record [("type", JStr "ticket"); ("ticketId", JStr ticketId); ("eventId", JStr eventId);
               ("organizerPubkey", JStr organizerPubkey);
               ("collectionPubkey", JStr collectionPubkey); ("timestamp", JNum nowMs)].
Proof.
  split.
  - apply (bool_decide_unpack _). vm_compute. reflexivity.
  - repeat constructor.
Qed.

(** X8. Round trip of the codes of [qrService]. The text that
    [generateCollectionQR] or [generateTicketQR] turns into an image is
    read back by [validateQRData] as the [data] the generator returned,
    when the ids in it are not empty, for 24 hours from the time it was
    generated; after that the answer is [null]. *)
Theorem validateQRData_roundtrip (nowMs checkedMs : Z)
    (ticketId collectionPubkey eventId organizerPubkey : string) :
  ticketId ≠ "" → collectionPubkey ≠ "" → eventId ≠ "" → organizerPubkey ≠ "" → nowMs ≠ 0 →
  (∀ r, generateCollectionQR QRCode_toDataURL nowMs collectionPubkey eventId organizerPubkey
        = Ok r →
        validateQRData checkedMs (JSON_stringify (data r))
        = if Z.ltb (24 * 60 * 60 * 1000) (checkedMs - nowMs) then None else Some (data r))
  ∧ (∀ r, generateTicketQR QRCode_toDataURL nowMs ticketId eventId organizerPubkey
            collectionPubkey = Ok r →
          validateQRData checkedMs (JSON_stringify (data r))
          = if Z.ltb (24 * 60 * 60 * 1000) (checkedMs - nowMs) then None else Some (data r)).
Proof.
  intros Hticket Hcollection Hevent Horganizer Hnow.
  assert (Z.eqb nowMs 0 = false) as Hnz by (apply Z.eqb_neq; assumption).
  split; intros r Hgenerated.
  - unfold generateCollectionQR in Hgenerated.
    destruct (QRCode_toDataURL _ _ _); [|discriminate]. injection Hgenerated as <-.
    cbn [data]. unfold validateQRData, collectionData.
    rewrite JSON_parse_stringify by apply collectionData_flat.
    unfold truthy, is_string, too_old.
    cbn [prop assoc String.eqb Ascii.eqb Bool.eqb mbind option_bind ToNumber
         number_eqb number_ltb number_sub].
    rewrite Hnz, !eqb_empty_false by assumption. cbn [negb orb andb].
    change maxAge with (24 * 60 * 60 * 1000).
    destruct (Z.ltb _ _); reflexivity.
  - unfold generateTicketQR in Hgenerated.
    destruct (QRCode_toDataURL _ _ _); [|discriminate]. injection Hgenerated as <-.
    cbn [data]. unfold validateQRData, ticketData.
    rewrite JSON_parse_stringify by apply ticketData_flat.
    unfold truthy, is_string, too_old.
    cbn [prop assoc String.eqb Ascii.eqb Bool.eqb mbind option_bind ToNumber
         number_eqb number_ltb number_sub].
    rewrite Hnz, !eqb_empty_false by assumption. cbn [negb orb andb].
    change maxAge with (24 * 60 * 60 * 1000).
    destruct (Z.ltb _ _); reflexivity.
Qed.

(** X9. What [validateQRData] lets through. An answer that is not
    [null] is the value the text parses to; its [type], [eventId],
    [organizerPubkey] and [timestamp] are there and not falsy; a
    ['collection'] has a [collectionPubkey] and a ['ticket'] has a
    [ticketId] and a [collectionPubkey]; and a [timestamp] that is a number
    is not more than 24 hours in the past. The [type] itself is not
    checked further, and a [timestamp] in the future is let through: the
    last part shows a value of another [type], dated ahead, accepted as it
    is. *)
Theorem validateQRData_accepts (nowMs : Z) (qrString : string) (accepted : json) :
  (validateQRData nowMs qrString = Some accepted →
   JSON_parse qrString = Some accepted
   ∧ accepted ≠ JNull
   ∧ truthy (prop accepted "type") = true
   ∧ truthy (prop accepted "eventId") = true
   ∧ truthy (prop accepted "organizerPubkey") = true
   ∧ truthy (prop accepted "timestamp") = true
   ∧ (prop accepted "type" = Some (JStr "collection") →
      truthy (prop accepted "collectionPubkey") = true)
   ∧ (prop accepted "type" = Some (JStr "ticket") →
      truthy (prop accepted "ticketId") = true
      ∧ truthy (prop accepted "collectionPubkey") = true)
   ∧ (∀ timestamp : Z, prop accepted "timestamp" = Some (JNum timestamp) →
      nowMs - timestamp ≤ 24 * 60 * 60 * 1000))
  ∧ (∀ kind eventId organizerPubkey timestamp,
       kind ≠ "" → kind ≠ "collection" → kind ≠ "ticket" →
       eventId ≠ "" → organizerPubkey ≠ "" → nowMs ≤ timestamp → timestamp ≠ 0 →
       let other :=
         JObj [("type", JStr kind); ("eventId", JStr eventId);
               ("organizerPubkey", JStr organizerPubkey); ("timestamp", JNum timestamp)] in
       validateQRData nowMs (JSON_stringify other) = Some other).
Proof.
  split.
  - unfold validateQRData. intros Hvalid.
    destruct (JSON_parse qrString) as [parsed|]; [|discriminate].
    destruct parsed as [| ? | ? | ? | ? | fields]; try (cbn in Hvalid; discriminate).
    set (parsed := JObj fields) in *.
    assert (parsed ≠ JNull) as Hnull by discriminate.
    rename Hvalid into Hchecks.
    destruct (truthy (prop parsed "type")) eqn:Htype; [|discriminate].
    destruct (truthy (prop parsed "eventId")) eqn:Hevent; [|discriminate].
    destruct (truthy (prop parsed "organizerPubkey")) eqn:Horg; [|discriminate].
    destruct (truthy (prop parsed "timestamp")) eqn:Hts; [|discriminate].
    cbn [negb orb] in Hchecks.
    destruct (is_string (prop parsed "type") "collection"
              && negb (truthy (prop parsed "collectionPubkey"))) eqn:Hcoll; [discriminate|].
    destruct (is_string (prop parsed "type") "ticket"
              && (negb (truthy (prop parsed "ticketId"))
                  || negb (truthy (prop parsed "collectionPubkey")))) eqn:Htick; [discriminate|].
    destruct (too_old nowMs (prop parsed "timestamp")) eqn:Hold; [discriminate|].
    injection Hchecks as <-.
    split; [reflexivity|]. split; [assumption|]. do 4 (split; [assumption|]).
    split; [|split].
    + intros Hkind.
      rewrite Hkind in Hcoll. cbn [is_string String.eqb Ascii.eqb Bool.eqb andb] in Hcoll.
      apply negb_false_iff in Hcoll. exact Hcoll.
    + intros Hkind.
      rewrite Hkind in Htick. cbn [is_string String.eqb Ascii.eqb Bool.eqb andb] in Htick.
      apply orb_false_iff in Htick as [Hid Hcollection].
      apply negb_false_iff in Hid, Hcollection. split; assumption.
    + intros timestamp Hnum. rewrite Hnum in Hold. cbn in Hold.
      apply Z.ltb_ge in Hold. exact Hold.
  - intros kind eventId organizerPubkey timestamp Hkind Hc Ht Hevent Horg Hahead Hnz other.
    subst other. unfold validateQRData.
    rewrite JSON_parse_stringify.
    2:{ split; [apply (bool_decide_unpack _); vm_compute; reflexivity | repeat constructor]. }
    unfold truthy, is_string, too_old.
    cbn [prop assoc String.eqb Ascii.eqb Bool.eqb mbind option_bind ToNumber
         number_eqb number_ltb number_sub].
    rewrite !eqb_empty_false by assumption.
    destruct (Z.eqb_spec timestamp 0); [congruence|].
    destruct (String.eqb_spec kind "collection"); [congruence|].
    destruct (String.eqb_spec kind "ticket"); [congruence|].
    cbn [negb orb andb]. unfold maxAge.
    destruct (Z.ltb_spec (24 * 60 * 60 * 1000) (nowMs - timestamp)); [lia | reflexivity].
Qed.

End QrServiceFacts.

(** ** The scan endpoint on the payloads of the codec *)

Section ScanCodec.
Context `{Platform}.
Variable DEFAULT_EXPIRES : Z.
Import Qr Scan ScanSpec.

(** The handler once the payload is parsed and past the checks that need
    no ticket. *)
Lemma POST_resolved (nowMs : Z) (b : Body) (db : DB) (qrPayload : json) (ticketId : string)
    (ticket : Ticket) :
  given (qrString b) = true →
  JSON_parse (decodedText (default "" (qrString b))) = Some qrPayload →
  version_accepted qrPayload = true →
  age_accepted nowMs qrPayload = true →
  lookup qrPayload db = Some (ticketId, ticket) →
  POST DEFAULT_EXPIRES nowMs (Some b) db
  = if checksum_checked qrPayload ticket && tampered qrPayload ticket
    then (failed qr_tampered, db)
    else if mint_mismatched qrPayload ticket then (failed mint_mismatch, db)
    else if negb (bool_decide (status ticket = ACTIVE))
    then (failed (ticket_not_active (status ticket)), db)
    else
      let '(verificationRecordId, db') :=
        record_scan DEFAULT_EXPIRES nowMs b qrPayload ticketId ticket db in
      (scan_ok ticketId
         (default JNull (nullish (eventIdFromQr qrPayload) (Some (JStr (eventId ticket)))))
         verificationRecordId DEFAULT_EXPIRES, db').
Proof.
  intros Hqr Hparse Hversion Hage Hlookup.
  unfold POST. rewrite Hqr, Hparse. cbn [negb].
  rewrite (lookup_needs_field _ _ _ _ Hlookup).
  unfold version_accepted in Hversion. apply negb_true_iff in Hversion. rewrite Hversion.
  unfold age_accepted in Hage.
  assert (match as_number (tsFromQr qrPayload) with
          | Some ts => number_ltb Qr.maxAge (number_sub (nowMs / 1000) ts)
          | None => false
          end = false) as ->.
  { destruct (as_number (tsFromQr qrPayload)); [apply negb_true_iff, Hage | reflexivity]. }
  rewrite Hlookup. reflexivity.
Qed.

(** The server recomputes the checksum of the codec. *)
Lemma checksum_agrees (eventId : string) (ticketNumber : Z) (assetPubkey : string)
    (timestamp : Z) :
  calculateChecksumServer (JStr eventId) (Some (Int ticketNumber)) assetPubkey (JNum timestamp)
  = calculateChecksum eventId ticketNumber assetPubkey timestamp.
Proof. reflexivity. Qed.

Lemma tampered_payload (p : QRPayload) (ticket : Ticket) (mint : string) :
  mintPubkey ticket = Some mint →
  tampered (payload_json p) ticket
  = negb (String.eqb (c p) (calculateChecksum (e p) (t p) mint (ts p))).
Proof. intros Hmint. unfold tampered. rewrite Hmint. reflexivity. Qed.

(** X10. The tamper check, on a payload of the codec. For a payload with
    version 1, a checksum and a timestamp other than 0, not older than a
    year, that resolves to a ticket with an asset id, a scan is refused as
    tampered exactly when the checksum of the payload is not the one
    recomputed from the event id and ticket number of the payload, the full
    asset id of the ticket and the timestamp of the payload. When the two
    agree the scan is accepted if the ticket is ACTIVE, and refused with
    the status of the ticket if it is not. *)
Theorem scan_checksum_enforced (nowMs : Z) (b : Body) (db : DB) (p : QRPayload)
    (ticketId : string) (ticket : Ticket) (mint : string) :
  given (qrString b) = true →
  JSON_parse (decodedText (default "" (qrString b))) = Some (payload_json p) →
  v p = 1 → c p ≠ "" → ts p ≠ 0 → nowMs / 1000 - ts p ≤ 365 * 24 * 60 * 60 →
  lookup (payload_json p) db = Some (ticketId, ticket) →
  mintPubkey ticket = Some mint → mint ≠ "" →
  let response := (POST DEFAULT_EXPIRES nowMs (Some b) db).1 in
  let expected := calculateChecksum (e p) (t p) mint (ts p) in
  (response = failed qr_tampered ↔ c p ≠ expected)
  ∧ (c p = expected → status ticket = ACTIVE →
     ∃ verificationId, response = scan_ok ticketId (JStr (e p)) verificationId DEFAULT_EXPIRES)
  ∧ (c p = expected → status ticket ≠ ACTIVE →
     response = failed (ticket_not_active (status ticket))).
Proof.
  intros Hqr Hparse Hv Hc Hts Hage Hlookup Hmint Hnonempty. cbn zeta.
  rewrite (POST_resolved nowMs b db (payload_json p) ticketId ticket Hqr Hparse); try assumption.
  2:{ unfold version_accepted, versionFromQr, payload_json. cbn. rewrite Hv. reflexivity. }
  2:{ unfold age_accepted, tsFromQr, payload_json. cbn.
      apply negb_true_iff, Z.ltb_ge. exact Hage. }
  assert (checksum_checked (payload_json p) ticket = true) as ->.
  { unfold checksum_checked, checksumFromQr, tsFromQr, payload_json. cbn.
    rewrite Hmint. cbn. rewrite !eqb_empty_false by assumption.
    destruct (Z.eqb_spec (ts p) 0); [congruence | reflexivity]. }
  rewrite (tampered_payload p ticket mint Hmint). cbn [andb].
  assert (mint_mismatched (payload_json p) ticket = false) as -> by reflexivity.
  assert (default JNull (nullish (eventIdFromQr (payload_json p))
                           (Some (JStr (eventId ticket)))) = JStr (e p)) as -> by reflexivity.
  destruct (String.eqb_spec (c p) (calculateChecksum (e p) (t p) mint (ts p))) as [Heq | Hne];
    cbn [negb fst].
  - split; [|split].
    + destruct (bool_decide (status ticket = ACTIVE)); cbn [negb fst].
      * destruct (record_scan _ _ _ _ _ _ _). cbn. split; [discriminate | congruence].
      * cbn. split; [discriminate | congruence].
    + intros _ Hactive. rewrite bool_decide_eq_true_2 by assumption. cbn [negb].
      destruct (record_scan _ _ _ _ _ _ _). cbn. eauto.
    + intros _ Hno. rewrite bool_decide_eq_false_2 by assumption. reflexivity.
  - split; [split; [intros _; assumption | reflexivity]|].
    split; intros Heq; congruence.
Qed.

(** [trim] and prefixes *)

Lemma prefix_nil_r (s : string) : String.prefix s "" = true → s = "".
Proof. destruct s; [reflexivity | discriminate]. Qed.

Lemma prefix_cons_inv (ch : ascii) (x y : string) :
  String.prefix (String ch x) y = true → ∃ y', y = String ch y' ∧ String.prefix x y' = true.
Proof.
  destruct y as [|ch' y']; [discriminate|]. cbn [String.prefix].
  destruct (ascii_dec ch ch') as [<- | ?]; [eauto | discriminate].
Qed.

Lemma prefix_trimStart (x y : string) :
  String.prefix x y = true → String.prefix (trimStart x) (trimStart y) = true.
Proof.
  revert y. induction x as [|ch x IH]; intros y Hxy; [apply prefix_empty|].
  apply prefix_cons_inv in Hxy as (y' & -> & Hxy).
  cbn [trimStart]. destruct (is_space ch); [apply IH, Hxy|].
  rewrite prefix_cons. exact Hxy.
Qed.

Lemma prefix_trimEnd (x y : string) :
  String.prefix x y = true → String.prefix (trimEnd x) (trimEnd y) = true.
Proof.
  revert y. induction x as [|ch x IH]; intros y Hxy; [apply prefix_empty|].
  apply prefix_cons_inv in Hxy as (y' & -> & Hxy).
  specialize (IH y' Hxy). cbn [trimEnd].
  destruct (trimEnd x) as [|c1 r1] eqn:Hx.
  - destruct (is_space ch) eqn:Hch; [apply prefix_empty|].
    destruct (trimEnd y') as [|c2 r2]; rewrite prefix_cons; apply prefix_empty.
  - destruct (trimEnd y') as [|c2 r2]; [discriminate|]. rewrite prefix_cons. exact IH.
Qed.

Lemma prefix_trim (x y : string) :
  String.prefix x y = true → String.prefix (trim x) (trim y) = true.
Proof. intros Hxy. apply prefix_trimEnd, prefix_trimStart, Hxy. Qed.

Lemma prefix_toLowerCase (x y : string) :
  String.prefix x y = true → String.prefix (toLowerCase x) (toLowerCase y) = true.
Proof.
  revert y. induction x as [|ch x IH]; intros y Hxy; [apply prefix_empty|].
  apply prefix_cons_inv in Hxy as (y' & -> & Hxy).
  cbn [toLowerCase]. rewrite prefix_cons. apply IH, Hxy.
Qed.

Lemma length_trimStart (s : string) : (String.length (trimStart s) ≤ String.length s)%nat.
Proof.
  induction s as [|ch s IH]; [reflexivity|]. cbn [trimStart].
  destruct (is_space ch); cbn [String.length]; lia.
Qed.

Lemma length_trimEnd (s : string) : (String.length (trimEnd s) ≤ String.length s)%nat.
Proof.
  induction s as [|ch s IH]; [reflexivity|]. cbn [trimEnd].
  destruct (trimEnd s); [destruct (is_space ch)|]; cbn [String.length] in *; lia.
Qed.

Lemma length_trim (s : string) : (String.length (trim s) ≤ String.length s)%nat.
Proof. unfold trim. etrans; [apply length_trimEnd | apply length_trimStart]. Qed.

Lemma length_substring_le (n : nat) (s : string) : (String.length (substring 0 n s) ≤ n)%nat.
Proof.
  revert s. induction n as [|n IH]; intros [|ch s]; cbn [substring String.length]; try lia.
  specialize (IH s). lia.
Qed.

End ScanCodec.

(** ** From the generator to the gate *)

Section ScanPageFacts.
Context `{Platform}.
Variable atob_utf8 : string → option string.
Variable DEFAULT_EXPIRES : Z.
Import Qr Scan ScanSpec.

(** The gate page sends the asset prefix of a payload as its mint. *)
Lemma mapped_payload (p : QRPayload) :
  ScanPage.mapped (payload_json p)
  = JObj [("m", JStr (a p)); ("e", JStr (e p)); ("t", JNum (t p)); ("ts", JNum (ts p));
          ("c", JStr (c p))].
Proof. reflexivity. Qed.

Lemma mapped_flat (p : QRPayload) :
  flat_record [("m", JStr (a p)); ("e", JStr (e p)); ("t", JNum (t p)); ("ts", JNum (ts p));
               ("c", JStr (c p))].
Proof.
  split.
  - apply (bool_decide_unpack _). vm_compute. reflexivity.
  - repeat constructor.
Qed.

(** A prefix of the asset id of a ticket passes the mint comparison. *)
Lemma prefix_not_mismatched (qrPayload : json) (ticket : Ticket) (prefix mint : string) :
  prop qrPayload "m" = Some (JStr prefix) →
  mintPubkey ticket = Some mint →
  startsWith mint prefix = true →
  (String.length prefix ≤ 16)%nat →
  mint_mismatched qrPayload ticket = false.
Proof.
  intros Hm Hmint Hprefix Hshort. unfold mint_mismatched. rewrite Hm, Hmint.
  destruct (truthy (Some (JStr prefix)) && given (Some mint)); [|reflexivity].
  cbn [default from_option id ToString].
  assert ((String.length (trim prefix) <=? 16)%nat = true) as ->.
  { apply Nat.leb_le. etrans; [apply length_trim | exact Hshort]. }
  assert (startsWith (toLowerCase (trim mint)) (toLowerCase (trim prefix)) = true) as ->.
  { apply prefix_toLowerCase, prefix_trim. exact Hprefix. }
  cbn [andb negb]. apply andb_false_r.
Qed.

(** X11. From the generator to the gate. Take the code
    [generateTicketQR] writes for an event, a ticket number and an asset,
    and let the gate page read it: the page sends the scan endpoint the
    object [{m, e, t, ts, c}] with the first 8 characters of the asset as
    [m]. When that text reaches the endpoint unchanged, within a year of
    the issue, and the store resolves it to an ACTIVE ticket of that asset
    (with an event of the store, and an id), [handleScan] ends in 'Entry
    granted' for that ticket: the scan is accepted, the verify call that
    follows succeeds, the ticket is USED from the time of that call, there
    is a VERIFIED record of it, and no other ticket is touched. *)
Theorem handleScan_grants_entry (lastScan : option string) (text : string)
    (issuedMs scanMs verifyMs : Z) (eventId : string) (ticketNumber : Z) (assetPubkey : string)
    (db : DB) (ticketId : string) (ticket : Ticket) :
  let payload :=
    {| v := 1; e := eventId; t := ticketNumber; a := slice 0 8 assetPubkey;
       ts := issuedMs / 1000;
       c := calculateChecksum eventId ticketNumber assetPubkey (issuedMs / 1000) |} in
  let normalized := JSON_stringify (ScanPage.mapped (payload_json payload)) in
  ScanPage.normalizeQrStringForServer atob_utf8 text = normalized →
  normalized ≠ "" →
  decodedText normalized = normalized →
  lastScan ≠ Some normalized →
  scanMs / 1000 - issuedMs / 1000 ≤ 365 * 24 * 60 * 60 →
  lookup (ScanPage.mapped (payload_json payload)) db = Some (ticketId, ticket) →
  mintPubkey ticket = Some assetPubkey →
  status ticket = ACTIVE →
  Db.eventId ticket ∈ events db →
  ticketId ≠ "" →
  ∃ db' verificationId record,
    ScanPage.handleScan atob_utf8 DEFAULT_EXPIRES lastScan text scanMs verifyMs db
    = (ScanPage.entry_granted ticketId, Some normalized, db')
    ∧ tickets db' = <[ticketId := markUsed verifyMs ticket]> (tickets db)
    ∧ gateVerifications db' !! verificationId = Some record
    ∧ gv_ticketId record = ticketId
    ∧ gv_status record = VERIFIED.
Proof.
  intros payload normalized Hnormalized Hnonempty Hdecoded Hlast Hage Hlookup Hmint Hactive
    Hevent Hid.
  set (qrPayload := ScanPage.mapped (payload_json payload)) in *.
  apply lookup_sound in Hlookup as Hrow.
  assert (JSON_parse normalized = Some qrPayload) as Hparse
    by apply JSON_parse_stringify, mapped_flat.
  set (scanBody := {| qrString := Some normalized; staffId := Some ScanPage.STAFF_ID;
                      gateId := Some ScanPage.GATE_ID |}).
  assert (POST DEFAULT_EXPIRES scanMs (Some scanBody) db
          = let '(verificationRecordId, db1) :=
              record_scan DEFAULT_EXPIRES scanMs scanBody qrPayload ticketId ticket db in
            (scan_ok ticketId (JStr eventId) verificationRecordId DEFAULT_EXPIRES, db1))
    as Hscan.
  { rewrite (POST_resolved DEFAULT_EXPIRES scanMs scanBody db qrPayload ticketId ticket).
    - assert (tampered qrPayload ticket = false) as ->.
      { unfold tampered. rewrite Hmint. cbn. rewrite String.eqb_refl. reflexivity. }
      rewrite andb_false_r.
      rewrite (prefix_not_mismatched qrPayload ticket (slice 0 8 assetPubkey) assetPubkey);
        [| reflexivity | assumption | apply startsWith_slice |].
      2:{ etrans; [apply length_substring_le | lia]. }
      rewrite Hactive, bool_decide_eq_true_2 by reflexivity. reflexivity.
    - cbn [scanBody qrString given]. rewrite eqb_empty_false by assumption. reflexivity.
    - cbn [scanBody qrString default from_option id]. rewrite Hdecoded. exact Hparse.
    - reflexivity.
    - unfold age_accepted. cbn. apply negb_true_iff, Z.ltb_ge. exact Hage.
    - assumption. }
  unfold ScanPage.handleScan. rewrite Hnormalized.
  rewrite eqb_empty_false by assumption.
  rewrite bool_decide_eq_false_2 by assumption.
  fold scanBody. rewrite Hscan.
  destruct (record_scan DEFAULT_EXPIRES scanMs scanBody qrPayload ticketId ticket db)
    as [vid db1] eqn:Hrec.
  assert (negb (given vid) && negb (given (Some ticketId)) = false) as ->.
  { rewrite given_Some, eqb_empty_false by assumption. apply andb_false_r. }
  set (verifyBody := {| Verify.ticketId := Some ticketId; Verify.verificationId := vid;
                        Verify.staffId := Some ScanPage.STAFF_ID;
                        Verify.gateId := Some ScanPage.GATE_ID |}).
  assert (given (Verify.ticketId verifyBody) = true) as Hgiven.
  { cbn [verifyBody Verify.ticketId]. rewrite given_Some, eqb_empty_false by assumption.
    reflexivity. }
  assert (events db1 = events db ∧ tickets db1 = tickets db
          ∧ (given vid = true →
             ∃ pending, gateVerifications db1 !! default "" vid = Some pending
                        ∧ gv_ticketId pending = ticketId)) as (Hevents & Htickets & Hpending).
  { apply record_scan_cases in Hrec as [[-> ->] | (v & ev & -> & _ & _ & ->)].
    - split; [reflexivity|]. split; [reflexivity|]. discriminate.
    - split; [reflexivity|]. split; [reflexivity|]. intros _.
      eexists. split; [apply lookup_insert_eq | reflexivity]. }
  destruct (POST_cases verifyMs verifyBody db1)
    as [(Hno & _) | [(Hno & _) | (rid & Hres & Hcase)]]; [congruence .. |].
  unfold VerifySpec.resolved in Hres. rewrite Hgiven in Hres.
  cbn [verifyBody Verify.ticketId] in Hres. injection Hres as <-.
  destruct Hcase as [[-> _] | [(_ & Hst & _) | (row & _ & Hrow' & _ & Hcase)]]; [done | |].
  { exfalso. apply Hst. unfold VerifySpec.status_of. rewrite Htickets, Hrow. cbn. congruence. }
  rewrite Htickets, Hrow in Hrow'. injection Hrow' as <-.
  cbn [verifyBody Verify.verificationId] in Hcase.
  destruct Hcase
    as [(Hv & Hnone & _) | [(ex & Hv & Hex & Hm & _) | [(ex & Hv & Hex & Hm & ->)
        | [(Hv & _ & ->) | (Hv & Hno & _)]]]].
  - destruct (Hpending Hv) as (pending & Hp & _). congruence.
  - destruct (Hpending Hv) as (pending & Hp & Hpt). congruence.
  - eexists _, (default "" vid), _. split; [reflexivity|].
    cbn [VerifySpec.after_update tickets gateVerifications]. rewrite Htickets.
    split; [reflexivity|]. split; [apply lookup_insert_eq|]. split; [exact Hm | reflexivity].
  - eexists _, _, _. split; [reflexivity|].
    cbn [VerifySpec.after_create tickets gateVerifications]. rewrite Htickets.
    split; [reflexivity|]. split; [apply lookup_insert_eq|]. split; reflexivity.
  - exfalso. apply Hno. rewrite Hevents. exact Hevent.
Qed.

End ScanPageFacts.

(** ** The two base64 decoders *)

Section Padding.
Local Close Scope Z_scope.

Lemma append_assoc (s1 s2 s3 : string) : (s1 +:+ s2) +:+ s3 = s1 +:+ (s2 +:+ s3).
Proof.
  induction s1 as [|ch s1 IH]; [reflexivity|].
  rewrite !append_cons, IH. reflexivity.
Qed.

Lemma append_empty_r (s : string) : s +:+ "" = s.
Proof. induction s as [|ch s IH]; [reflexivity|]. rewrite append_cons, IH. reflexivity. Qed.

Lemma length_replace_all_char (x y : ascii) (s : string) :
  String.length (replace_all_char x y s) = String.length s.
Proof. induction s as [|ch s IH]; [reflexivity|]. cbn. rewrite IH. reflexivity. Qed.

Lemma pad_cases (b64 : string) :
  (String.length b64 mod 4 = 0 ∧ Scan.pad 3 b64 = b64)
  ∨ (String.length b64 mod 4 = 3 ∧ Scan.pad 3 b64 = b64 +:+ "=")
  ∨ (String.length b64 mod 4 = 2 ∧ Scan.pad 3 b64 = b64 +:+ "==")
  ∨ (String.length b64 mod 4 = 1 ∧ Scan.pad 3 b64 = b64 +:+ "===").
Proof.
  pose proof (Nat.div_mod_eq (String.length b64) 4) as Hn.
  pose proof (Nat.mod_upper_bound (String.length b64) 4 ltac:(lia)) as Hr.
  cbn [Scan.pad]. rewrite !length_append. cbn [String.length].
  replace (String.length b64 + 1) with (String.length b64 mod 4 + 1 + String.length b64 / 4 * 4)
    by lia.
  replace (String.length b64 mod 4 + 1 + String.length b64 / 4 * 4 + 1)
    with (String.length b64 mod 4 + 2 + String.length b64 / 4 * 4) by lia.
  rewrite !Nat.Div0.mod_add.
  rewrite !append_assoc. cbn [append].
  destruct (String.length b64 mod 4) as [|[|[|[|r]]]]; cbn; auto; lia.
Qed.

End Padding.

Section PaddingFacts.
Context `{Platform}.
Variable atob_utf8 : string → option string.
Local Close Scope Z_scope.

(** X12. What the two decoders hand to [Buffer.from] and to [atob]. The
    text is the input with every ['-'] turned into ['+'] and every ['_']
    into ['/'], followed by as many ['='] as bring its length to a
    multiple of 4: none, one, two or three, and never more, so the loop
    stops within three rounds. *)
Theorem decoders_pad_to_a_multiple_of_four (input : string) :
  let replaced := replace_all_char "_" "/" (replace_all_char "-" "+" input) in
  let padding := (4 - String.length input mod 4) mod 4 in
  String.length replaced = String.length input
  ∧ Scan.pad 3 replaced = replaced +:+ equals_signs padding
  ∧ String.length (Scan.pad 3 replaced) mod 4 = 0
  ∧ Scan.base64UrlToUtf8Node input = Buffer_base64_utf8 (replaced +:+ equals_signs padding)
  ∧ ScanPage.base64UrlToUtf8 atob_utf8 input = atob_utf8 (replaced +:+ equals_signs padding).
Proof.
  cbn zeta. set (replaced := replace_all_char "_" "/" (replace_all_char "-" "+" input)).
  assert (String.length replaced = String.length input) as Hlen
    by (unfold replaced; rewrite !length_replace_all_char; reflexivity).
  assert (Scan.pad 3 replaced
          = replaced +:+ equals_signs ((4 - String.length input mod 4) mod 4)) as Hpad.
  { rewrite <- Hlen.
    destruct (pad_cases replaced) as [[-> ->] | [[-> ->] | [[-> ->] | [-> ->]]]];
      cbn; rewrite ?append_empty_r; reflexivity. }
  split; [exact Hlen|]. split; [exact Hpad|].
  split; [apply pad_complete|].
  unfold Scan.base64UrlToUtf8Node, ScanPage.base64UrlToUtf8. fold replaced.
  rewrite Hpad. split; reflexivity.
Qed.

End PaddingFacts.

(** ** The reference decoders read the reference encoder *)

Section ReferenceDecoders.
Local Close Scope Z_scope.
Import Reference Base64Url.

Lemma to_standard_cons (ch : ascii) (s : string) :
  to_standard (String ch s) = String (to_standard_char ch) (to_standard s).
Proof. reflexivity. Qed.

Lemma to_standard_nil : to_standard "" = "".
Proof. reflexivity. Qed.

Lemma sextet_of_standard (x : sextet) :
  sextet_of_char (to_standard_char (char_of_sextet x)) = Some x.
Proof. destruct x as [[[[[[] []] []] []] []] []]; reflexivity. Qed.

Lemma decode_standard_bounded (n : nat) :
  ∀ s, String.length s < n → decode (to_standard (encode s)) = Some s.
Proof.
  induction n as [|n IH]; intros s Hlen; [lia|].
  destruct s as [|[a0 a1 a2 a3 a4 a5 a6 a7] s]; [reflexivity|].
  destruct s as [|[b0 b1 b2 b3 b4 b5 b6 b7] s].
  { cbn [encode]. rewrite !to_standard_cons, to_standard_nil. cbn [decode].
    rewrite !sextet_of_standard. reflexivity. }
  destruct s as [|[c0 c1 c2 c3 c4 c5 c6 c7] s].
  { cbn [encode]. rewrite !to_standard_cons, to_standard_nil. cbn [decode].
    rewrite !sextet_of_standard. reflexivity. }
  cbn [encode]. rewrite !to_standard_cons. cbn [decode].
  rewrite !sextet_of_standard.
  rewrite IH; [reflexivity|]. cbn [String.length] in Hlen. lia.
Qed.

Lemma decode_standard (s : string) : decode (to_standard (encode s)) = Some s.
Proof. apply (decode_standard_bounded (S (String.length s))). lia. Qed.

(** Every character of an encoding, and of its standard form, is one of
    the 64. *)
Lemma encode_chars_bounded (P : ascii → bool) (n : nat) :
  (∀ x, P (char_of_sextet x) = true) →
  ∀ s, String.length s < n → all_chars P (encode s) = true.
Proof.
  intros HP. induction n as [|n IH]; intros s Hlen; [lia|].
  destruct s as [|[a0 a1 a2 a3 a4 a5 a6 a7] s]; [reflexivity|].
  destruct s as [|[b0 b1 b2 b3 b4 b5 b6 b7] s].
  { cbn [encode all_chars]. rewrite !HP. reflexivity. }
  destruct s as [|[c0 c1 c2 c3 c4 c5 c6 c7] s].
  { cbn [encode all_chars]. rewrite !HP. reflexivity. }
  cbn [encode all_chars]. rewrite !HP. cbn [andb].
  apply IH. cbn [String.length] in Hlen. lia.
Qed.

Lemma encode_chars (P : ascii → bool) (s : string) :
  (∀ x, P (char_of_sextet x) = true) → all_chars P (encode s) = true.
Proof. intros HP. apply (encode_chars_bounded P (S (String.length s)) HP). lia. Qed.

Lemma to_standard_chars (P : ascii → bool) (s : string) :
  all_chars (λ ch, P (to_standard_char ch)) s = true → all_chars P (to_standard s) = true.
Proof.
  induction s as [|ch s IH]; [reflexivity|].
  rewrite to_standard_cons. cbn [all_chars]. intros Hall.
  apply andb_true_iff in Hall as [-> Hall]. apply IH, Hall.
Qed.

Lemma length_encode_bounded (n : nat) :
  ∀ s, String.length s < n → String.length (encode s) mod 4 ≠ 1.
Proof.
  induction n as [|n IH]; intros s Hlen; [lia|].
  destruct s as [|a s]; [cbn; lia|].
  destruct s as [|b s]; [destruct a; cbn; lia|].
  destruct s as [|c s]; [destruct a, b; cbn; lia|].
  destruct a, b, c. cbn [encode String.length].
  change (S (S (S (S (String.length (encode s))))))
    with (4 + String.length (encode s)).
  replace (4 + String.length (encode s)) with (String.length (encode s) + 1 * 4) by lia.
  rewrite Nat.Div0.mod_add. apply IH. cbn [String.length] in Hlen. lia.
Qed.

Lemma length_encode (s : string) : String.length (encode s) mod 4 ≠ 1.
Proof. apply (length_encode_bounded (S (String.length s))). lia. Qed.

(** The decoder of [Buffer.from] *)

Lemma alphabet_only_padded (x : string) (k : nat) :
  all_chars in_alphabet x = true → NodeBuffer.alphabet_only (x +:+ equals_signs k) = x.
Proof.
  intros Hall. induction x as [|ch x IH].
  - rewrite append_nil. destruct k; reflexivity.
  - cbn [all_chars] in Hall. apply andb_true_iff in Hall as [Hch Hall].
    unfold in_alphabet in Hch. apply andb_true_iff in Hch as [Heq Hsome].
    apply negb_true_iff in Heq.
    rewrite append_cons. cbn [NodeBuffer.alphabet_only]. rewrite Heq.
    destruct (sextet_of_char ch); [|discriminate]. rewrite IH by assumption. reflexivity.
Qed.

Lemma standard_in_alphabet (x : sextet) : in_alphabet (to_standard_char (char_of_sextet x)) = true.
Proof. destruct x as [[[[[[] []] []] []] []] []]; reflexivity. Qed.

Lemma base64_utf8_encode (s : string) :
  NodeBuffer.base64_utf8 (Scan.pad 3 (to_standard (encode s))) = s.
Proof.
  assert (∃ k, Scan.pad 3 (to_standard (encode s)) = to_standard (encode s) +:+ equals_signs k)
    as [k ->].
  { destruct (pad_cases (to_standard (encode s))) as [[_ ->] | [[_ ->] | [[_ ->] | [_ ->]]]].
    - exists 0. rewrite append_empty_r. reflexivity.
    - exists 1. reflexivity.
    - exists 2. reflexivity.
    - exists 3. reflexivity. }
  unfold NodeBuffer.base64_utf8.
  rewrite alphabet_only_padded.
  - rewrite decode_standard. reflexivity.
  - apply to_standard_chars, encode_chars, standard_in_alphabet.
Qed.

(** The decoder of [atob] *)

Lemma ends_with_equals_append (x : string) (ch : ascii) (t : string) :
  Browser.ends_with_equals (x +:+ String ch t) = Browser.ends_with_equals (String ch t).
Proof.
  induction x as [|c x IH]; [reflexivity|].
  rewrite append_cons.
  change (Browser.ends_with_equals (String c (x +:+ String ch t)))
    with (match x +:+ String ch t with
          | EmptyString => Ascii.eqb c "="
          | String _ _ => Browser.ends_with_equals (x +:+ String ch t)
          end).
  destruct (x +:+ String ch t) eqn:Happ; [|exact IH].
  destruct x; discriminate.
Qed.

Lemma drop_last_append (x : string) (ch : ascii) (t : string) :
  NodeBuffer.drop_last (x +:+ String ch t) = x +:+ NodeBuffer.drop_last (String ch t).
Proof.
  induction x as [|c x IH]; [reflexivity|].
  rewrite !append_cons.
  change (NodeBuffer.drop_last (String c (x +:+ String ch t)))
    with (match x +:+ String ch t with
          | EmptyString => EmptyString
          | String _ _ => String c (NodeBuffer.drop_last (x +:+ String ch t))
          end).
  destruct (x +:+ String ch t) eqn:Happ; [destruct x; discriminate|].
  rewrite IH. reflexivity.
Qed.

Lemma ends_with_equals_chars (x : string) :
  all_chars in_alphabet x = true → Browser.ends_with_equals x = false.
Proof.
  induction x as [|ch x IH]; [reflexivity|]. cbn [all_chars]. intros Hall.
  apply andb_true_iff in Hall as [Hch Hall]. unfold in_alphabet in Hch.
  apply andb_true_iff in Hch as [Heq _]. apply negb_true_iff in Heq.
  destruct x as [|c x]; [exact Heq|]. apply IH, Hall.
Qed.

Lemma strip_equals_padded (x : string) (k : nat) :
  all_chars in_alphabet x = true → k ≤ 2 →
  Browser.strip_equals (Browser.strip_equals (x +:+ equals_signs k)) = x.
Proof.
  intros Hall Hk. pose proof (ends_with_equals_chars x Hall) as Hend.
  destruct k as [|[|[|k]]]; [| | |lia]; unfold Browser.strip_equals.
  - change (equals_signs 0) with EmptyString. rewrite append_empty_r, Hend, Hend. reflexivity.
  - change (equals_signs 1) with (String "=" EmptyString).
    rewrite ends_with_equals_append, drop_last_append. cbn [Browser.ends_with_equals Ascii.eqb
      Bool.eqb NodeBuffer.drop_last]. rewrite append_empty_r, Hend. reflexivity.
  - change (equals_signs 2) with (String "=" (String "=" EmptyString)).
    rewrite ends_with_equals_append, drop_last_append. cbn [Browser.ends_with_equals Ascii.eqb
      Bool.eqb NodeBuffer.drop_last].
    rewrite ends_with_equals_append, drop_last_append. cbn [Browser.ends_with_equals Ascii.eqb
      Bool.eqb NodeBuffer.drop_last]. rewrite append_empty_r. reflexivity.
Qed.

Lemma remove_whitespace_chars (x : string) :
  all_chars (λ ch, negb (Browser.is_ascii_whitespace ch)) x = true →
  Browser.remove_whitespace x = x.
Proof.
  induction x as [|ch x IH]; [reflexivity|]. cbn [all_chars]. intros Hall.
  apply andb_true_iff in Hall as [Hch Hall]. apply negb_true_iff in Hch.
  cbn [Browser.remove_whitespace]. rewrite Hch, IH by assumption. reflexivity.
Qed.

Lemma standard_not_whitespace (x : sextet) :
  negb (Browser.is_ascii_whitespace (to_standard_char (char_of_sextet x))) = true.
Proof. destruct x as [[[[[[] []] []] []] []] []]; reflexivity. Qed.

Lemma standard_is_standard (x : sextet) :
  Browser.standard (to_standard_char (char_of_sextet x)) = true.
Proof. destruct x as [[[[[[] []] []] []] []] []]; reflexivity. Qed.

Lemma equals_signs_not_whitespace (k : nat) :
  all_chars (λ ch, negb (Browser.is_ascii_whitespace ch)) (equals_signs k) = true.
Proof. induction k as [|k IH]; [reflexivity|]. cbn. exact IH. Qed.

Lemma atob_utf8_encode (s : string) :
  Browser.atob_utf8 (Scan.pad 3 (to_standard (encode s))) = Some s.
Proof.
  set (x := to_standard (encode s)).
  assert (String.length x = String.length (encode s)) as Hlen
    by (unfold x, to_standard; rewrite !length_replace_all_char; reflexivity).
  assert (all_chars in_alphabet x = true) as Halpha
    by apply to_standard_chars, encode_chars, standard_in_alphabet.
  assert (∃ k, k ≤ 2 ∧ Scan.pad 3 x = x +:+ equals_signs k) as (k & Hk & Hpad).
  { destruct (pad_cases x) as [[_ ->] | [[_ ->] | [[_ ->] | [Hone _]]]].
    - exists 0. rewrite append_empty_r. split; [lia | reflexivity].
    - exists 1. split; [lia | reflexivity].
    - exists 2. split; [lia | reflexivity].
    - exfalso. rewrite Hlen in Hone. exact (length_encode s Hone). }
  pose proof (pad_complete x) as Hfour. rewrite Hpad in Hfour.
  unfold Browser.atob_utf8. rewrite Hpad.
  rewrite remove_whitespace_chars.
  2:{ rewrite all_chars_append, equals_signs_not_whitespace, andb_true_r.
      apply to_standard_chars, encode_chars, standard_not_whitespace. }
  rewrite Hfour. cbn [Nat.eqb]. rewrite strip_equals_padded by assumption.
  destruct (Nat.eqb_spec (String.length x mod 4) 1) as [Hone | _].
  { exfalso. rewrite Hlen in Hone. exact (length_encode s Hone). }
  assert (all_chars Browser.standard x = true) as ->
    by apply to_standard_chars, encode_chars, standard_is_standard.
  apply decode_standard.
Qed.

End ReferenceDecoders.

(** ** The codes of the generator, read by the endpoint and by the page *)

Section ReferenceReaders.
Import Reference Qr.

Lemma slice_from_scheme (encoded : string) :
  slice_from (String.length "parchi:") ("parchi:" +:+ encoded) = encoded.
Proof. reflexivity. Qed.

Lemma trimEnd_chars (s : string) :
  all_chars (λ ch, negb (is_space ch)) s = true → trimEnd s = s.
Proof.
  induction s as [|ch s IH]; [reflexivity|]. cbn [all_chars]. intros Hall.
  apply andb_true_iff in Hall as [Hch Hall]. apply negb_true_iff in Hch.
  cbn [trimEnd]. rewrite IH, Hch by assumption. destruct s; reflexivity.
Qed.

Lemma url_not_space (x : Base64Url.sextet) :
  negb (is_space (Base64Url.char_of_sextet x)) = true.
Proof. destruct x as [[[[[[] []] []] []] []] []]; reflexivity. Qed.

Lemma trim_generated (text : string) :
  trim ("parchi:" +:+ Base64Url.encode text) = "parchi:" +:+ Base64Url.encode text.
Proof.
  unfold trim.
  change ("parchi:" +:+ Base64Url.encode text)
    with (String "p" ("archi:" +:+ Base64Url.encode text)).
  cbn [trimStart]. change (is_space "p") with false. cbn iota.
  apply trimEnd_chars.
  change (String "p" ("archi:" +:+ Base64Url.encode text))
    with ("parchi:" +:+ Base64Url.encode text).
  rewrite all_chars_append. apply andb_true_iff. split; [reflexivity|].
  apply encode_chars, url_not_space.
Qed.

(** X13. The scan endpoint reads the codes of the generator. With
    SHA-256, base64url, JSON and the base64 decoder of [Buffer] as the
    reference platform has them, the text the endpoint decodes from a code
    of [generateTicketQR] parses to the payload that was encoded, whatever
    the event, the ticket number, the asset and the time. *)
Theorem scan_reads_generated_code (issuedMs : Z) (eventId : string) (ticketNumber : Z)
    (assetPubkey : string) :
  @JSON_parse reference
    (@Scan.decodedText reference
       (@generateTicketQR reference issuedMs eventId ticketNumber assetPubkey))
  = Some (payload_json
            {| v := 1; e := eventId; t := ticketNumber; a := slice 0 8 assetPubkey;
               ts := issuedMs / 1000;
               c := @calculateChecksum reference eventId ticketNumber assetPubkey
                      (issuedMs / 1000) |}).
Proof.
  rewrite generateTicketQR_encode. unfold QrSpec.encode_payload, Scan.decodedText.
  rewrite startsWith_scheme, slice_from_scheme.
  unfold Scan.base64UrlToUtf8Node.
  change (@Buffer_base64_utf8 reference) with NodeBuffer.base64_utf8.
  change (@base64url_encode reference) with Base64Url.encode.
  fold (to_standard (Base64Url.encode (JSON_stringify (payload_json
    {| v := 1; e := eventId; t := ticketNumber; a := slice 0 8 assetPubkey;
       ts := issuedMs / 1000;
       c := calculateChecksum eventId ticketNumber assetPubkey (issuedMs / 1000) |})))).
  rewrite base64_utf8_encode.
  apply JSON_parse_stringify, payload_flat.
Qed.

(** X14. The gate page reads the codes of the generator. With the
    reference platform and the decoding of [atob],
    [normalizeQrStringForServer] turns a code of [generateTicketQR] into
    the JSON text of [{m, e, t, ts, c}], where [m] is the asset prefix of
    the payload and the other four fields are its own. *)
Theorem page_reads_generated_code (issuedMs : Z) (eventId : string) (ticketNumber : Z)
    (assetPubkey : string) :
  let checksum :=
    @calculateChecksum reference eventId ticketNumber assetPubkey (issuedMs / 1000) in
  @ScanPage.normalizeQrStringForServer reference Browser.atob_utf8
    (@generateTicketQR reference issuedMs eventId ticketNumber assetPubkey)
  = @JSON_stringify reference
      (JObj [("m", JStr (slice 0 8 assetPubkey)); ("e", JStr eventId);
             ("t", JNum ticketNumber); ("ts", JNum (issuedMs / 1000));
             ("c", JStr checksum)]).
Proof.
  cbn zeta. rewrite generateTicketQR_encode.
  unfold QrSpec.encode_payload, ScanPage.normalizeQrStringForServer.
  change (@base64url_encode reference) with Base64Url.encode.
  rewrite trim_generated, startsWith_scheme, slice_from_scheme.
  unfold ScanPage.base64UrlToUtf8.
  match goal with
  | |- context [Browser.atob_utf8 (Scan.pad 3 (replace_all_char "_" "/"
                  (replace_all_char "-" "+" (Base64Url.encode ?text))))] =>
      change (replace_all_char "_" "/" (replace_all_char "-" "+" (Base64Url.encode text)))
        with (to_standard (Base64Url.encode text));
      rewrite (atob_utf8_encode text)
  end.
  cbn [mbind option_bind]. unfold payload_json.
  rewrite JSON_parse_stringify by apply payload_flat.
  reflexivity.
Qed.

End ReferenceReaders.

(** ** Which ticket a payload of the codec is *)

Section LookupFacts.
Import Qr Scan.
Local Close Scope Z_scope.

Lemma lookup_payload (p : QRPayload) (db : DB) :
  lookup (payload_json p) db
  = if String.eqb (a p) "" then None else ticket_findFirst (mint_matches (trim (a p))) db.
Proof.
  unfold lookup, mint_matches, ticketIdFromQr, mintPubkeyRaw, payload_json, truthy.
  cbn [prop assoc String.eqb Ascii.eqb Bool.eqb nullish as_string number_eqb].
  destruct (Z.eqb (t p) 0); cbn [negb]; destruct (String.eqb (a p) ""); cbn [negb];
    try reflexivity.
  all: destruct (String.length (trim (a p)) <=? 16); reflexivity.
Qed.

(** X15. A payload of the codec is resolved by its asset prefix alone.
    The event id, the ticket number, the timestamp and the checksum of the
    payload play no part in the lookup of the scan endpoint: two payloads
    with the same prefix resolve alike, in any store. The ticket found is a
    ticket of the store whose asset id starts with the prefix, trimmed (or
    is equal to it, when the prefix is longer than 16 characters), of
    whatever event; no ticket is found for an empty prefix; and a ticket is
    found whenever the store has one whose asset id starts with a prefix of
    at most 16 characters. *)
Theorem scan_resolves_by_asset_prefix (p : QRPayload) (db : DB) :
  (∀ p', a p' = a p → lookup (payload_json p') db = lookup (payload_json p) db)
  ∧ (a p = "" → lookup (payload_json p) db = None)
  ∧ (∀ ticketId ticket,
       lookup (payload_json p) db = Some (ticketId, ticket) →
       tickets db !! ticketId = Some ticket
       ∧ ∃ mint, mintPubkey ticket = Some mint
                 ∧ if String.length (trim (a p)) <=? 16
                   then startsWith mint (trim (a p)) = true
                   else mint = trim (a p))
  ∧ (∀ ticketId ticket mint,
       a p ≠ "" → String.length (trim (a p)) ≤ 16 →
       tickets db !! ticketId = Some ticket →
       mintPubkey ticket = Some mint →
       startsWith mint (trim (a p)) = true →
       ∃ found, lookup (payload_json p) db = Some found).
Proof.
  split; [|split; [|split]].
  - intros p' Hsame. rewrite !lookup_payload, Hsame. reflexivity.
  - intros Hempty. rewrite lookup_payload, Hempty. reflexivity.
  - intros ticketId ticket. rewrite lookup_payload.
    destruct (String.eqb (a p) ""); [discriminate|]. intros Hfound.
    apply ticket_findFirst_Some in Hfound as [Hrow Hmatch]. split; [assumption|].
    unfold mint_matches in Hmatch. destruct (mintPubkey ticket) as [mint|]; [|discriminate].
    exists mint. split; [reflexivity|].
    destruct (String.length (trim (a p)) <=? 16); [assumption|].
    apply String.eqb_eq. assumption.
  - intros ticketId ticket mint Hnonempty Hshort Hrow Hmint Hstarts.
    rewrite lookup_payload, eqb_empty_false by assumption.
    destruct (ticket_findFirst _ db) as [found|] eqn:Hfind; [eauto|].
    exfalso. pose proof (proj1 (ticket_findFirst_None _ _) Hfind ticketId ticket Hrow) as Hno.
    unfold mint_matches in Hno. rewrite Hmint in Hno.
    apply Nat.leb_le in Hshort. rewrite Hshort, Hstarts in Hno. discriminate.
Qed.

End LookupFacts.

(** ** The gate page, continued; the checks of time *)

Section PageSound.
Context `{Platform}.
Variable atob_utf8 : string → option string.
Variable DEFAULT_EXPIRES : Z.
Import Qr Scan.

(** X16. What the gate page shows is backed by the store. 'Entry
    granted' for a ticket means that the ticket was ACTIVE and is now USED,
    from the time of the verify call, and that no other ticket was written.
    When the page ignores a text (blank, or the one it has just handled) or
    the scan is refused, the store is as it was; in the two other cases the
    tickets are as they were. *)
Theorem handleScan_sound (lastScan : option string) (text : string) (scanMs verifyMs : Z)
    (db : DB) :
  let out := ScanPage.handleScan atob_utf8 DEFAULT_EXPIRES lastScan text scanMs verifyMs db in
  match out.1.1 with
  | ScanPage.entry_granted ticketId =>
      ∃ ticket, tickets db !! ticketId = Some ticket
                ∧ status ticket = ACTIVE
                ∧ tickets out.2 = <[ticketId := markUsed verifyMs ticket]> (tickets db)
  | ScanPage.ignored => out.2 = db ∧ out.1.2 = lastScan
  | ScanPage.scan_rejected _ => out.2 = db
  | ScanPage.no_ids_returned | ScanPage.verify_rejected _ => tickets out.2 = tickets db
  end.
Proof.
  cbn zeta. unfold ScanPage.handleScan.
  destruct (String.eqb _ ""); [split; reflexivity|].
  destruct (bool_decide _); [split; reflexivity|].
  match goal with
  | |- context [POST DEFAULT_EXPIRES scanMs ?body db] =>
      destruct (POST_write DEFAULT_EXPIRES scanMs body db) as (_ & Htickets & _);
      destruct (POST DEFAULT_EXPIRES scanMs body db) as [response db1] eqn:Hscan
  end.
  cbn [snd] in Htickets.
  destruct response as [tid ev vid expires | err].
  2:{ cbn [fst snd]. eapply POST_scan_failed. eassumption. }
  apply POST_scan_ok in Hscan as (_ & q & ticket & _ & _ & Hlookup & Hactive & _).
  apply lookup_sound in Hlookup.
  destruct (negb (given vid) && negb (given (Some tid))); [exact Htickets|].
  match goal with
  | |- context [Verify.POST verifyMs ?body db1] =>
      pose proof (POST_effect verifyMs body db1) as Heffect;
      destruct (Verify.POST verifyMs body db1) as [response db2]
  end.
  cbn zeta in Heffect. cbn [fst snd] in *.
  destruct Heffect as [[[err ->] ->] | (rid & vid' & row & record & -> & Hrow & Hst & _ & _ & _ & ->)].
  - exact Htickets.
  - cbn [tickets]. rewrite Htickets in *. exists row. auto.
Qed.

(** X17. One rule of expiry, three times. The verifier's
    [validateQRData], the codec's [validateQRIntegrity] and the scan
    endpoint refuse a payload as expired in exactly the same case: its
    timestamp is more than 365 days of seconds before the clock. (For the
    endpoint: a request whose text parses to a payload of the codec with
    version 1 and a ticket number or an asset prefix.) And a timestamp
    that [validateQRFreshness] finds fresh, for a limit of up to 525600
    minutes, is not expired. *)
Theorem expiry_checks_agree (nowMs : Z) (p : QRPayload) (fullAssetPubkey : string)
    (b : Body) (db : DB) :
  let expired := 365 * 24 * 60 * 60 < nowMs / 1000 - ts p in
  (Verifier.validateQRData nowMs p = Err QRCodeExpired ↔ expired)
  ∧ (validateQRIntegrity nowMs p fullAssetPubkey = Err QRCodeExpired ↔ expired)
  ∧ (given (qrString b) = true →
     JSON_parse (decodedText (default "" (qrString b))) = Some (payload_json p) →
     v p = 1 → t p ≠ 0 ∨ a p ≠ "" →
     ((POST DEFAULT_EXPIRES nowMs (Some b) db).1 = failed qr_expired ↔ expired))
  ∧ (∀ maxAgeMinutes,
       default 5 maxAgeMinutes ≤ 525600 →
       Verifier.validateQRFreshness nowMs (ts p) maxAgeMinutes = true → ¬ expired).
Proof.
  cbn zeta. split; [|split; [|split]].
  - unfold Verifier.validateQRData.
    destruct (Z.ltb_spec (365 * 24 * 60 * 60) (nowMs / 1000 - ts p)); split; intros; try done; lia.
  - unfold validateQRIntegrity. change maxAge with (365 * 24 * 60 * 60).
    destruct (Z.ltb_spec (365 * 24 * 60 * 60) (nowMs / 1000 - ts p)).
    + split; intros; [assumption | reflexivity].
    + split; [|lia].
      destruct (negb _); [discriminate|]. destruct (negb _); discriminate.
  - intros Hqr Hparse Hv Hfield. unfold POST. rewrite Hqr, Hparse. cbn [negb].
    assert (negb (truthy (ticketIdFromQr (payload_json p)))
            && negb (truthy (mintPubkeyRaw (payload_json p))) = false) as ->.
    { unfold ticketIdFromQr, mintPubkeyRaw, payload_json, truthy. cbn.
      destruct Hfield as [Ht | Ha].
      - destruct (Z.eqb_spec (t p) 0); [congruence | reflexivity].
      - rewrite (eqb_empty_false _ Ha). apply andb_false_r. }
    assert (truthy (versionFromQr (payload_json p))
            && negb (is_one (versionFromQr (payload_json p))) = false) as ->.
    { unfold versionFromQr, payload_json. cbn. rewrite Hv. reflexivity. }
    assert (as_number (tsFromQr (payload_json p)) = Some (Int (ts p))) as -> by reflexivity.
    cbn [number_sub number_ltb].
    change maxAge with (365 * 24 * 60 * 60).
    destruct (Z.ltb_spec (365 * 24 * 60 * 60) (nowMs / 1000 - ts p)).
    + split; intros; [assumption | reflexivity].
    + split; [|lia]. intros Hresp. exfalso.
      repeat case_match; cbn [fst] in Hresp; discriminate.
  - intros maxAgeMinutes Hlimit. unfold Verifier.validateQRFreshness.
    intros Hfresh. apply Z.ltb_lt in Hfresh. lia.
Qed.

End PageSound.

(** ** The records of a ticket that is not ACTIVE; the status endpoint and
    the invariant of the gate *)

Section RecordFacts.
Context `{Platform}.
Variable DEFAULT_EXPIRES : Z.

(** One call leaves the records of a ticket that is not ACTIVE as they
    are. *)
Lemma call_keeps_record (c : Gate.Call) (db : DB) (ticketId verificationId : string)
    (row : Ticket) (record : GateVerification) :
  tickets db !! ticketId = Some row → status row ≠ ACTIVE →
  gateVerifications db !! verificationId = Some record → gv_ticketId record = ticketId →
  gateVerifications (Gate.call DEFAULT_EXPIRES c db).2 !! verificationId = Some record.
Proof.
  intros Hrow Hstatus Hrecord Hticket. destruct c as [nowMs body | now body]; cbn [Gate.call].
  - destruct (POST_write DEFAULT_EXPIRES nowMs body db) as (_ & _ & Hwrite).
    destruct (Scan.POST DEFAULT_EXPIRES nowMs body db) as [response db']. cbn [snd] in *.
    destruct Hwrite as [-> | (vid & new & Hfree & _ & ->)]; [assumption|].
    rewrite lookup_insert_ne; [assumption|]. intros ->. congruence.
  - pose proof (POST_effect now body db) as Heffect. cbn zeta in Heffect.
    destruct (Verify.POST now body db) as [response db']. cbn [fst snd] in *.
    destruct Heffect as [[_ ->] | (rid & vid & row' & new & _ & Hrow' & Hactive
                                   & _ & _ & Hold & ->)]; [assumption|].
    cbn [gateVerifications]. rewrite lookup_insert_ne; [assumption|].
    intros ->. specialize (Hold _ Hrecord). subst rid.
    rewrite Hticket in Hrow'. congruence.
Qed.

(** X18. The records of a ticket that is not ACTIVE are out of the reach
    of the gate as well. Whatever scan and verify calls follow, a record
    of a USED, CANCELLED or REFUNDED ticket stays exactly as it is: a
    VERIFIED record is never rewritten, and a PENDING record left by a
    scan of a ticket that was then redeemed through another record stays
    PENDING. *)
Theorem records_of_a_final_ticket_are_final (calls : list Gate.Call) (db : DB)
    (ticketId verificationId : string) (row : Ticket) (record : GateVerification) :
  tickets db !! ticketId = Some row → status row ≠ ACTIVE →
  gateVerifications db !! verificationId = Some record → gv_ticketId record = ticketId →
  gateVerifications (Gate.run DEFAULT_EXPIRES calls db).2 !! verificationId = Some record.
Proof.
  intros Hrow Hstatus Hrecord Hticket. revert db Hrow Hrecord.
  induction calls as [|c rest IH]; intros db Hrow Hrecord; [assumption|].
  rewrite call_cons. cbn [snd]. apply IH.
  - apply (call_not_active DEFAULT_EXPIRES c db ticketId row Hrow Hstatus).
  - apply (call_keeps_record c db ticketId verificationId row record); assumption.
Qed.

End RecordFacts.

Section StatusAndInvariant.
Context `{Platform}.
Variable message : UpdateStatus.StoreError → string.
Import UpdateStatus.

(** X19. The status endpoint goes around the gate. A PATCH with status
    'USED' marks an ACTIVE ticket USED without writing a verification
    record or a [usedAt]: when the ticket has no VERIFIED record, the store
    it leaves has a USED ticket without one, so it no longer is in the
    state every verify call keeps. *)
Theorem PATCH_used_has_no_record (id : string) (b : json) (db : DB) (row : Ticket) :
  tickets db !! id = Some row → status row = ACTIVE →
  (∀ verificationId record,
     gateVerifications db !! verificationId = Some record →
     gv_ticketId record = id → gv_status record ≠ VERIFIED) →
  prop b "status" = Some (JStr "USED") →
  ∃ db',
    PATCH message id (Some b) db = (updated (with_status USED row), db')
    ∧ tickets db' !! id = Some (with_status USED row)
    ∧ usedAt (with_status USED row) = usedAt row
    ∧ gateVerifications db' = gateVerifications db
    ∧ ¬ VerifySpec.consistent db'.
Proof.
  intros Hrow Hactive Hnone Hstatus.
  assert (b ≠ JNull) as Hnull by (intros ->; discriminate).
  exists (with_tickets db (<[id := with_status USED row]> (tickets db))).
  split.
  { unfold PATCH, ticket_update. rewrite Hstatus.
    change (status_of_json (default (JStr "ACTIVE") (Some (JStr "USED")))) with (Some USED).
    rewrite Hrow. destruct b; try reflexivity. congruence. }
  split; [apply lookup_insert_eq|]. split; [reflexivity|]. split; [reflexivity|].
  intros [Hused _].
  destruct (Hused id (with_status USED row)) as (vid & record & Hrecord & Hticket & Hverified);
    [apply lookup_insert_eq | reflexivity |].
  exact (Hnone vid record Hrecord Hticket Hverified).
Qed.

End StatusAndInvariant.

(** ** The code on the fixture: instances of the theorems above *)

Section MoreExamples.
Import Fixture GateFixture.

(** X1 at work: two clocks within one second. *)
Lemma createEventId_format_witness :
  EventId.createEventId "9WzDXwBbmkg8ZTbNMqUxvQRAyrZzDsGYdLVL9zYtAWWM" "Launch" 1700000000999
  = EventId.createEventId "9WzDXwBbmkg8ZTbNMqUxvQRAyrZzDsGYdLVL9zYtAWWM" "Launch" 1700000000123.
Proof.
  apply (createEventId_format "9WzDXwBbmkg8ZTbNMqUxvQRAyrZzDsGYdLVL9zYtAWWM" "Launch"
           1700000000123).
  reflexivity.
Defined.

(** X4 at work: a scan of ticket 7, and the verify call of the record it
    left, a day later. *)
Lemma scan_then_verify_witness :
  ∃ db2,
    Verify.POST 1700086500000 (Some (by_verification "0"))
      (Scan.POST 120 1700000100000 (Some (scan_of (JSON_stringify bare_payload))) store).2
    = (Verify.verified_and_used "tk7" "0", db2).
Proof.
  destruct (scan_then_verify 120 1700000100000 1700086500000
              (scan_of (JSON_stringify bare_payload)) (by_verification "0") store
              (Scan.POST 120 1700000100000 (Some (scan_of (JSON_stringify bare_payload)))
                 store).2
              "tk7" "0" (JStr "evt_abc"))
    as (row & record & qrPayload & _ & _ & Hverify & _).
  - vm_compute. reflexivity.
  - discriminate.
  - discriminate.
  - reflexivity.
  - left. reflexivity.
  - eexists. exact Hverify.
Defined.

(** X5 at work: the USED ticket [tk8] under a scan and two verify calls. *)
Lemma not_active_is_final_witness :
  tickets
    (Gate.run 120 [Gate.scan 1700000100000 (Some (scan_of code7));
                   Gate.verify 1700000101000 (Some (by_ticket "tk8"));
                   Gate.verify 1700000102000 (Some (by_verification "gv2"))] store).2 !! "tk8"
  = Some ticket8.
Proof.
  apply (not_active_is_final 120
           [Gate.scan 1700000100000 (Some (scan_of code7));
            Gate.verify 1700000101000 (Some (by_ticket "tk8"));
            Gate.verify 1700000102000 (Some (by_verification "gv2"))] store "tk8" ticket8).
  - vm_compute. reflexivity.
  - discriminate.
Defined.

(** X7 at work: ticket 7 redeemed, put back by a PATCH with an empty
    body, and redeemed again by the same request. *)
Lemma reactivated_ticket_is_redeemed_again_witness :
  ∃ row db2 verificationId' db3 row3,
    tickets (Verify.POST 1700000100000 (Some (by_verification "gv1")) store).2 !! "tk7"
    = Some row
    ∧ status row = USED ∧ usedAt row = Some 1700000100000
    ∧ UpdateStatus.PATCH message "tk7" (Some (JObj []))
        (Verify.POST 1700000100000 (Some (by_verification "gv1")) store).2
      = (UpdateStatus.updated (UpdateStatus.with_status ACTIVE row), db2)
    ∧ Verify.POST 1700000200000 (Some (by_verification "gv1")) db2
      = (Verify.verified_and_used "tk7" verificationId', db3)
    ∧ tickets db3 !! "tk7" = Some row3
    ∧ status row3 = USED ∧ usedAt row3 = Some 1700000200000.
Proof.
  apply (reactivated_ticket_is_redeemed_again message 1700000100000 1700000200000
           (by_verification "gv1") (JObj []) store _ "tk7" "gv1").
  - vm_compute. reflexivity.
  - discriminate.
  - left. reflexivity.
Defined.

(** X8 at work: a collection code, read back an hour later. *)
Lemma validateQRData_roundtrip_witness :
  QrService.validateQRData 1700003600000
    (JSON_stringify (QrService.collectionData 1700000000000 "Coll111" "evt_abc" "Org111"))
  = Some (QrService.collectionData 1700000000000 "Coll111" "evt_abc" "Org111").
Proof.
  destruct (validateQRData_roundtrip toDataURL 1700000000000 1700003600000
              "tk7" "Coll111" "evt_abc" "Org111") as [Hcollection _]; try discriminate.
  apply (Hcollection
           {| QrService.dataUrl :=
                "data:" +:+ JSON_stringify (QrService.collectionData 1700000000000 "Coll111"
                                              "evt_abc" "Org111");
              QrService.data := QrService.collectionData 1700000000000 "Coll111" "evt_abc"
                                  "Org111" |}).
  reflexivity.
Defined.

(** X9 at work: a value of another type, dated a day ahead. *)
Lemma validateQRData_accepts_witness :
  QrService.validateQRData 1700000000000
    (JSON_stringify (JObj [("type", JStr "pass"); ("eventId", JStr "evt_abc");
                           ("organizerPubkey", JStr "Org111");
                           ("timestamp", JNum 1700086400000)]))
  = Some (JObj [("type", JStr "pass"); ("eventId", JStr "evt_abc");
                ("organizerPubkey", JStr "Org111"); ("timestamp", JNum 1700086400000)]).
Proof.
  apply (validateQRData_accepts 1700000000000 "" JNull).
  all: discriminate.
Defined.

(** X10 at work: the code of ticket 7 at the scan endpoint. *)
Lemma scan_checksum_enforced_witness :
  ∃ verificationId,
    (Scan.POST 120 1700000100000 (Some (scan_of code7)) store).1
    = Scan.scan_ok "tk7" (JStr "evt_abc") verificationId 120.
Proof.
  apply (scan_checksum_enforced 120 1700000100000 (scan_of code7) store payload7
           "tk7" ticket7 asset).
  - reflexivity.
  - vm_compute. reflexivity.
  - reflexivity.
  - discriminate.
  - discriminate.
  - vm_compute. discriminate.
  - vm_compute. reflexivity.
  - reflexivity.
  - discriminate.
  - vm_compute. reflexivity.
  - reflexivity.
Defined.

(** X11 at work: the code of ticket 7, through the gate page. *)
Lemma handleScan_grants_entry_witness :
  ∃ db' verificationId record,
    ScanPage.handleScan Browser.atob_utf8 120 None code7 1700000100000 1700000101000 store
    = (ScanPage.entry_granted "tk7",
       Some (JSON_stringify
               (ScanPage.mapped
                  (Qr.payload_json
                     {| Qr.v := 1; Qr.e := "evt_abc"; Qr.t := 7; Qr.a := slice 0 8 asset;
                        Qr.ts := 1700000000123 / 1000;
                        Qr.c := Qr.calculateChecksum "evt_abc" 7 asset
                                  (1700000000123 / 1000) |}))),
       db')
    ∧ tickets db' = <["tk7" := markUsed 1700000101000 ticket7]> (tickets store)
    ∧ gateVerifications db' !! verificationId = Some record
    ∧ gv_ticketId record = "tk7"
    ∧ gv_status record = VERIFIED.
Proof.
  apply (handleScan_grants_entry Browser.atob_utf8 120 None code7
           1700000000123 1700000100000 1700000101000 "evt_abc" 7 asset store "tk7" ticket7).
  - vm_compute. reflexivity.
  - vm_compute. discriminate.
  - vm_compute. reflexivity.
  - discriminate.
  - vm_compute. discriminate.
  - vm_compute. reflexivity.
  - reflexivity.
  - reflexivity.
  - vm_compute. reflexivity.
  - discriminate.
Defined.

(** X15 at work: the payload of ticket 7 finds a ticket. *)
Lemma scan_resolves_by_asset_prefix_witness :
  ∃ found, Scan.lookup (Qr.payload_json payload7) store = Some found.
Proof.
  apply (scan_resolves_by_asset_prefix payload7 store) with "tk7" ticket7 asset.
  - discriminate.
  - vm_compute. lia.
  - vm_compute. reflexivity.
  - reflexivity.
  - vm_compute. reflexivity.
Defined.

(** X17 at work: a payload that is five minutes old is fresh, and is not
    expired. *)
Lemma expiry_checks_agree_witness :
  ¬ (365 * 24 * 60 * 60 < 1700000300000 / 1000 - Qr.ts payload7).
Proof.
  apply (expiry_checks_agree 120 1700000300000 payload7 asset (scan_of code7) store)
    with (Some 10).
  - vm_compute. discriminate.
  - vm_compute. reflexivity.
Defined.

(** X18 at work: the VERIFIED record of [tk8] under the same calls. *)
Lemma records_of_a_final_ticket_are_final_witness :
  gateVerifications
    (Gate.run 120 [Gate.scan 1700000100000 (Some (scan_of code7));
                   Gate.verify 1700000101000 (Some (by_ticket "tk8"));
                   Gate.verify 1700000102000 (Some (by_verification "gv2"))] store).2 !! "gv2"
  = Some verified8.
Proof.
  apply (records_of_a_final_ticket_are_final 120
           [Gate.scan 1700000100000 (Some (scan_of code7));
            Gate.verify 1700000101000 (Some (by_ticket "tk8"));
            Gate.verify 1700000102000 (Some (by_verification "gv2"))] store "tk8" "gv2"
           ticket8 verified8).
  - vm_compute. reflexivity.
  - discriminate.
  - vm_compute. reflexivity.
  - reflexivity.
Defined.

(** X19 at work: ticket 7, which has a PENDING record only. *)
Lemma PATCH_used_has_no_record_witness :
  ∃ db',
    UpdateStatus.PATCH message "tk7" (Some (JObj [("status", JStr "USED")])) store
    = (UpdateStatus.updated (UpdateStatus.with_status USED ticket7), db')
    ∧ tickets db' !! "tk7" = Some (UpdateStatus.with_status USED ticket7)
    ∧ usedAt (UpdateStatus.with_status USED ticket7) = usedAt ticket7
    ∧ gateVerifications db' = gateVerifications store
    ∧ ¬ VerifySpec.consistent db'.
Proof.
  apply (PATCH_used_has_no_record message "tk7" (JObj [("status", JStr "USED")]) store ticket7).
  - vm_compute. reflexivity.
  - reflexivity.
  - intros verificationId record Hrecord Hticket. unfold store in Hrecord.
    cbn [gateVerifications] in Hrecord.
    apply lookup_insert_Some in Hrecord as [[<- <-] | [_ Hrecord]]; [discriminate|].
    apply lookup_insert_Some in Hrecord as [[<- <-] | [_ Hrecord]];
      [discriminate | by rewrite lookup_empty in Hrecord].
  - reflexivity.
Defined.

End MoreExamples.
